(** * CRM GraphQL mutations and filters: a shallow embedding

    The development follows [crm/models.py], [crm/old-schema.py] (the
    earliest mutation set), [crm/old-schema3.py] (the revised mutation set)
    and [crm/filters.py].

    Conventions of the embedding.
    - A Python [str] is a Rocq [string]; its code points are the 256
      values of [ascii] (the Latin-1 range), which covers every character
      class the source tests for.
    - A [Decimal] is a coefficient and a power of ten, as in Python; the
      arithmetic is exact, which is what Python computes as long as a
      result has at most 28 digits. The GraphQL [Float] of a product
      price is kept as the text [str] gives it.
    - The relational store is a record of tables threaded through a state
      and exception monad; the many-to-many relation of an order is a
      finite set of product keys.
    - What the database driver may refuse at run time is not in the
      source: it is a parameter ([db_fault]) of the mutations. It
      concerns the writes; a query is taken to be answered.
    - The database is SQLite. It keeps a [DecimalField] as the number
      written, in a float, and the number is converted when a row is
      read: 15 significant digits of the float are kept and brought to
      the places of the column, within its digits. A number written
      with at most 15 digits comes back as itself, at the places of the
      column; what the float makes of a longer one is a parameter as
      well ([decimalfield_converter]). The mutations read rows of
      customers and products only; the queryset a filter is handed
      stands for its rows as they are stored. The [LIKE] of SQLite
      ignores the case of the letters A-Z. *)

From Stdlib Require Import ZArith QArith Qpower Ascii String List Lia Bool.
From Stdlib Require Import Numbers.DecimalString Numbers.DecimalNat.
From stdpp Require Import base gmap strings list.

Open Scope string_scope.

(** ** Python built-ins on [str] *)

Module Py.

Definition code (c : ascii) : nat := nat_of_ascii c.

Definition between (lo hi : nat) (c : ascii) : bool :=
(lo <=? code c)%nat && (code c <=? hi)%nat.

(** [str.isspace] on one character: TAB..CR, FS..US, SPACE, NEL, NBSP. *)
Definition isspace (c : ascii) : bool :=
between 9 13 c || between 28 32 c || (code c =? 133)%nat || (code c =? 160)%nat.

(** The decimal digits [0-9]: what [\d] and [str.isdigit] select among the
  modelled code points. *)
Definition isdigit (c : ascii) : bool := between 48 57 c.

Definition digit_value (c : ascii) : Z := Z.of_nat (code c - 48).

(** [str.lower] on one character: A-Z and the accented capitals
  U+00C0..U+00DE (all but the multiplication sign U+00D7). *)
Definition lower_char (c : ascii) : ascii :=
if between 65 90 c || (between 192 222 c && negb (code c =? 215)%nat)
then ascii_of_nat (code c + 32) else c.

Fixpoint lower (s : string) : string :=
match s with
| "" => ""
| String c s' => String (lower_char c) (lower s')
end.

(** The folding of SQLite's [LIKE]: the letters A-Z only. *)
Definition like_char (c : ascii) : ascii :=
if between 65 90 c then ascii_of_nat (code c + 32) else c.

Fixpoint like_fold (s : string) : string :=
match s with
| "" => ""
| String c s' => String (like_char c) (like_fold s')
end.

Fixpoint lstrip (s : string) : string :=
match s with
| "" => ""
| String c s' => if isspace c then lstrip s' else s
end.

(** [rstrip] keeps a character when it is not a space or when something
  is kept after it. *)
Fixpoint rstrip (s : string) : string :=
match s with
| "" => ""
| String c s' =>
    match rstrip s' with
    | "" => if isspace c then "" else String c ""
    | r => String c r
    end
end.

(** [s.strip()] *)
Definition strip (s : string) : string := rstrip (lstrip s).

(** Truth value of a [str]: the empty string is false. *)
Definition truthy (s : string) : bool :=
match s with "" => false | _ => true end.

(** [str(n)] for a non-negative [int]. *)
Definition str_of_nat (n : nat) : string :=
NilEmpty.string_of_uint (Nat.to_uint n).

(** [sep.join(l)] *)
Definition join (sep : string) (l : list string) : string :=
String.concat sep l.

(** [s.replace(c, "")] for a single character [c]. *)
Fixpoint remove_char (c : ascii) (s : string) : string :=
match s with
| "" => ""
| String d s' =>
    if Ascii.eqb c d then remove_char c s' else String d (remove_char c s')
end.

(** [s.startswith(t)] *)
Fixpoint startswith (s t : string) : bool :=
match t, s with
| "", _ => true
| String _ _, "" => false
| String b t', String a s' => Ascii.eqb a b && startswith s' t'
end.

(** [t in s] *)
Fixpoint contains (s t : string) : bool :=
startswith s t ||
match s with
| "" => false
| String _ s' => contains s' t
end.

(** [c.isdigit()] for one character: the decimal digits and, among the
  modelled code points, the superscripts two, three and one. *)
Definition str_isdigit (c : ascii) : bool :=
isdigit c || (code c =? 178)%nat || (code c =? 179)%nat || (code c =? 185)%nat.

(** The digits of an [int] literal: digits, with single underscores
  allowed between two digits. [seen] tells whether the previous
  character was a digit. *)
Fixpoint int_digits (acc : Z) (seen : bool) (s : string) : option Z :=
match s with
| "" => if seen then Some acc else None
| String c s' =>
    if isdigit c then int_digits (acc * 10 + digit_value c) true s'
    else if Ascii.eqb c "_" then
      (if seen then int_digits acc false s' else None)
    else None
end.

(** The white space [int] skips around a literal: that of [str.strip]
  but for the four separators FS..US. *)
Definition int_isspace (c : ascii) : bool := isspace c && negb (between 28 31 c).

Fixpoint int_lstrip (s : string) : string :=
match s with
| "" => ""
| String c s' => if int_isspace c then int_lstrip s' else s
end.

Fixpoint int_rstrip (s : string) : string :=
match s with
| "" => ""
| String c s' =>
    match int_rstrip s' with
    | "" => if int_isspace c then "" else String c ""
    | r => String c r
    end
end.

(** [int(s)] for a [str] in base ten: [None] stands for [ValueError]. *)
Definition int_of_str (s : string) : option Z :=
match int_rstrip (int_lstrip s) with
| String "+" r => int_digits 0 false r
| String "-" r => Z.opp <$> int_digits 0 false r
| t => int_digits 0 false t
end.

End Py.

(** ** The fragment of Python's [re] the phone patterns use *)

Module Re.

Inductive regex : Type :=
| Bol                                  (* ^ *)
| Eol                                  (* $ *)
| Lit (c : ascii)                      (* an escaped or plain character *)
| Digit                                (* \d *)
| Rep (r : regex) (lo hi : nat)        (* r{lo,hi} *)
| Seq (r1 r2 : regex).

(** A position of the matcher: the offset from the start of the subject
  and the text that is left. *)
Definition pos : Type := nat * string.

Definition newline : ascii := "010"%char.

(** Without [re.MULTILINE], [$] holds at the end of the subject and also
  just before a newline that is the last character of the subject. *)
Definition at_eol (rest : string) : bool :=
match rest with
| "" => true
| String c "" => Ascii.eqb c newline
| _ => false
end.

(** Greedy bounded repetition of [step]: [more] further rounds are
  allowed, [need] of them are still required. The longer matches come
  first, as the backtracking matcher tries them. *)
Fixpoint rep (step : pos -> list pos) (more need : nat) (p : pos) : list pos :=
match more with
| O => if (need =? 0)%nat then [p] else []
| S more' =>
    flat_map (rep step more' (Nat.pred need)) (step p)
    ++ (if (need =? 0)%nat then [p] else [])
end.

(** All the positions at which a match of [r] started at [p] can end, in
  the matcher's order of preference. *)
Fixpoint run (r : regex) (p : pos) : list pos :=
match r with
| Bol => if (fst p =? 0)%nat then [p] else []
| Eol => if at_eol (snd p) then [p] else []
| Lit c =>
    match snd p with
    | String d rest => if Ascii.eqb c d then [(S (fst p), rest)] else []
    | "" => []
    end
| Digit =>
    match snd p with
    | String d rest => if Py.isdigit d then [(S (fst p), rest)] else []
    | "" => []
    end
| Rep r' lo hi => rep (run r') hi lo p
| Seq r1 r2 => flat_map (run r2) (run r1 p)
end.

(** [pattern.match(s)] as a truth value: is there a match starting at
  offset 0? *)
Definition matches (r : regex) (s : string) : bool :=
match run r (0%nat, s) with
| [] => false
| _ :: _ => true
end.

End Re.

(** ** Helpers and validators ([old-schema.py] 34-45, [old-schema3.py] 39-50) *)

Import Re.

Definition exactly (n : nat) (r : regex) : regex := Rep r n n.

(** [^\+\d{7,15}$] and [^\d{3}-\d{3}-\d{4}$] *)
Definition PHONE_PATTERNS : list regex :=
  [ Seq Bol (Seq (Lit "+") (Seq (Rep Digit 7 15) Eol));
    Seq Bol (Seq (exactly 3 Digit) (Seq (Lit "-") (Seq (exactly 3 Digit)
      (Seq (Lit "-") (Seq (exactly 4 Digit) Eol))))) ].

(** The earliest variant calls the same list [PHONE_REGEXES]. *)
Definition PHONE_REGEXES : list regex := PHONE_PATTERNS.

(** [for p in PHONE_PATTERNS: if p.match(phone): return True] *)
Fixpoint any_match (ps : list regex) (phone : string) : bool :=
  match ps with
  | [] => false
  | p :: ps' => if matches p phone then true else any_match ps' phone
  end.

Definition is_valid_phone (phone : option string) : bool :=
  match phone with
  | None => true
  | Some "" => true
  | Some s => any_match PHONE_PATTERNS s
  end.

Definition validate_phone (phone : option string) : bool :=
  match phone with
  | None => true
  | Some "" => true
  | Some s => any_match PHONE_REGEXES s
  end.

(** The two accepted shapes, as section 4.1 of the specification words
    them: a plus sign followed by 7 to 15 digits, or three digits, a
    hyphen, three digits, a hyphen and four digits, with nothing before
    or after. *)
Fixpoint all_digits (s : string) : bool :=
  match s with
  | "" => true
  | String c s' => Py.isdigit c && all_digits s'
  end.

(** [digits k s]: what follows the first [k] characters of [s] when they
    are all digits. *)
Fixpoint digits (k : nat) (s : string) : option string :=
  match k, s with
  | O, _ => Some s
  | S k', String c s' => if Py.isdigit c then digits k' s' else None
  | S _, "" => None
  end.

Definition international_format (s : string) : bool :=
  match s with
  | String "+" ds =>
      all_digits ds && (7 <=? String.length ds)%nat && (String.length ds <=? 15)%nat
  | _ => false
  end.

Definition dashed_format (s : string) : bool :=
  match digits 3 s with
  | Some (String "-" s1) =>
      match digits 3 s1 with
      | Some (String "-" s2) =>
          match digits 4 s2 with
          | Some "" => true
          | _ => false
          end
      | _ => false
      end
  | _ => false
  end.

Definition phone_format (s : string) : bool :=
  international_format s || dashed_format s.

(** ** Python's [Decimal] *)


Module Dec.

(** A finite decimal [coef * 10^expo]; [Decimal("10.50")] is
  [{| coef := 1050; expo := -2 |}]. The sign of a zero is not kept. *)
Record finite : Type := { coef : Z; expo : Z }.

Inductive Decimal : Type :=
| Fin (d : finite)
| Inf (negative : bool)
| NaN.

(** [Decimal("0.00")] *)
Definition zero2 : finite := {| coef := 0; expo := -2 |}.

(** The coefficient of [d] once written at the exponent [e <= expo d]. *)
Definition rescale (e : Z) (d : finite) : Z := (coef d * 10 ^ (expo d - e))%Z.

(** [a + b]: both operands are brought to the smaller exponent. Python
  then rounds the result to the 28 significant digits of the default
  context; the price and total columns hold 10 and 12 digits, so the
  sums of the mutations stay far below that and are exact. *)
Definition add (a b : finite) : finite :=
let e := Z.min (expo a) (expo b) in
{| coef := rescale e a + rescale e b; expo := e |}.

(** [a == b], the numerical comparison. *)
Definition eqb (a b : finite) : bool :=
let e := Z.min (expo a) (expo b) in (rescale e a =? rescale e b)%Z.

(** The number a finite decimal denotes. *)
Definition value (d : finite) : Q := inject_Z (coef d) * 10 ^ (expo d).

(** [int(d)]: the integral part, rounded toward zero. *)
Definition trunc (d : finite) : Z :=
if (0 <=? expo d)%Z then (coef d * 10 ^ expo d)%Z
else (coef d ÷ 10 ^ (- expo d))%Z.

(** *** Rounding, and what a column reads *)

(** [n / 10^k] rounded to the nearest integer, a tie going to the even
  one ([ROUND_HALF_EVEN], the rounding of every context in use). *)
Definition div_half_even (n k : Z) : Z :=
let p := (10 ^ k)%Z in
let q := (n / p)%Z in
let r := (n mod p)%Z in
if (2 * r <? p)%Z then q
else if (p <? 2 * r)%Z then (q + 1)%Z
else if Z.even q then q else (q + 1)%Z.

(** [d.quantize(Decimal(1).scaleb(e))]: [d] at the exponent [e], rounded
  when digits are dropped. *)
Definition quantize (e : Z) (d : finite) : finite :=
if (e <=? expo d)%Z then {| coef := rescale e d; expo := e |}
else {| coef := div_half_even (coef d) (e - expo d); expo := e |}.

(** What a [DecimalField(max_digits, decimal_places)] column gives when
  a row is read, for a number written with at most 15 significant
  digits: the number at [decimal_places] places; [None] stands for the
  [decimal.InvalidOperation] of a result of more than [max_digits]
  digits. *)
Definition from_db (max_digits decimal_places : Z) (d : finite) : option finite :=
let q := quantize (- decimal_places) d in
if (Z.abs (coef q) <? 10 ^ max_digits)%Z then Some q else None.

(** *** [Decimal(s)] for a [str] *)

Fixpoint take_digits (s : string) : string * string :=
match s with
| String c s' =>
    if Py.isdigit c then let (ds, r) := take_digits s' in (String c ds, r)
    else ("", s)
| "" => ("", "")
end.

Fixpoint digits_value (acc : Z) (s : string) : Z :=
match s with
| "" => acc
| String c s' => digits_value (acc * 10 + Py.digit_value c) s'
end.

(** The exponent part: [E], an optional sign and at least one digit; or
  nothing at all. *)
Definition exponent_part (s : string) : option Z :=
match s with
| "" => Some 0%Z
| String "e" r =>
    let (neg, r') :=
      match r with
      | String "-" t => (true, t)
      | String "+" t => (false, t)
      | _ => (false, r)
      end in
    match take_digits r' with
    | (String c ds, "") =>
        let n := digits_value 0 (String c ds) in
        Some (if neg then (- n)%Z else n)
    | _ => None
    end
| _ => None
end.

(** Digits, an optional point with more digits, an optional exponent;
  at least one digit has to stand before the exponent. *)
Definition numeric_part (neg : bool) (s : string) : option Decimal :=
let (int, r1) := take_digits s in
let (frac, r2) :=
  match r1 with
  | String "." r => take_digits r
  | _ => ("", r1)
  end in
if negb (Py.truthy int) && negb (Py.truthy frac) then None
else
  match exponent_part r2 with
  | None => None
  | Some e =>
      let c := digits_value 0 (int ++ frac) in
      Some (Fin {| coef := if neg then (- c)%Z else c;
                   expo := e - Z.of_nat (String.length frac) |})
  end.

(** [NaN] or [sNaN] followed by digits only, already in lower case. *)
Definition nan_part (s : string) : bool :=
match s with
| String "n" (String "a" (String "n" r)) => all_digits r
| String "s" (String "n" (String "a" (String "n" r))) => all_digits r
| _ => false
end.

(** [Decimal(s)]: surrounding white space and all underscores are
  dropped, letters are read in either case; [None] stands for
  [decimal.InvalidOperation]. A signalling NaN is read as [NaN]. *)
Definition of_str (s : string) : option Decimal :=
let t := Py.lower (Py.remove_char "_" (Py.strip s)) in
let (neg, body) :=
  match t with
  | String "-" r => (true, r)
  | String "+" r => (false, r)
  | _ => (false, t)
  end in
if String.eqb body "inf" || String.eqb body "infinity" then Some (Inf neg)
else if nan_part body then Some NaN
else numeric_part neg body.

End Dec.

(** ** The data model ([models.py]) *)

(** A point in time; only equality of two of them is ever used. *)
Definition datetime : Type := Z.

(** The rows carry the columns the mutations and filters read or write.
    [created_at] is filled by the ORM on insert and read by none of them;
    it is left out. *)
Module Customer.
Record t : Type := { id : Z; name : string; email : string; phone : option string }.
End Customer.

Module Product.
Record t : Type := { id : Z; name : string; price : Dec.finite; stock : Z }.
End Product.

(** [customer] is the foreign key, [products] the many-to-many relation
    (the set of keys of the associated products). *)
Module Order.
Record t : Type :=
  { id : Z; customer : Z; products : gset Z;
    order_date : datetime; total_amount : Dec.finite }.
End Order.

(** Two rows are the same row when all their columns agree. *)
#[global] Instance finite_eq_dec : EqDecision Dec.finite.
Proof. solve_decision. Defined.

#[global] Instance order_eq_dec : EqDecision Order.t.
Proof. solve_decision. Defined.

Record Store : Type :=
  { crm_customer : list Customer.t;
    crm_product : list Product.t;
    crm_order : list Order.t }.

Definition empty_store : Store :=
  {| crm_customer := []; crm_product := []; crm_order := [] |}.

(** ** Exceptions, outcomes and the request monad *)

Inductive exn : Type :=
  | DoesNotExist
  | ValueError
  | TypeError
  | OverflowError
  | InvalidOperation
  | ValidationError (msg : string)
  | IntegrityError (msg : string)
  | DatabaseError (msg : string).

(** [str(exc)]. Only what an insert or a write raises is ever rendered
    into a payload: the two database errors, with the message of the
    database, and the validation error of a price. *)
Definition str_exc (e : exn) : string :=
  match e with
  | DoesNotExist => "matching query does not exist."
  | ValueError => "invalid literal"
  | TypeError => "invalid argument type"
  | OverflowError => "cannot convert Infinity to integer"
  | InvalidOperation => "[<class 'decimal.InvalidOperation'>]"
  | ValidationError msg => msg
  | IntegrityError msg => msg
  | DatabaseError msg => msg
  end.

Inductive outcome (A : Type) : Type :=
  | Return (a : A)
  | Raise (e : exn).
Arguments Return {A} a.
Arguments Raise {A} e.

(** A computation reads and writes the store and returns or raises. *)
Definition M (A : Type) : Type := Store -> outcome A * Store.

Definition ret {A} (a : A) : M A := fun st => (Return a, st).
Definition raise {A} (e : exn) : M A := fun st => (Raise e, st).

Definition bind {A B} (m : M A) (k : A -> M B) : M B :=
  fun st =>
    match m st with
    | (Return a, st') => k a st'
    | (Raise e, st') => (Raise e, st')
    end.

Notation "'do' x <- m 'in' k" := (bind m (fun x => k))
  (at level 10, x name, m at level 100, k at level 200).

(** [try: m  except ...: h]; the handler decides which exceptions it
    takes and re-raises the others. *)
Definition try_except {A} (m : M A) (h : exn -> M A) : M A :=
  fun st =>
    match m st with
    | (Return a, st') => (Return a, st')
    | (Raise e, st') => h e st'
    end.

(** [with transaction.atomic(): m]: an exception leaving the block rolls
    every write of the block back and goes on propagating. *)
Definition atomic {A} (m : M A) : M A :=
  fun st =>
    match m st with
    | (Return a, st') => (Return a, st')
    | (Raise e, _) => (Raise e, st)
    end.

(** ** The database, the clock and the date parser *)

(** The statements the mutations send. *)
Inductive db_op : Type :=
  | InsertCustomer (row : Customer.t)
  | InsertProduct (row : Product.t)
  | InsertOrder (row : Order.t)
  | SetProducts (order : Z) (keys : gset Z)
  | UpdateTotal (order : Z) (total : Dec.finite).

(** What lies outside the source: [db_fault st op] is the message of the
    error the database raises for [op] in state [st], if it raises one;
    [now] is what [timezone.now()] reads during the request;
    [fromisoformat] is [datetime.fromisoformat], with [None] for the
    exception it raises on a malformed text;
    [decimalfield_converter max_digits decimal_places d] is what a
    column [DecimalField(max_digits, decimal_places)] gives when a row
    is read in which [d] was written, with [None] for the
    [decimal.InvalidOperation] of a number that does not fit: for [d] of
    at most 15 digits it is [Dec.from_db], for a longer one it hangs on
    the digits the float of the database keeps. *)
Class Backend : Type :=
  { db_fault : Store -> db_op -> option string;
    now : datetime;
    fromisoformat : string -> option datetime;
    decimalfield_converter : Z -> Z -> Dec.finite -> option Dec.finite;
    decimalfield_converter_15 :
      forall max_digits decimal_places d,
        (Z.abs (Dec.coef d) < 10 ^ 15)%Z ->
        decimalfield_converter max_digits decimal_places d
        = Dec.from_db max_digits decimal_places d }.

Definition with_products (pk : Z) (keys : gset Z) (o : Order.t) : Order.t :=
  if (Order.id o =? pk)%Z
  then {| Order.id := Order.id o; Order.customer := Order.customer o;
          Order.products := keys; Order.order_date := Order.order_date o;
          Order.total_amount := Order.total_amount o |}
  else o.

Definition with_total (pk : Z) (total : Dec.finite) (o : Order.t) : Order.t :=
  if (Order.id o =? pk)%Z
  then {| Order.id := Order.id o; Order.customer := Order.customer o;
          Order.products := Order.products o; Order.order_date := Order.order_date o;
          Order.total_amount := total |}
  else o.

Definition apply_op (op : db_op) (st : Store) : Store :=
  match op with
  | InsertCustomer row =>
      {| crm_customer := crm_customer st ++ [row];
         crm_product := crm_product st; crm_order := crm_order st |}
  | InsertProduct row =>
      {| crm_customer := crm_customer st;
         crm_product := crm_product st ++ [row]; crm_order := crm_order st |}
  | InsertOrder row =>
      {| crm_customer := crm_customer st;
         crm_product := crm_product st; crm_order := crm_order st ++ [row] |}
  | SetProducts pk keys =>
      {| crm_customer := crm_customer st; crm_product := crm_product st;
         crm_order := with_products pk keys <$> crm_order st |}
  | UpdateTotal pk total =>
      {| crm_customer := crm_customer st; crm_product := crm_product st;
         crm_order := with_total pk total <$> crm_order st |}
  end.

(** The key an auto-increment column gives the next row. *)
Definition next_pk (keys : list Z) : Z := (1 + foldr Z.max 0 keys)%Z.

Section Rows.
Context `{Backend}.

(** A product row as a query returns it: the [price] column is
    [DecimalField(max_digits=10, decimal_places=2)] ([models.py], line
    21), the other columns are read as they were written. *)
Definition Product_from_db (row : Product.t) : outcome Product.t :=
  match decimalfield_converter 10 2 (Product.price row) with
  | Some price =>
      Return {| Product.id := Product.id row; Product.name := Product.name row;
                Product.price := price; Product.stock := Product.stock row |}
  | None => Raise InvalidOperation
  end.

(** The rows of a product queryset, read in their order: the first one
    that cannot be read raises. *)
Fixpoint Product_rows_from_db (rows : list Product.t) : outcome (list Product.t) :=
  match rows with
  | [] => Return []
  | row :: rest =>
      match Product_from_db row with
      | Raise exc => Raise exc
      | Return p =>
          match Product_rows_from_db rest with
          | Raise exc => Raise exc
          | Return ps => Return (p :: ps)
          end
      end
  end.

(** [self.products.all()]: the stored products the order is associated
    with, as they are read. *)
Definition Order_products_all (order : Order.t) (st : Store)
    : outcome (list Product.t) :=
  Product_rows_from_db
    (List.filter (fun p => bool_decide (Product.id p ∈ Order.products order))
       (crm_product st)).

(** [Order.calculate_total], lines 38-41: [sum] starts from the [int] 0,
    which adds to a decimal as the decimal of exponent 0. *)
Definition Order_calculate_total (order : Order.t) (st : Store)
    : outcome Dec.finite :=
  match Order_products_all order st with
  | Return products =>
      Return (fold_left (fun total p => Dec.add total (Product.price p))
                products {| Dec.coef := 0; Dec.expo := 0 |})
  | Raise exc => Raise exc
  end.

End Rows.

Section Managers.
Context `{Backend}.

Definition execute (op : db_op) : M unit :=
  fun st =>
    match db_fault st op with
    | Some msg => (Raise (DatabaseError msg), st)
    | None => (Return tt, apply_op op st)
    end.

(** [Customer.objects.filter(email=email).exists()]; the comparison is
    that of the column, character by character. Like every query of
    the embedding it is answered: the mutations run it outside their
    [try] blocks, and an error of the database there would leave
    [mutate]. *)
Definition Customer_email_exists (email : string) : M bool :=
  fun st =>
    (Return (existsb (fun c => String.eqb (Customer.email c) email)
               (crm_customer st)), st).

(** [Customer.objects.create(name=, email=, phone=)]; the column
    [email] is declared [unique=True]. *)
Definition Customer_objects_create
    (name email : string) (phone : option string) : M Customer.t :=
  do taken <- Customer_email_exists email in
  if (taken : bool)
  then raise (IntegrityError "UNIQUE constraint failed: crm_customer.email")
  else fun st =>
    let row := {| Customer.id := next_pk (Customer.id <$> crm_customer st);
                  Customer.name := name; Customer.email := email;
                  Customer.phone := phone |} in
    (do _ <- execute (InsertCustomer row) in ret row) st.

(** [Product.objects.create(name=, price=, stock=)]: the price is
    written as it is given, and the object handed back carries it as
    it was given; the column converts it when the row is read
    ([Product_from_db]). Preparing Infinity or NaN for the column
    raises a [ValidationError]; of its text the quoted value, set in
    typographic quotes, is left out. *)
Definition Product_objects_create
    (name : string) (price : Dec.Decimal) (stock : Z) : M Product.t :=
  match price with
  | Dec.Fin d => fun st =>
      let row := {| Product.id := next_pk (Product.id <$> crm_product st);
                    Product.name := name; Product.price := d;
                    Product.stock := stock |} in
      (do _ <- execute (InsertProduct row) in ret row) st
  | _ => raise (ValidationError "['value must be a decimal number.']")
  end.

(** [Model.objects.get(pk=pk)] for a key given as a GraphQL [ID]: a
    text that is not an [int] literal raises [ValueError], a key
    without a row raises [DoesNotExist]; the row of a product is
    converted as it is read, which raises [InvalidOperation] when its
    price does not fit the column. *)
Definition Customer_objects_get (pk : string) : M Customer.t :=
  match Py.int_of_str pk with
  | None => raise ValueError
  | Some k => fun st =>
      match find (fun c => (Customer.id c =? k)%Z) (crm_customer st) with
      | Some c => (Return c, st)
      | None => (Raise DoesNotExist, st)
      end
  end.

Definition Product_objects_get (pk : string) : M Product.t :=
  match Py.int_of_str pk with
  | None => raise ValueError
  | Some k => fun st =>
      match find (fun p => (Product.id p =? k)%Z) (crm_product st) with
      | Some row => (Product_from_db row, st)
      | None => (Raise DoesNotExist, st)
      end
  end.

(** [Order.objects.create(customer=, order_date=)]: no product yet, and
    [total_amount] at its default [0.00]. *)
Definition Order_objects_create
    (customer : Customer.t) (order_date : datetime) : M Order.t :=
  fun st =>
    let row := {| Order.id := next_pk (Order.id <$> crm_order st);
                  Order.customer := Customer.id customer;
                  Order.products := ∅; Order.order_date := order_date;
                  Order.total_amount := Dec.zero2 |} in
    (do _ <- execute (InsertOrder row) in ret row) st.

(** [order.products.set(products)]: the relation of [order] becomes the
    set of the keys of [products]. *)
Definition Order_products_set (order : Order.t) (products : list Product.t)
    : M Order.t :=
  let keys : gset Z := list_to_set (Product.id <$> products) in
  do _ <- execute (SetProducts (Order.id order) keys) in
  ret (with_products (Order.id order) keys order).

(** [order.total_amount = total; order.save(...)] *)
Definition Order_save_total (order : Order.t) (total : Dec.finite) : M Order.t :=
  do _ <- execute (UpdateTotal (Order.id order) total) in
  ret (with_total (Order.id order) total order).

End Managers.

(** ** Inputs and payloads of the mutations *)

(** The fields declared [required=True] are never null when [mutate]
    runs, so [input.name or ""] is [input.name]; [phone], [stock] and
    [order_date] may be absent. The GraphQL [Float] of a price is kept as
    the text [str(input.price)], which is all the mutation reads of it.
    A GraphQL [ID] is a text. *)
Module CreateCustomerInput.
Record t : Type := { name : string; email : string; phone : option string }.
End CreateCustomerInput.

(** [OneCustomerInput] has the same three fields. *)
Module OneCustomerInput := CreateCustomerInput.

Module CreateProductInput.
Record t : Type := { name : string; price : string; stock : option Z }.
End CreateProductInput.

Module CreateOrderInput.
Record t : Type :=
  { customer_id : string; product_ids : list string; order_date : option string }.
End CreateOrderInput.

Module CreateCustomerPayload.
Record t : Type :=
  { customer : option Customer.t; success : bool;
    message : string; errors : list string }.
End CreateCustomerPayload.

Module BulkCreateCustomersPayload.
Record t : Type := { customers : list Customer.t; errors : list string }.
End BulkCreateCustomersPayload.

Module CreateProductPayload.
Record t : Type :=
  { product : option Product.t; success : bool;
    message : string; errors : list string }.
End CreateProductPayload.

Module CreateOrderPayload.
Record t : Type :=
  { order : option Order.t; success : bool;
    message : string; errors : list string }.
End CreateOrderPayload.

(** Truth value of an optional [str]: [None] and the empty string are
    false. *)
Definition opt_truthy (s : option string) : bool :=
  match s with
  | Some t => Py.truthy t
  | None => false
  end.

(** [input.phone.strip() if input.phone else None] *)
Definition clean_phone (phone : option string) : option string :=
  if opt_truthy phone then Py.strip <$> phone else None.

(** [Decimal <= 0]; [None] stands for the [InvalidOperation] a
    comparison with NaN raises. *)
Definition le_zero (d : Dec.Decimal) : option bool :=
  match d with
  | Dec.Fin f => Some (Dec.coef f <=? 0)%Z
  | Dec.Inf negative => Some negative
  | Dec.NaN => None
  end.

(** [l.append(x)] *)
Definition list_append {A} (l : list A) (x : A) : list A := (l ++ [x])%list.

(** [total = Decimal("0.00"); for p in products: total += p.price] *)
Definition sum_prices (products : list Product.t) : Dec.finite :=
  fold_left (fun total p => Dec.add total (Product.price p)) products Dec.zero2.

(** ** The revised mutations ([old-schema3.py]) *)

Module OldSchema3.
Section Mutations.
Context `{Backend}.

(** [CreateCustomer.mutate], lines 74-100 *)
Definition CreateCustomer_mutate (input : CreateCustomerInput.t)
    : M CreateCustomerPayload.t :=
  let name := Py.strip (CreateCustomerInput.name input) in
  let email := Py.lower (Py.strip (CreateCustomerInput.email input)) in
  let phone := clean_phone (CreateCustomerInput.phone input) in
  let errors : list string := [] in
  let errors :=
    if negb (Py.truthy name) then list_append errors "Name is required." else errors in
  let errors :=
    if negb (Py.truthy email) then list_append errors "Email is required." else errors in
  let errors :=
    if opt_truthy phone && negb (is_valid_phone phone)
    then list_append errors "Phone format invalid. Expected +1234567890 or 123-456-7890."
    else errors in
  match errors with
  | _ :: _ =>
      ret {| CreateCustomerPayload.customer := None;
             CreateCustomerPayload.success := false;
             CreateCustomerPayload.message := "Validation failed.";
             CreateCustomerPayload.errors := errors |}
  | [] =>
      do taken <- Customer_email_exists email in
      if (taken : bool) then
        ret {| CreateCustomerPayload.customer := None;
               CreateCustomerPayload.success := false;
               CreateCustomerPayload.message := "Email already exists.";
               CreateCustomerPayload.errors := ["Email already exists."] |}
      else
        try_except
          (do customer <- Customer_objects_create name email phone in
           ret {| CreateCustomerPayload.customer := Some customer;
                  CreateCustomerPayload.success := true;
                  CreateCustomerPayload.message := "Customer created.";
                  CreateCustomerPayload.errors := [] |})
          (fun exc =>
           ret {| CreateCustomerPayload.customer := None;
                  CreateCustomerPayload.success := false;
                  CreateCustomerPayload.message := "Error creating customer.";
                  CreateCustomerPayload.errors := [str_exc exc] |})
  end.

(** One round of the loop of [BulkCreateCustomers.mutate], lines
    126-148, on the two accumulators [created] and [errors]; [idx] is
    the position [enumerate(input, start=1)] gives the record. *)
Definition bulk_step (idx : nat) (rec : OneCustomerInput.t)
    (created : list Customer.t) (errors : list string)
    : M (list Customer.t * list string) :=
  let name := Py.strip (OneCustomerInput.name rec) in
  let email := Py.lower (Py.strip (OneCustomerInput.email rec)) in
  let phone := clean_phone (OneCustomerInput.phone rec) in
  let tag := "Record " ++ Py.str_of_nat idx in
  if negb (Py.truthy name) then
    ret (created, list_append errors (tag ++ ": name is required."))
  else if negb (Py.truthy email) then
    ret (created, list_append errors (tag ++ ": email is required."))
  else if opt_truthy phone && negb (is_valid_phone phone) then
    ret (created, list_append errors (tag ++ " (" ++ email ++ "): invalid phone format."))
  else
    do taken <- Customer_email_exists email in
    if (taken : bool) then
      ret (created, list_append errors (tag ++ " (" ++ email ++ "): email already exists."))
    else
      try_except
        (do cust <- Customer_objects_create name email phone in
         ret (list_append created cust, errors))
        (fun exc =>
         ret (created,
              (list_append errors (tag ++ " (" ++ email ++ "): unexpected error: "
                         ++ str_exc exc)))).

Fixpoint bulk_loop (idx : nat) (input : list OneCustomerInput.t)
    (created : list Customer.t) (errors : list string)
    : M (list Customer.t * list string) :=
  match input with
  | [] => ret (created, errors)
  | rec :: rest =>
      do acc <- bulk_step idx rec created errors in
      bulk_loop (S idx) rest (fst acc) (snd acc)
  end.

(** [BulkCreateCustomers.mutate], lines 119-150 *)
Definition BulkCreateCustomers_mutate (input : list OneCustomerInput.t)
    : M BulkCreateCustomersPayload.t :=
  do acc <- bulk_loop 1 input [] [] in
  ret {| BulkCreateCustomersPayload.customers := fst acc;
         BulkCreateCustomersPayload.errors := snd acc |}.

Definition product_failure (message : string) : CreateProductPayload.t :=
  {| CreateProductPayload.product := None;
     CreateProductPayload.success := false;
     CreateProductPayload.message := message;
     CreateProductPayload.errors := [message] |}.

(** [CreateProduct.mutate], lines 171-191 *)
Definition CreateProduct_mutate (input : CreateProductInput.t)
    : M CreateProductPayload.t :=
  let name := Py.strip (CreateProductInput.name input) in
  let stock := default 0%Z (CreateProductInput.stock input) in
  match Dec.of_str (CreateProductInput.price input) with
  | None =>
      ret {| CreateProductPayload.product := None;
             CreateProductPayload.success := false;
             CreateProductPayload.message := "Invalid price.";
             CreateProductPayload.errors := ["Price must be a number."] |}
  | Some price =>
      match le_zero price with
      | None => raise InvalidOperation
      | Some true => ret (product_failure "Price must be positive.")
      | Some false =>
          if (stock <? 0)%Z then ret (product_failure "Stock cannot be negative.")
          else
            try_except
              (do product <- Product_objects_create name price stock in
               ret {| CreateProductPayload.product := Some product;
                      CreateProductPayload.success := true;
                      CreateProductPayload.message := "Product created.";
                      CreateProductPayload.errors := [] |})
              (fun exc =>
               ret {| CreateProductPayload.product := None;
                      CreateProductPayload.success := false;
                      CreateProductPayload.message := "Error creating product.";
                      CreateProductPayload.errors := [str_exc exc] |})
      end
  end.

Definition order_failure (message : string) (errors : list string)
    : CreateOrderPayload.t :=
  {| CreateOrderPayload.order := None;
     CreateOrderPayload.success := false;
     CreateOrderPayload.message := message;
     CreateOrderPayload.errors := errors |}.

(** The loop of lines 227-232 on [products] and [invalid_ids]. *)
Fixpoint resolve_products (product_ids : list string)
    (products : list Product.t) (invalid_ids : list string)
    : M (list Product.t * list string) :=
  match product_ids with
  | [] => ret (products, invalid_ids)
  | pid :: rest =>
      do acc <-
        try_except
          (do p <- Product_objects_get pid in ret (list_append products p, invalid_ids))
          (fun exc =>
           match exc with
           | DoesNotExist | ValueError => ret (products, list_append invalid_ids pid)
           | _ => raise exc
           end) in
      resolve_products rest (fst acc) (snd acc)
  end.

(** Lines 240-245: the optional timestamp, [None] when it is absent,
    empty or malformed. *)
Definition parse_order_date (order_date : option string) : option datetime :=
  if opt_truthy order_date then order_date ≫= fromisoformat else None.

(** [CreateOrder.mutate], lines 212-263 *)
Definition CreateOrder_mutate (input : CreateOrderInput.t)
    : M CreateOrderPayload.t :=
  do found <-
    try_except
      (do customer <- Customer_objects_get (CreateOrderInput.customer_id input) in
       ret (inl customer))
      (fun exc =>
       match exc with
       | DoesNotExist | ValueError =>
           ret (inr (order_failure "Invalid customer ID." ["Invalid customer ID."]))
       | _ => raise exc
       end) in
  match found with
  | inr payload => ret payload
  | inl customer =>
      match CreateOrderInput.product_ids input with
      | [] =>
          ret (order_failure "At least one product must be provided."
                 ["At least one product must be provided."])
      | product_ids =>
          do acc <- resolve_products product_ids [] [] in
          let products := fst acc in
          match snd acc with
          | (_ :: _) as invalid_ids =>
              ret (order_failure "Invalid product IDs provided."
                     ["Invalid product IDs: " ++ Py.join ", " invalid_ids])
          | [] =>
              try_except
                (do order <-
                   atomic
                     (let order_date :=
                        parse_order_date (CreateOrderInput.order_date input) in
                      do order <-
                        Order_objects_create customer (default now order_date) in
                      do order <- Order_products_set order products in
                      let total := sum_prices products in
                      Order_save_total order total) in
                 ret {| CreateOrderPayload.order := Some order;
                        CreateOrderPayload.success := true;
                        CreateOrderPayload.message := "Order created.";
                        CreateOrderPayload.errors := [] |})
                (fun exc =>
                 ret (order_failure "Error creating order." [str_exc exc]))
          end
      end
  end.

(** The resolvers of [Query], lines 285-293. *)
Definition Query_resolve_all_customers : M (list Customer.t) :=
fun st => (Return (crm_customer st), st).

Definition Query_resolve_all_products : M (list Product.t) :=
fun st => (Return (crm_product st), st).

Definition Query_resolve_all_orders : M (list Order.t) :=
fun st => (Return (crm_order st), st).

End Mutations.
End OldSchema3.

(** ** The earliest mutations ([old-schema.py]) *)

Module OldSchema.

(** The payloads of [CreateCustomer] and [CreateProduct] have no
  [errors] field in this variant. *)
Module CreateCustomerPayload.
Record t : Type :=
  { customer : option Customer.t; success : bool; message : string }.
End CreateCustomerPayload.

Module CreateProductPayload.
Record t : Type :=
  { product : option Product.t; success : bool; message : string }.
End CreateProductPayload.

Section Mutations.
Context `{Backend}.

(** [CreateCustomer.mutate], lines 70-93; the insert is not guarded. *)
Definition CreateCustomer_mutate (input : CreateCustomerInput.t)
    : M CreateCustomerPayload.t :=
  let name := Py.strip (CreateCustomerInput.name input) in
  let email := Py.lower (Py.strip (CreateCustomerInput.email input)) in
  let phone := clean_phone (CreateCustomerInput.phone input) in
  if negb (validate_phone phone) then
    ret {| CreateCustomerPayload.customer := None;
           CreateCustomerPayload.success := false;
           CreateCustomerPayload.message :=
             "Invalid phone format. Use +1234567890 or 123-456-7890." |}
  else
    do taken <- Customer_email_exists email in
    if (taken : bool) then
      ret {| CreateCustomerPayload.customer := None;
             CreateCustomerPayload.success := false;
             CreateCustomerPayload.message := "Email already exists." |}
    else
      do customer <- Customer_objects_create name email phone in
      ret {| CreateCustomerPayload.customer := Some customer;
             CreateCustomerPayload.success := true;
             CreateCustomerPayload.message := "Customer created." |}.

(** One round of the loop of [BulkCreateCustomers.mutate], lines
    121-146. *)
Definition bulk_step (idx : nat) (c : OneCustomerInput.t)
    (created : list Customer.t) (errors : list string)
    : M (list Customer.t * list string) :=
  let name := Py.strip (OneCustomerInput.name c) in
  let email := Py.lower (Py.strip (OneCustomerInput.email c)) in
  let phone := clean_phone (OneCustomerInput.phone c) in
  let tag := "Record " ++ Py.str_of_nat idx in
  if negb (Py.truthy name) then
    ret (created, list_append errors (tag ++ ": name is required."))
  else if negb (Py.truthy email) then
    ret (created, list_append errors (tag ++ ": email is required."))
  else if negb (validate_phone phone) then
    ret (created,
         list_append errors (tag ++ ": invalid phone format for email " ++ email ++ "."))
  else
    do taken <- Customer_email_exists email in
    if (taken : bool) then
      ret (created, list_append errors (tag ++ ": email " ++ email ++ " already exists."))
    else
      try_except
        (do cust <- Customer_objects_create name email phone in
         ret (list_append created cust, errors))
        (fun exc =>
         ret (created,
              list_append errors (tag ++ ": unexpected error creating " ++ email
                             ++ ": " ++ str_exc exc))).

Fixpoint bulk_loop (idx : nat) (input : list OneCustomerInput.t)
    (created : list Customer.t) (errors : list string)
    : M (list Customer.t * list string) :=
  match input with
  | [] => ret (created, errors)
  | c :: rest =>
      do acc <- bulk_step idx c created errors in
      bulk_loop (S idx) rest (fst acc) (snd acc)
  end.

(** [BulkCreateCustomers.mutate], lines 114-148 *)
Definition BulkCreateCustomers_mutate (input : list OneCustomerInput.t)
    : M BulkCreateCustomersPayload.t :=
  do acc <- bulk_loop 1 input [] [] in
  ret {| BulkCreateCustomersPayload.customers := fst acc;
         BulkCreateCustomersPayload.errors := snd acc |}.

Definition product_failure (message : string) : CreateProductPayload.t :=
  {| CreateProductPayload.product := None;
     CreateProductPayload.success := false;
     CreateProductPayload.message := message |}.

(** [CreateProduct.mutate], lines 170-182; neither the conversion of
    the price nor the insert is guarded. *)
Definition CreateProduct_mutate (input : CreateProductInput.t)
    : M CreateProductPayload.t :=
  let name := Py.strip (CreateProductInput.name input) in
  match Dec.of_str (CreateProductInput.price input) with
  | None => raise InvalidOperation
  | Some price =>
      let stock := default 0%Z (CreateProductInput.stock input) in
      match le_zero price with
      | None => raise InvalidOperation
      | Some true => ret (product_failure "Price must be positive.")
      | Some false =>
          if (stock <? 0)%Z then ret (product_failure "Stock cannot be negative.")
          else
            do product <- Product_objects_create name price stock in
            ret {| CreateProductPayload.product := Some product;
                   CreateProductPayload.success := true;
                   CreateProductPayload.message := "Product created." |}
      end
  end.

Definition order_failure (message : string) (errors : list string)
    : CreateOrderPayload.t :=
  {| CreateOrderPayload.order := None;
     CreateOrderPayload.success := false;
     CreateOrderPayload.message := message;
     CreateOrderPayload.errors := errors |}.

(** The loop of lines 221-226 on [products] and [errors]. *)
Fixpoint resolve_products (product_ids : list string)
    (products : list Product.t) (errors : list string)
    : M (list Product.t * list string) :=
  match product_ids with
  | [] => ret (products, errors)
  | pid :: rest =>
      do acc <-
        try_except
          (do p <- Product_objects_get pid in ret (list_append products p, errors))
          (fun exc =>
           match exc with
           | DoesNotExist | ValueError =>
               ret (products, list_append errors ("Invalid product ID: " ++ pid))
           | _ => raise exc
           end) in
      resolve_products rest (fst acc) (snd acc)
  end.

(** [CreateOrder.mutate], lines 205-246; [order_date] is left to its
    default, [timezone.now]. *)
Definition CreateOrder_mutate (input : CreateOrderInput.t)
    : M CreateOrderPayload.t :=
  let errors : list string := [] in
  do found <-
    try_except
      (do customer <- Customer_objects_get (CreateOrderInput.customer_id input) in
       ret (inl customer))
      (fun exc =>
       match exc with
       | DoesNotExist | ValueError =>
           ret (inr (order_failure "Invalid customer ID." ["Invalid customer ID."]))
       | _ => raise exc
       end) in
  match found with
  | inr payload => ret payload
  | inl customer =>
      match CreateOrderInput.product_ids input with
      | [] =>
          ret (order_failure "At least one product must be selected."
                 ["At least one product is required."])
      | product_ids =>
          do acc <- resolve_products product_ids [] errors in
          let products := fst acc in
          match snd acc with
          | (_ :: _) as errors =>
              ret (order_failure "One or more product IDs are invalid." errors)
          | [] =>
              try_except
                (do order <-
                   atomic
                     (do order <- Order_objects_create customer now in
                      do order <- Order_products_set order products in
                      let total := sum_prices products in
                      Order_save_total order total) in
                 ret {| CreateOrderPayload.order := Some order;
                        CreateOrderPayload.success := true;
                        CreateOrderPayload.message := "Order created.";
                        CreateOrderPayload.errors := [] |})
                (fun exc =>
                 ret (order_failure ("Error creating order: " ++ str_exc exc)
                        [str_exc exc]))
          end
      end
  end.

(** The resolvers of [Query], lines 266-273. *)
Definition Query_resolve_customers : M (list Customer.t) :=
fun st => (Return (crm_customer st), st).

Definition Query_resolve_products : M (list Product.t) :=
fun st => (Return (crm_product st), st).

Definition Query_resolve_orders : M (list Order.t) :=
fun st => (Return (crm_order st), st).

End Mutations.
End OldSchema.

(** ** The product filter ([filters.py]) *)

Module Filters.

(** The values a filter method can be handed. *)
Inductive value : Type :=
| PyNone
| PyStr (s : string)
| PyInt (n : Z)
| PyDecimal (d : Dec.Decimal).

(** [int(value)] *)
Definition int (v : value) : outcome Z :=
match v with
| PyNone => Raise TypeError
| PyStr s =>
    match Py.int_of_str s with
    | Some n => Return n
    | None => Raise ValueError
    end
| PyInt n => Return n
| PyDecimal (Dec.Fin d) => Return (Dec.trunc d)
| PyDecimal (Dec.Inf _) => Raise OverflowError
| PyDecimal Dec.NaN => Raise ValueError
end.

(** [queryset.filter(stock__lt=threshold)] *)
Definition stock__lt (threshold : Z) (queryset : list Product.t) : list Product.t :=
List.filter (fun p => (Product.stock p <? threshold)%Z) queryset.

(** [ProductFilter.filter_low_stock], lines 67-72 *)
Definition filter_low_stock (queryset : list Product.t) (name : string) (v : value)
  : outcome (list Product.t) :=
match int v with
| Return threshold => Return (stock__lt threshold queryset)
| Raise TypeError | Raise ValueError => Return queryset
| Raise exc => Raise exc
end.

(** [queryset.filter(phone__startswith=value)] and
  [queryset.filter(phone__icontains=value)]: a customer without a phone
  matches neither. On SQLite both are a [LIKE], with the wildcards of
  the value escaped, which ignores the case of the letters A-Z. *)
Definition phone__startswith (value : string) (queryset : list Customer.t)
  : list Customer.t :=
List.filter
  (fun c => match Customer.phone c with
            | Some phone => Py.startswith (Py.like_fold phone) (Py.like_fold value)
            | None => false
            end) queryset.

Definition phone__icontains (value : string) (queryset : list Customer.t)
  : list Customer.t :=
List.filter
  (fun c => match Customer.phone c with
            | Some phone => Py.contains (Py.like_fold phone) (Py.like_fold value)
            | None => false
            end) queryset.

(** [CustomerFilter.filter_phone_pattern], lines 30-42 *)
Definition filter_phone_pattern (queryset : list Customer.t) (name : string)
  (v : option string) : list Customer.t :=
match v with
| None | Some "" => queryset
| Some (String c _ as value) =>
    if Py.startswith value "+" || Py.str_isdigit c
    then phone__startswith value queryset
    else phone__icontains value queryset
end.

(** [queryset.filter(products__id=k)]: the orders associated with the
  product of key [k]. *)
Definition products__id (k : Z) (queryset : list Order.t) : list Order.t :=
List.filter (fun o => bool_decide (k ∈ Order.products o)) queryset.

(** [queryset.distinct()]: each row once; which of several equal rows is
  kept makes no difference. *)
Definition distinct (queryset : list Order.t) : list Order.t :=
remove_dups queryset.

(** [OrderFilter.filter_by_product_id], lines 99-103; the key column
  takes [int(value)], and what [int] raises is not caught. *)
Definition filter_by_product_id (queryset : list Order.t) (name : string) (v : value)
  : outcome (list Order.t) :=
match v with
| PyNone => Return queryset
| _ =>
    match int v with
    | Return k => Return (distinct (products__id k queryset))
    | Raise exc => Raise exc
    end
end.

End Filters.

(** ** The vocabulary of the statements *)

(** [r] has a match that starts at [p]. *)
Definition accepts (r : regex) (p : pos) : Prop := exists q, In q (run r p).

(** The text made of one newline. *)
Definition nl : string := String newline "".

(** The sum of the numbers the prices of [products] denote. *)
Definition sum_values (products : list Product.t) : Q :=
  foldr (fun p acc => (Dec.value (Product.price p) + acc)%Q) 0%Q products.

(** The sum of the coefficients of the prices of [products]. *)
Definition sum_coefs (products : list Product.t) : Z :=
  foldr (fun p acc => (Dec.coef (Product.price p) + acc)%Z) 0%Z products.

(** The stored customer, or product, a GraphQL [ID] refers to, if any:
    the text has to be an [int] literal and the key has to be that of a
    row. *)
Definition lookup_customer (st : Store) (pk : string) : option Customer.t :=
  Py.int_of_str pk ≫= fun k => find (fun c => (Customer.id c =? k)%Z) (crm_customer st).

Definition stored_product (st : Store) (pk : string) : option Product.t :=
  Py.int_of_str pk ≫= fun k => find (fun p => (Product.id p =? k)%Z) (crm_product st).

(** The product a reference resolves to: the row it refers to as it is
    read, when there is one and it can be read. *)
Definition lookup_product `{Backend} (st : Store) (pk : string) : option Product.t :=
  stored_product st pk ≫= fun row =>
    match Product_from_db row with
    | Return p => Some p
    | Raise _ => None
    end.

(** The reference has a row, and the row cannot be read. *)
Definition unreadable `{Backend} (st : Store) (pk : string) : bool :=
  match stored_product st pk with
  | Some row =>
      match Product_from_db row with
      | Return _ => false
      | Raise _ => true
      end
  | None => false
  end.

(** The products the references of [product_ids] resolve to, and the
    references that resolve to none, both in the order of the input. *)
Definition resolved `{Backend} (st : Store) (product_ids : list string) : list Product.t :=
  omap (lookup_product st) product_ids.

Definition is_unresolved `{Backend} (st : Store) (pid : string) : bool :=
  match lookup_product st pid with
  | None => true
  | Some _ => false
  end.

Definition unresolved `{Backend} (st : Store) (product_ids : list string) : list string :=
  List.filter (is_unresolved st) product_ids.

(** The entry the earliest variant reports for one reference. *)
Definition invalid_product_error (pid : string) : string :=
  "Invalid product ID: " ++ pid.

(** The order a successful creation adds to [st]. *)
Definition new_order (st : Store) (customer : Customer.t) (date : datetime)
    (products : list Product.t) : Order.t :=
  {| Order.id := next_pk (Order.id <$> crm_order st);
     Order.customer := Customer.id customer;
     Order.products := list_to_set (Product.id <$> products);
     Order.order_date := date;
     Order.total_amount := sum_prices products |}.

(** The database accepts every write. *)
Definition never_faults `{Backend} : Prop := forall st op, db_fault st op = None.

(** Lines 246-258 of the revised [CreateOrder.mutate] (234-242 of the
    earliest one): the three writes of the transaction. *)
Definition place_order `{Backend} (customer : Customer.t) (date : datetime)
    (products : list Product.t) : M Order.t :=
  do order <- Order_objects_create customer date in
  do order <- Order_products_set order products in
  Order_save_total order (sum_prices products).

(** Reduces the projections of an order record that is given in full. *)
Ltac order_fields :=
  repeat (progress
    (cbn [Order.id Order.customer Order.products Order.order_date Order.total_amount];
     rewrite ?Z.eqb_refl)).

(** The payload of a successful order creation. *)
Definition order_created (order : Order.t) : CreateOrderPayload.t :=
  {| CreateOrderPayload.order := Some order;
     CreateOrderPayload.success := true;
     CreateOrderPayload.message := "Order created.";
     CreateOrderPayload.errors := [] |}.



(** A run that ended in a failure payload did not succeed. *)
Ltac failed Hrun Hok :=
  cbn in Hrun; inversion Hrun; subst; cbn in Hok; discriminate Hok.

(** A database that accepts every write and reads every decimal as
    [Dec.from_db] has it, a clock and a parser that knows one timestamp;
    a store with one customer and two products priced 10.00 and 5.25. *)
Definition example_backend : Backend :=
  {| db_fault := fun _ _ => None;
     now := 1718000000%Z;
     fromisoformat := fun s =>
       if String.eqb s "2024-05-01T10:00:00" then Some 1714557600%Z else None;
     decimalfield_converter := Dec.from_db;
     decimalfield_converter_15 := fun _ _ _ _ => eq_refl |}.

Definition example_store : Store :=
  {| crm_customer :=
       [ {| Customer.id := 1; Customer.name := "Ada";
            Customer.email := "ada@x.com"; Customer.phone := None |} ];
     crm_product :=
       [ {| Product.id := 1; Product.name := "Pen";
            Product.price := {| Dec.coef := 1000; Dec.expo := -2 |};
            Product.stock := 3 |};
         {| Product.id := 2; Product.name := "Ink";
            Product.price := {| Dec.coef := 525; Dec.expo := -2 |};
            Product.stock := 0 |} ];
     crm_order := [] |}.

(** An order of both products, and the row it becomes: total 15.25. *)
Definition example_order_input : CreateOrderInput.t :=
  {| CreateOrderInput.customer_id := "1";
     CreateOrderInput.product_ids := ["1"; "2"];
     CreateOrderInput.order_date := None |}.

Definition example_order : Order.t :=
  {| Order.id := 1; Order.customer := 1; Order.products := {[ 1%Z; 2%Z ]};
     Order.order_date := 1718000000%Z;
     Order.total_amount := {| Dec.coef := 1525; Dec.expo := -2 |} |}.

(** The error list [errors] reports the reference [pid]: one of its
    entries quotes it. *)
Definition reports (errors : list string) (pid : string) : Prop :=
  exists e, e ∈ errors /\ Py.contains e pid = true.

(** Every reference of [product_ids] that does not resolve is reported. *)
Definition reports_all_unresolved `{Backend} (st : Store)
    (product_ids errors : list string) : Prop :=
  forall pid, pid ∈ product_ids -> lookup_product st pid = None -> reports errors pid.

(** The single entry the revised variant reports. *)
Definition invalid_ids_error (invalid_ids : list string) : string :=
  "Invalid product IDs: " ++ Py.join ", " invalid_ids.

(** The same input with no timestamp. *)
Definition without_order_date (input : CreateOrderInput.t) : CreateOrderInput.t :=
  {| CreateOrderInput.customer_id := CreateOrderInput.customer_id input;
     CreateOrderInput.product_ids := CreateOrderInput.product_ids input;
     CreateOrderInput.order_date := None |}.

(** An order for a customer that is not stored, naming a product that is
    not stored either; an order with a timestamp that is no date. *)
Definition stray_order_input : CreateOrderInput.t :=
  {| CreateOrderInput.customer_id := "9";
     CreateOrderInput.product_ids := ["1"; "7"];
     CreateOrderInput.order_date := None |}.

Definition undated_order_input : CreateOrderInput.t :=
  {| CreateOrderInput.customer_id := "1";
     CreateOrderInput.product_ids := ["1"; "2"];
     CreateOrderInput.order_date := Some "next tuesday" |}.

(** A product whose price, 100000000.0, has too many digits for the
    column; the example store with that product under the key 3; an
    order that refers to it and to a product that is not stored. *)
Definition costly_pencil : Product.t :=
  {| Product.id := 3; Product.name := "Pencil";
     Product.price := {| Dec.coef := 1000000000; Dec.expo := -1 |};
     Product.stock := 3 |}.

Definition costly_store : Store := apply_op (InsertProduct costly_pencil) example_store.

Definition costly_order_input : CreateOrderInput.t :=
  {| CreateOrderInput.customer_id := "1";
     CreateOrderInput.product_ids := ["3"; "7"];
     CreateOrderInput.order_date := None |}.

(** Is [email] the email of a stored customer? *)
Definition email_taken (st : Store) (email : string) : bool :=
  existsb (fun c => String.eqb (Customer.email c) email) (crm_customer st).

(** The row an insert of a customer adds to [st]. *)
Definition new_customer (st : Store) (name email : string) (phone : option string)
    : Customer.t :=
  {| Customer.id := next_pk (Customer.id <$> crm_customer st);
     Customer.name := name; Customer.email := email; Customer.phone := phone |}.

(** The cleaned fields of a customer input. *)
Definition clean_name (input : CreateCustomerInput.t) : string :=
  Py.strip (CreateCustomerInput.name input).

Definition clean_email (input : CreateCustomerInput.t) : string :=
  Py.lower (Py.strip (CreateCustomerInput.email input)).

(** The phone of the input is present, not blank and not accepted by the
    validator. *)
Definition phone_rejected (input : CreateCustomerInput.t) : bool :=
  let phone := clean_phone (CreateCustomerInput.phone input) in
  opt_truthy phone && negb (is_valid_phone phone).

Definition name_error : string := "Name is required.".
Definition email_error : string := "Email is required.".
Definition phone_error : string :=
  "Phone format invalid. Expected +1234567890 or 123-456-7890.".

(** One entry for each violated field rule, in the order name, email,
    phone. *)
Definition field_errors (input : CreateCustomerInput.t) : list string :=
  ((if Py.truthy (clean_name input) then [] else [name_error])
   ++ (if Py.truthy (clean_email input) then [] else [email_error])
   ++ (if phone_rejected input then [phone_error] else []))%list.

(** Every stored email is in lower case, as the mutations store it. *)
Definition stored_lowercase (st : Store) : Prop :=
  forall c, c ∈ crm_customer st -> Py.lower (Customer.email c) = Customer.email c.

(** A stored customer has the email of the input, up to case and
    surrounding white space. *)
Definition email_known (st : Store) (input : CreateCustomerInput.t) : Prop :=
  exists c, c ∈ crm_customer st /\ Py.lower (Customer.email c) = clean_email input.

(** An input that violates the three field rules at once; an input with
    a stored email in another case, alone and with a rejected phone. *)
Definition blank_customer_input : CreateCustomerInput.t :=
  {| CreateCustomerInput.name := "  ";
     CreateCustomerInput.email := " ";
     CreateCustomerInput.phone := Some "abc" |}.

Definition repeated_customer_input : CreateCustomerInput.t :=
  {| CreateCustomerInput.name := "Bob";
     CreateCustomerInput.email := " Ada@X.com ";
     CreateCustomerInput.phone := None |}.

Definition repeated_bad_phone_input : CreateCustomerInput.t :=
  {| CreateCustomerInput.name := "Bob";
     CreateCustomerInput.email := " Ada@X.com ";
     CreateCustomerInput.phone := Some "abc" |}.

(** Why a record of a bulk creation is refused. *)
Inductive violation : Type :=
  | MissingName
  | MissingEmail
  | InvalidPhone
  | DuplicateEmail
  | PersistenceError (msg : string).

(** The row a record becomes when it is stored in [st]. *)
Definition record_row (rec : OneCustomerInput.t) (st : Store) : Customer.t :=
  new_customer st (clean_name rec) (clean_email rec)
    (clean_phone (OneCustomerInput.phone rec)).

(** The first violation of a record against the store [st], the checks
    being made in the order name, email, phone, duplicate, persistence;
    [None] when the record is stored. *)
Definition first_violation `{Backend} (rec : OneCustomerInput.t) (st : Store)
    : option violation :=
  if negb (Py.truthy (clean_name rec)) then Some MissingName
  else if negb (Py.truthy (clean_email rec)) then Some MissingEmail
  else if phone_rejected rec then Some InvalidPhone
  else if email_taken st (clean_email rec) then Some DuplicateEmail
  else PersistenceError <$> db_fault st (InsertCustomer (record_row rec st)).

(** [Record idx], the tag of every error of a bulk creation. *)
Definition record_tag (idx : nat) : string := "Record " ++ Py.str_of_nat idx.

(** The wording of the errors in the revised and in the earliest
    variant. *)
Definition bulk_message3 (idx : nat) (email : string) (v : violation) : string :=
  match v with
  | MissingName => record_tag idx ++ ": name is required."
  | MissingEmail => record_tag idx ++ ": email is required."
  | InvalidPhone => record_tag idx ++ " (" ++ email ++ "): invalid phone format."
  | DuplicateEmail => record_tag idx ++ " (" ++ email ++ "): email already exists."
  | PersistenceError msg =>
      record_tag idx ++ " (" ++ email ++ "): unexpected error: " ++ msg
  end.

Definition bulk_message1 (idx : nat) (email : string) (v : violation) : string :=
  match v with
  | MissingName => record_tag idx ++ ": name is required."
  | MissingEmail => record_tag idx ++ ": email is required."
  | InvalidPhone => record_tag idx ++ ": invalid phone format for email " ++ email ++ "."
  | DuplicateEmail => record_tag idx ++ ": email " ++ email ++ " already exists."
  | PersistenceError msg =>
      record_tag idx ++ ": unexpected error creating " ++ email ++ ": " ++ msg
  end.

(** The loop of a bulk creation over any body [step]. *)
Fixpoint loop_with
    (step : nat -> OneCustomerInput.t -> list Customer.t -> list string ->
            M (list Customer.t * list string))
    (idx : nat) (input : list OneCustomerInput.t)
    (created : list Customer.t) (errors : list string)
    : M (list Customer.t * list string) :=
  match input with
  | [] => ret (created, errors)
  | rec :: rest =>
      do acc <- step idx rec created errors in
      loop_with step (S idx) rest (fst acc) (snd acc)
  end.

(** Record by record: what a bulk creation creates, what it reports and
    the store it leaves, for a given wording of the errors. *)
Fixpoint bulk_outcome `{Backend} (message : nat -> string -> violation -> string)
    (idx : nat) (input : list OneCustomerInput.t) (st : Store)
    : list Customer.t * list string * Store :=
  match input with
  | [] => ([], [], st)
  | rec :: rest =>
      match first_violation rec st with
      | Some v =>
          let '(created, errors, st') := bulk_outcome message (S idx) rest st in
          (created, message idx (clean_email rec) v :: errors, st')
      | None =>
          let row := record_row rec st in
          let '(created, errors, st') :=
            bulk_outcome message (S idx) rest (apply_op (InsertCustomer row) st) in
          (row :: created, errors, st')
      end
  end.

(** The three records of the example, and what storing the first one
    in the empty store gives. *)
Definition record_A : OneCustomerInput.t :=
  {| OneCustomerInput.name := "A"; OneCustomerInput.email := "a@x.com";
     OneCustomerInput.phone := None |}.

Definition record_unnamed : OneCustomerInput.t :=
  {| OneCustomerInput.name := ""; OneCustomerInput.email := "b@x.com";
     OneCustomerInput.phone := None |}.

Definition record_C : OneCustomerInput.t :=
  {| OneCustomerInput.name := "C"; OneCustomerInput.email := "a@x.com";
     OneCustomerInput.phone := None |}.

Definition customer_A : Customer.t :=
  {| Customer.id := 1; Customer.name := "A"; Customer.email := "a@x.com";
     Customer.phone := None |}.

Definition store_A : Store :=
  {| crm_customer := [customer_A]; crm_product := []; crm_order := [] |}.

(** The [ID] under which a payload shows the key [k] of a row. *)
Definition id_text (k : Z) : string := Py.str_of_nat (Z.to_nat k).

(** The price of at most two decimal places [d], written with two. *)
Definition two_places (d : Dec.finite) : Dec.finite :=
  {| Dec.coef := Dec.rescale (-2) d; Dec.expo := -2 |}.

(** The column keeps the price [d] as it is: [d] has at most two decimal
    places and, written with two, at most ten digits. *)
Definition column_keeps (d : Dec.finite) : Prop :=
  (-2 <= Dec.expo d)%Z /\ (Z.abs (Dec.rescale (-2) d) < 10 ^ 10)%Z.

(** The product row [row] as it is read, with the price [price]. *)
Definition with_price (price : Dec.finite) (row : Product.t) : Product.t :=
  {| Product.id := Product.id row; Product.name := Product.name row;
     Product.price := price; Product.stock := Product.stock row |}.

(** No two stored customers share an email. *)
Definition emails_unique (st : Store) : Prop :=
  NoDup (Customer.email <$> crm_customer st).

(** The row an insert of a product adds to [st]. *)
Definition new_product (st : Store) (name : string) (price : Dec.finite) (stock : Z)
    : Product.t :=
  {| Product.id := next_pk (Product.id <$> crm_product st);
     Product.name := name; Product.price := price; Product.stock := stock |}.

(** The row a product input becomes, once its price is read as [price]. *)
Definition product_row (input : CreateProductInput.t) (price : Dec.finite) (st : Store)
    : Product.t :=
  new_product st (Py.strip (CreateProductInput.name input)) price
    (default 0%Z (CreateProductInput.stock input)).

(** A product input with the price text [price]. *)
Definition product_input (price : string) (stock : Z) : CreateProductInput.t :=
  {| CreateProductInput.name := "Pencil";
     CreateProductInput.price := price;
     CreateProductInput.stock := Some stock |}.

(** A product with two items in stock, and the threshold 2.5. *)
Definition two_in_stock : Product.t :=
  {| Product.id := 7; Product.name := "Ink";
     Product.price := {| Dec.coef := 525; Dec.expo := -2 |}; Product.stock := 2 |}.

Definition two_and_a_half : Dec.finite := {| Dec.coef := 25; Dec.expo := -1 |}.

(** A phone as the mutations store it: none, the empty text, or a text
    of one of the two formats. *)
Definition phone_stored_ok (phone : option string) : Prop :=
  phone = None \/ phone = Some "" \/ exists t, phone = Some t /\ phone_format t = true.

Definition phones_valid (st : Store) : Prop :=
  forall c, c ∈ crm_customer st -> phone_stored_ok (Customer.phone c).

(** A database that refuses every write. *)
Definition refusing_backend : Backend :=
  {| db_fault := fun _ _ => Some "database is locked";
     now := 1718000000%Z;
     fromisoformat := fun _ => None;
     decimalfield_converter := Dec.from_db;
     decimalfield_converter_15 := fun _ _ _ _ => eq_refl |}.

Definition new_customer_input : CreateCustomerInput.t :=
  {| CreateCustomerInput.name := " Bob ";
     CreateCustomerInput.email := " Bob@X.com";
     CreateCustomerInput.phone := Some " 123-456-7890 " |}.

(** The row that input becomes in the example store. *)
Definition customer_Bob : Customer.t :=
  {| Customer.id := 2; Customer.name := "Bob"; Customer.email := "bob@x.com";
     Customer.phone := Some "123-456-7890" |}.

(** In each table no two rows share a key. *)
Definition keys_unique (st : Store) : Prop :=
  NoDup (Customer.id <$> crm_customer st)
  /\ NoDup (Product.id <$> crm_product st)
  /\ NoDup (Order.id <$> crm_order st).

(** The store [st'] holds the rows of [st], in their place and as they
    were, and possibly more after them. *)
Definition grows (st st' : Store) : Prop :=
  crm_customer st `prefix_of` crm_customer st'
  /\ crm_product st `prefix_of` crm_product st'
  /\ crm_order st `prefix_of` crm_order st'.

(** The order input for one customer and one product, by their keys. *)
Definition order_input_for (c : Customer.t) (pr : Product.t) : CreateOrderInput.t :=
  {| CreateOrderInput.customer_id := id_text (Customer.id c);
     CreateOrderInput.product_ids := [id_text (Product.id pr)];
     CreateOrderInput.order_date := None |}.

(** The row the product input of the examples becomes in the example
    store. *)
Definition pencil : Product.t :=
  {| Product.id := 3; Product.name := "Pencil";
     Product.price := {| Dec.coef := 105; Dec.expo := -1 |}; Product.stock := 3 |}.

(** What a bulk creation may create: a customer with a name, with an
    email that no stored customer has, and with a phone as the
    validator lets it through. *)
Definition admissible (st : Store) (c : Customer.t) : Prop :=
  Py.truthy (Customer.name c) = true
  /\ Py.truthy (Customer.email c) = true
  /\ email_taken st (Customer.email c) = false
  /\ phone_stored_ok (Customer.phone c).

(** The row [Order.objects.create] inserts, before the products and the
    total are written. *)
Definition blank_order (st : Store) (customer : Customer.t) (date : datetime) : Order.t :=
  {| Order.id := next_pk (Order.id <$> crm_order st);
     Order.customer := Customer.id customer;
     Order.products := ∅; Order.order_date := date;
     Order.total_amount := Dec.zero2 |}.

(** A database that accepts the inserts and refuses to write the
    products of an order. *)
Definition relation_refusing_backend : Backend :=
  {| db_fault := fun _ op =>
       match op with
       | SetProducts _ _ => Some "deadlock detected"
       | _ => None
       end;
     now := 1718000000%Z;
     fromisoformat := fun _ => None;
     decimalfield_converter := Dec.from_db;
     decimalfield_converter_15 := fun _ _ _ _ => eq_refl |}.

(** Every order belongs to a stored customer and is associated with
    stored products only. *)
Definition references_resolve (st : Store) : Prop :=
  forall o, o ∈ crm_order st ->
    (exists c, c ∈ crm_customer st /\ Customer.id c = Order.customer o)
    /\ (forall k, k ∈ Order.products o ->
          exists p, p ∈ crm_product st /\ Product.id p = k).

(** An order of both products of the example store, with a timestamp. *)
Definition dated_order_input : CreateOrderInput.t :=
  {| CreateOrderInput.customer_id := "1";
     CreateOrderInput.product_ids := ["1"; "2"];
     CreateOrderInput.order_date := Some "2024-05-01T10:00:00" |}.

(** Every customer of a queryset has a phone as the mutations store
    it. *)
Definition phones_stored_ok (queryset : list Customer.t) : Prop :=
  Forall (fun c => phone_stored_ok (Customer.phone c)) queryset.

(** The customer has a phone of the international, or of the dashed,
    format that starts with [value]. *)
Definition international_from (value : string) (c : Customer.t) : Prop :=
  exists t, Customer.phone c = Some t /\ international_format t = true
            /\ Py.startswith t value = true.

Definition dashed_from (value : string) (c : Customer.t) : Prop :=
  exists t, Customer.phone c = Some t /\ dashed_format t = true
            /\ Py.startswith t value = true.

(** A character that is no letter of A to Z or a to z, and a text of
    such characters: LIKE compares them as they are. *)
Definition no_letter (c : ascii) : bool :=
  negb (Py.between 65 90 c) && negb (Py.between 97 122 c).

Fixpoint no_letters (s : string) : bool :=
  match s with
  | "" => true
  | String c s' => no_letter c && no_letters s'
  end.

(** Three customers: one without a phone, one with a phone of each
    format. *)
Definition three_customers : list Customer.t :=
  [ {| Customer.id := 1; Customer.name := "Ada"; Customer.email := "ada@x.com";
       Customer.phone := None |};
    {| Customer.id := 2; Customer.name := "Bob"; Customer.email := "bob@x.com";
       Customer.phone := Some "123-456-7890" |};
    {| Customer.id := 3; Customer.name := "Cy"; Customer.email := "cy@x.com";
       Customer.phone := Some "+1234567890" |} ].

(** * Properties *)

(** ** Properties of the phone validator *)

Section Matcher.

Lemma matches_accepts r s : matches r s = true <-> accepts r (0%nat, s).
Proof.
  unfold matches, accepts. destruct (run r (0%nat, s)) as [|q qs]; split.
  - discriminate.
  - intros [q []].
  - intros _. exists q. now left.
  - reflexivity.
Qed.

Lemma accepts_seq r1 r2 p :
  accepts (Seq r1 r2) p <-> exists q, In q (run r1 p) /\ accepts r2 q.
Proof.
  unfold accepts. simpl. split.
  - intros [q Hq]. apply in_flat_map in Hq as (m & Hm & Hq). eauto.
  - intros (m & Hm & q & Hq). exists q. apply in_flat_map. eauto.
Qed.

Lemma accepts_bol r s : accepts (Seq Bol r) (0%nat, s) <-> accepts r (0%nat, s).
Proof.
  rewrite accepts_seq. simpl. split.
  - intros (q & [<- | []] & Hq). exact Hq.
  - intros Hq. exists (0%nat, s). split; [now left | exact Hq].
Qed.

Lemma accepts_lit c r n s :
  accepts (Seq (Lit c) r) (n, s) <-> exists s', s = String c s' /\ accepts r (S n, s').
Proof.
  rewrite accepts_seq. simpl. split.
  - intros (q & Hin & Hq). destruct s as [|d s']; [destruct Hin |].
    destruct (Ascii.eqb c d) eqn:E; [| destruct Hin].
    apply Ascii.eqb_eq in E as <-. destruct Hin as [<- | []]. eauto.
  - intros (s' & -> & Hq). exists (S n, s'). rewrite Ascii.eqb_refl.
    split; [now left | exact Hq].
Qed.

Lemma accepts_eol n s : accepts Eol (n, s) <-> at_eol s = true.
Proof.
  unfold accepts. simpl. destruct (at_eol s); split; try discriminate; try reflexivity.
  - intros _. exists (n, s). now left.
  - intros [q []].
Qed.

(** The ends of a bounded run of digits: every count between the two
    bounds that the subject affords. *)
Lemma digits_cons k d s :
  digits (S k) (String d s) = if Py.isdigit d then digits k s else None.
Proof. reflexivity. Qed.

Lemma run_digit_cons n d s :
  run Digit (n, String d s) = if Py.isdigit d then [(S n, s)] else [].
Proof. reflexivity. Qed.

Lemma rep_digit_spec hi : forall lo n s q,
  In q (rep (run Digit) hi lo (n, s)) <->
  exists k, (lo <= k <= hi)%nat /\ digits k s = Some (snd q) /\ fst q = (n + k)%nat.
Proof.
  induction hi as [|hi IH]; intros lo n s q; cbn [rep].
  - destruct (Nat.eqb_spec lo 0) as [-> | Hlo]; split.
    + intros [<- | []]. exists 0%nat. repeat split; simpl; lia.
    + intros (k & Hk & Hd & Hq). assert (k = 0)%nat as -> by lia.
      left. destruct q as [a b]. cbn in Hd, Hq. inversion Hd; subst.
      f_equal. lia.
    + intros [].
    + intros (k & Hk & _). lia.
  - rewrite in_app_iff, in_flat_map. split.
    + intros [(m & Hm & Hq) | Hq].
      * destruct s as [|d s']; [destruct Hm |]. rewrite run_digit_cons in Hm.
        destruct (Py.isdigit d) eqn:Ed; [| destruct Hm].
        destruct Hm as [<- | []]. apply IH in Hq as (k & Hk & Hd & Hf).
        exists (S k). rewrite digits_cons, Ed. repeat split; try lia. exact Hd.
      * destruct (Nat.eqb_spec lo 0) as [-> | Hlo]; [| destruct Hq].
        destruct Hq as [<- | []]. exists 0%nat. repeat split; simpl; lia.
    + intros (k & Hk & Hd & Hf). destruct k as [|k].
      * right. assert (lo = 0)%nat as -> by lia. left.
        destruct q as [a b]. cbn in Hd, Hf. inversion Hd; subst.
        f_equal. lia.
      * left. destruct s as [|d s']; [discriminate |]. rewrite digits_cons in Hd.
        destruct (Py.isdigit d) eqn:Ed; [| discriminate].
        exists (S n, s'). rewrite run_digit_cons, Ed. split; [now left |].
        apply IH. exists k. repeat split; try lia. exact Hd.
Qed.

Lemma accepts_digits lo hi r n s :
  accepts (Seq (Rep Digit lo hi) r) (n, s) <->
  exists k s', (lo <= k <= hi)%nat /\ digits k s = Some s' /\ accepts r ((n + k)%nat, s').
Proof.
  rewrite accepts_seq. simpl. split.
  - intros ([m s'] & Hin & Hq). apply rep_digit_spec in Hin as (k & Hk & Hd & Hf).
    simpl in *. subst m. eauto.
  - intros (k & s' & Hk & Hd & Hq). exists ((n + k)%nat, s'). split; [| exact Hq].
    apply rep_digit_spec. exists k. auto.
Qed.

End Matcher.

Section PhoneFormats.

Lemma append_cons c (a b : string) : String c a ++ b = String c (a ++ b).
Proof. reflexivity. Qed.

Lemma append_nil_l (a : string) : "" ++ a = a.
Proof. reflexivity. Qed.

Lemma append_assoc (a b c : string) : (a ++ b) ++ c = a ++ (b ++ c).
Proof.
  induction a as [|x a IH]; [reflexivity |]. now rewrite !append_cons, IH.
Qed.

Lemma append_nil_r (a : string) : a ++ "" = a.
Proof.
  induction a as [|x a IH]; [reflexivity |]. now rewrite append_cons, IH.
Qed.

Lemma at_eol_cases s : at_eol s = true <-> s = "" \/ s = nl.
Proof.
  unfold at_eol, nl. destruct s as [|c [|d s]]; split; intros Hs;
    try (now left); try reflexivity; try discriminate.
  - right. apply Ascii.eqb_eq in Hs. now subst.
  - destruct Hs as [Hs | Hs]; [discriminate |]. inversion Hs. apply Ascii.eqb_refl.
  - destruct Hs as [Hs | Hs]; discriminate.
Qed.

(** [digits] commutes with text added at the end. *)
Lemma digits_app_r k : forall s r u,
  digits k s = Some r -> digits k (s ++ u) = Some (r ++ u).
Proof.
  induction k as [|k IH]; intros s r u Hd.
  - simpl in *. now inversion Hd.
  - destruct s as [|d s]; [discriminate |]. rewrite digits_cons in Hd.
    rewrite append_cons, digits_cons.
    destruct (Py.isdigit d); [| discriminate]. now apply IH.
Qed.

(** What [digits] leaves can be exchanged for any other text. *)
Lemma digits_tail k : forall s r,
  digits k s = Some r ->
  exists t, s = t ++ r /\ forall u, digits k (t ++ u) = Some u.
Proof.
  induction k as [|k IH]; intros s r Hd.
  - simpl in Hd. inversion Hd; subst. exists "". split; reflexivity.
  - destruct s as [|d s]; [discriminate |]. rewrite digits_cons in Hd.
    destruct (Py.isdigit d) eqn:Ed; [| discriminate].
    apply IH in Hd as (t & -> & Ht). exists (String d t). split; [reflexivity |].
    intros u. rewrite append_cons, digits_cons, Ed. apply Ht.
Qed.

Lemma digits_all k : forall s,
  digits k s = Some "" <-> all_digits s = true /\ String.length s = k.
Proof.
  induction k as [|k IH]; intros s.
  - simpl. split.
    + intros Hs. inversion Hs. now split.
    + intros [_ Hl]. destruct s; [reflexivity | discriminate].
  - destruct s as [|d s]; simpl.
    + split; [discriminate | intros [_ Hl]; discriminate].
    + destruct (Py.isdigit d); simpl.
      * rewrite IH. split; intros [Ha Hl]; split; auto.
      * split; [discriminate | intros [Ha _]; discriminate].
Qed.

(** The first pattern: a plus sign, 7 to 15 digits, the end of the
    line. *)
Lemma international_pattern s :
  matches (Seq Bol (Seq (Lit "+") (Seq (Rep Digit 7 15) Eol))) s = true <->
  exists s' k r, s = String "+" s' /\ (7 <= k <= 15)%nat
                 /\ digits k s' = Some r /\ at_eol r = true.
Proof.
  rewrite matches_accepts, accepts_bol, accepts_lit. split.
  - intros (s' & -> & Hd). apply accepts_digits in Hd as (k & r & Hk & Hd & He).
    apply accepts_eol in He. exists s', k, r. auto.
  - intros (s' & k & r & -> & Hk & Hd & He). exists s'. split; [reflexivity |].
    apply accepts_digits. exists k, r. repeat split; try lia; try exact Hd.
    now apply accepts_eol.
Qed.

Lemma international_format_spec s :
  international_format s = true <->
  exists s' k, s = String "+" s' /\ (7 <= k <= 15)%nat /\ digits k s' = Some "".
Proof.
  unfold international_format. split.
  - destruct s as [|c s']; [discriminate |].
    destruct (Ascii.eqb_spec c "+") as [-> | Hc].
    + intros Hs. apply andb_prop in Hs as [Hs H15]. apply andb_prop in Hs as [Ha H7].
      apply Nat.leb_le in H7, H15. exists s', (String.length s').
      repeat split; try lia. now apply digits_all.
    + intros Hs. exfalso. apply Hc.
      destruct c as [[] [] [] [] [] [] [] []]; try discriminate. reflexivity.
  - intros (s' & k & -> & Hk & Hd). apply digits_all in Hd as [Ha Hl]. subst k.
    rewrite Ha, andb_true_l. apply andb_true_intro. split; apply Nat.leb_le; lia.
Qed.

Lemma international_accepts s :
  matches (Seq Bol (Seq (Lit "+") (Seq (Rep Digit 7 15) Eol))) s = true <->
  exists t, international_format t = true /\ (s = t \/ s = t ++ nl).
Proof.
  rewrite international_pattern. split.
  - intros (s' & k & r & -> & Hk & Hd & He). apply at_eol_cases in He as [-> | ->].
    + exists (String "+" s'). split; [| now left].
      apply international_format_spec. eauto.
    + apply digits_tail in Hd as (t & -> & Ht). exists (String "+" t).
      split; [| now right]. apply international_format_spec.
      exists t, k. repeat split; try lia. specialize (Ht "").
      now rewrite append_nil_r in Ht.
  - intros (t & Ht & Hs). apply international_format_spec in Ht as (s' & k & -> & Hk & Hd).
    destruct Hs as [-> | ->].
    + exists s', k, "". auto.
    + exists (s' ++ nl), k, nl. repeat split; try lia.
      now apply (digits_app_r k s' "" nl).
Qed.

(** The second pattern: three digits, a hyphen, three digits, a hyphen,
    four digits, the end of the line. *)
Lemma dashed_pattern s :
  matches (Seq Bol (Seq (exactly 3 Digit) (Seq (Lit "-") (Seq (exactly 3 Digit)
    (Seq (Lit "-") (Seq (exactly 4 Digit) Eol)))))) s = true <->
  exists s1 s2 s3, digits 3 s = Some (String "-" s1)
                   /\ digits 3 s1 = Some (String "-" s2)
                   /\ digits 4 s2 = Some s3 /\ at_eol s3 = true.
Proof.
  unfold exactly. rewrite matches_accepts, accepts_bol, accepts_digits. split.
  - intros (k1 & r1 & Hk1 & Hd1 & Hr). assert (k1 = 3)%nat as -> by lia.
    apply accepts_lit in Hr as (s1 & -> & Hr).
    apply accepts_digits in Hr as (k2 & r2 & Hk2 & Hd2 & Hr).
    assert (k2 = 3)%nat as -> by lia.
    apply accepts_lit in Hr as (s2 & -> & Hr).
    apply accepts_digits in Hr as (k3 & s3 & Hk3 & Hd3 & Hr).
    assert (k3 = 4)%nat as -> by lia.
    apply accepts_eol in Hr. exists s1, s2, s3. auto.
  - intros (s1 & s2 & s3 & Hd1 & Hd2 & Hd3 & He).
    exists 3%nat, (String "-" s1). repeat split; try lia; try exact Hd1.
    apply accepts_lit. exists s1. split; [reflexivity |].
    apply accepts_digits. exists 3%nat, (String "-" s2).
    repeat split; try lia; try exact Hd2.
    apply accepts_lit. exists s2. split; [reflexivity |].
    apply accepts_digits. exists 4%nat, s3. repeat split; try lia; try exact Hd3.
    now apply accepts_eol.
Qed.

Lemma dashed_format_spec s :
  dashed_format s = true <->
  exists s1 s2, digits 3 s = Some (String "-" s1)
                /\ digits 3 s1 = Some (String "-" s2) /\ digits 4 s2 = Some "".
Proof.
  unfold dashed_format. split.
  - destruct (digits 3 s) as [[|c1 s1]|] eqn:E1; try discriminate.
    destruct (Ascii.eqb_spec c1 "-") as [-> | Hc1];
      [| intros Hs; exfalso; apply Hc1;
         destruct c1 as [[] [] [] [] [] [] [] []]; try discriminate; reflexivity].
    destruct (digits 3 s1) as [[|c2 s2]|] eqn:E2; try discriminate.
    destruct (Ascii.eqb_spec c2 "-") as [-> | Hc2];
      [| intros Hs; exfalso; apply Hc2;
         destruct c2 as [[] [] [] [] [] [] [] []]; try discriminate; reflexivity].
    destruct (digits 4 s2) as [[|c3 s3]|] eqn:E3; try discriminate.
    intros _. exists s1, s2. auto.
  - intros (s1 & s2 & -> & -> & ->). reflexivity.
Qed.

Lemma dashed_accepts s :
  matches (Seq Bol (Seq (exactly 3 Digit) (Seq (Lit "-") (Seq (exactly 3 Digit)
    (Seq (Lit "-") (Seq (exactly 4 Digit) Eol)))))) s = true <->
  exists t, dashed_format t = true /\ (s = t \/ s = t ++ nl).
Proof.
  rewrite dashed_pattern. split.
  - intros (s1 & s2 & s3 & Hd1 & Hd2 & Hd3 & He).
    apply at_eol_cases in He as [-> | ->].
    + exists s. split; [| now left]. apply dashed_format_spec. eauto.
    + apply digits_tail in Hd1 as (a & -> & Ha).
      apply digits_tail in Hd2 as (b & -> & Hb).
      apply digits_tail in Hd3 as (c & -> & Hc).
      exists (a ++ String "-" (b ++ String "-" c)). split.
      * apply dashed_format_spec. exists (b ++ String "-" c), c.
        repeat split; [apply Ha | apply Hb |].
        specialize (Hc ""). now rewrite append_nil_r in Hc.
      * right. now rewrite append_assoc, append_cons, append_assoc, append_cons.
  - intros (t & Ht & Hs). apply dashed_format_spec in Ht as (s1 & s2 & Hd1 & Hd2 & Hd3).
    destruct Hs as [-> | ->].
    + exists s1, s2, "". auto.
    + exists (s1 ++ nl), (s2 ++ nl), nl. repeat split.
      * apply (digits_app_r 3 t (String "-" s1) nl Hd1).
      * apply (digits_app_r 3 s1 (String "-" s2) nl Hd2).
      * apply (digits_app_r 4 s2 "" nl Hd3).
Qed.

Lemma any_match_two p1 p2 s :
  any_match [p1; p2] s = matches p1 s || matches p2 s.
Proof.
  cbn [any_match]. destruct (matches p1 s), (matches p2 s); reflexivity.
Qed.

(** What the validator accepts: nothing, the empty text, and the two
    formats, each possibly followed by one newline. *)
Theorem is_valid_phone_accepts (s : string) :
  is_valid_phone (Some s) = true <->
  s = "" \/ exists t, phone_format t = true /\ (s = t \/ s = t ++ nl).
Proof.
  assert (any_match PHONE_PATTERNS s = true <->
          exists t, phone_format t = true /\ (s = t \/ s = t ++ nl)) as Hany.
  { unfold PHONE_PATTERNS. rewrite any_match_two, orb_true_iff.
    rewrite international_accepts, dashed_accepts. unfold phone_format. split.
    - intros [(t & Ht & Hs) | (t & Ht & Hs)]; exists t; rewrite Ht;
        [| rewrite orb_true_r]; auto.
    - intros (t & Ht & Hs). apply orb_prop in Ht as [Ht | Ht]; eauto. }
  destruct s as [|c s]; [split; auto |].
  change (is_valid_phone (Some (String c s))) with (any_match PHONE_PATTERNS (String c s)).
  rewrite Hany. split; [auto | intros [Hs | Hs]; [discriminate | exact Hs]].
Qed.

Lemma validate_phone_eq phone : validate_phone phone = is_valid_phone phone.
Proof. reflexivity. Qed.

(** A text [rstrip] returns does not end with a newline. *)
Lemma rstrip_no_newline s : forall t, Py.rstrip s <> t ++ nl.
Proof.
  induction s as [|c s IH]; intros t Ht.
  - destruct t; discriminate.
  - cbn [Py.rstrip] in Ht. destruct (Py.rstrip s) as [|d r] eqn:Er.
    + destruct (Py.isspace c) eqn:Ec.
      * destruct t; discriminate.
      * destruct t as [|x t].
        -- unfold nl in Ht. rewrite append_nil_l in Ht. inversion Ht; subst.
           discriminate.
        -- rewrite append_cons in Ht. inversion Ht. destruct t; discriminate.
    + destruct t as [|x t].
      * unfold nl in Ht. rewrite append_nil_l in Ht. inversion Ht.
      * rewrite append_cons in Ht. inversion Ht; subst. now apply (IH t).
Qed.

(** On a stripped text, which is all the mutations hand over, the
    validator accepts exactly the empty text and the two formats. *)
Theorem is_valid_phone_stripped (s : string) :
  is_valid_phone (Some (Py.strip s)) = true <->
  Py.strip s = "" \/ phone_format (Py.strip s) = true.
Proof.
  rewrite is_valid_phone_accepts. split.
  - intros [Hs | (t & Ht & [Hs | Hs])]; [now left | right; now rewrite Hs |].
    exfalso. now apply (rstrip_no_newline (Py.lstrip s) t).
  - intros [Hs | Hs]; [now left | right; eauto].
Qed.

End PhoneFormats.

(** ** Decimal arithmetic *)

Section DecimalArithmetic.

Lemma value_rescale e d :
  (e <= Dec.expo d)%Z ->
  (inject_Z (Dec.rescale e d) * 10 ^ e == Dec.value d)%Q.
Proof.
  intros He. unfold Dec.rescale, Dec.value.
  rewrite inject_Z_mult, Zpower_Qpower by lia.
  rewrite <- Qmult_assoc. apply Qmult_comp; [reflexivity |].
  rewrite <- Qpower_plus by discriminate.
  replace (Dec.expo d - e + e)%Z with (Dec.expo d) by lia. reflexivity.
Qed.

(** The sum of two decimals denotes the sum of what they denote. *)
Lemma value_add a b : (Dec.value (Dec.add a b) == Dec.value a + Dec.value b)%Q.
Proof.
  unfold Dec.add. set (e := Z.min (Dec.expo a) (Dec.expo b)).
  rewrite <- (value_rescale e a), <- (value_rescale e b) by (subst e; lia).
  unfold Dec.value at 1. cbn [Dec.coef Dec.expo]. rewrite inject_Z_plus. ring.
Qed.

Lemma value_zero2 : (Dec.value Dec.zero2 == 0)%Q.
Proof. reflexivity. Qed.

Lemma value_fold_left products : forall acc,
  (Dec.value (fold_left (fun total p => Dec.add total (Product.price p)) products acc)
   == Dec.value acc + sum_values products)%Q.
Proof.
  induction products as [|p ps IH]; intros acc; cbn [fold_left sum_values foldr].
  - ring.
  - rewrite IH, value_add. fold (sum_values ps). ring.
Qed.

(** The total the mutation computes denotes the sum of the prices. *)
Lemma value_sum_prices products :
  (Dec.value (sum_prices products) == sum_values products)%Q.
Proof.
  unfold sum_prices. rewrite value_fold_left, value_zero2. ring.
Qed.

Lemma fold_left_cents products : forall c,
  Forall (fun p => Dec.expo (Product.price p) = (-2)%Z) products ->
  fold_left (fun total p => Dec.add total (Product.price p)) products
    {| Dec.coef := c; Dec.expo := -2 |} =
  {| Dec.coef := c + sum_coefs products; Dec.expo := -2 |}.
Proof.
  induction products as [|p ps IH]; intros c Hall; cbn [fold_left sum_coefs foldr].
  - f_equal. lia.
  - inversion Hall as [|? ? Hp Hps]; subst.
    unfold Dec.add, Dec.rescale. cbn [Dec.coef Dec.expo]. rewrite Hp.
    change (Z.min (-2) (-2)) with (-2)%Z. change (-2 - -2)%Z with 0%Z.
    change (10 ^ 0)%Z with 1%Z. rewrite !Z.mul_1_r, IH by assumption.
    fold (sum_coefs ps). f_equal. lia.
Qed.

(** Prices kept with two decimal places, as the column declares them,
    add up coefficient by coefficient. *)
Lemma sum_prices_cents products :
  Forall (fun p => Dec.expo (Product.price p) = (-2)%Z) products ->
  sum_prices products = {| Dec.coef := sum_coefs products; Dec.expo := -2 |}.
Proof.
  intros Hall. unfold sum_prices, Dec.zero2. now rewrite fold_left_cents.
Qed.

End DecimalArithmetic.

(** ** Lookups and the resolution of product references *)

Section Lookups.
Context `{Backend}.

Lemma Customer_objects_get_found pk st c :
  lookup_customer st pk = Some c -> Customer_objects_get pk st = (Return c, st).
Proof.
  unfold lookup_customer, Customer_objects_get.
  destruct (Py.int_of_str pk) as [k|]; [| discriminate]. cbn. now intros ->.
Qed.

Lemma Customer_objects_get_missing pk st :
  lookup_customer st pk = None ->
  Customer_objects_get pk st = (Raise DoesNotExist, st)
  \/ Customer_objects_get pk st = (Raise ValueError, st).
Proof.
  unfold lookup_customer, Customer_objects_get.
  destruct (Py.int_of_str pk) as [k|]; [| now right]. cbn. intros ->. now left.
Qed.

Lemma Product_from_db_raises row exc :
  Product_from_db row = Raise exc -> exc = InvalidOperation.
Proof.
  unfold Product_from_db. destruct (decimalfield_converter 10 2 _); [discriminate |].
  now intros [= <-].
Qed.

Lemma Product_objects_get_stored pk st :
  Product_objects_get pk st =
  match Py.int_of_str pk with
  | None => (Raise ValueError, st)
  | Some _ =>
      match stored_product st pk with
      | Some row => (Product_from_db row, st)
      | None => (Raise DoesNotExist, st)
      end
  end.
Proof.
  unfold Product_objects_get, stored_product.
  now destruct (Py.int_of_str pk) as [k|].
Qed.

Lemma Product_objects_get_found pk st p :
  lookup_product st pk = Some p -> Product_objects_get pk st = (Return p, st).
Proof.
  rewrite Product_objects_get_stored. unfold lookup_product, stored_product.
  destruct (Py.int_of_str pk) as [k|]; [| discriminate]. cbn [mbind option_bind].
  destruct (find _ _) as [row|]; [| discriminate]. cbn [mbind option_bind].
  destruct (Product_from_db row); [now intros [= ->] | discriminate].
Qed.

Lemma Product_objects_get_missing pk st :
  lookup_product st pk = None -> unreadable st pk = false ->
  Product_objects_get pk st = (Raise DoesNotExist, st)
  \/ Product_objects_get pk st = (Raise ValueError, st).
Proof.
  rewrite Product_objects_get_stored. unfold lookup_product, unreadable, stored_product.
  destruct (Py.int_of_str pk) as [k|]; [| now right]. cbn [mbind option_bind].
  destruct (find _ _) as [row|]; [| now left]. cbn [mbind option_bind].
  destruct (Product_from_db row); discriminate.
Qed.

Lemma Product_objects_get_unreadable pk st :
  unreadable st pk = true -> Product_objects_get pk st = (Raise InvalidOperation, st).
Proof.
  rewrite Product_objects_get_stored. unfold unreadable, stored_product.
  destruct (Py.int_of_str pk) as [k|]; [| discriminate]. cbn [mbind option_bind].
  destruct (find _ _) as [row|]; [| discriminate].
  destruct (Product_from_db row) as [p|exc] eqn:Erow; [discriminate |].
  now rewrite (Product_from_db_raises _ _ Erow).
Qed.

Lemma unreadable_unresolved st pk :
  unreadable st pk = true -> lookup_product st pk = None.
Proof.
  unfold unreadable, lookup_product.
  destruct (stored_product st pk) as [row|]; [| discriminate]. cbn [mbind option_bind].
  now destruct (Product_from_db row).
Qed.

Lemma list_append_app {A} (l : list A) x : list_append l x = (l ++ [x])%list.
Proof. reflexivity. Qed.

Lemma resolved_cons st pid rest :
  resolved st (pid :: rest) =
  match lookup_product st pid with
  | Some p => p :: resolved st rest
  | None => resolved st rest
  end.
Proof. reflexivity. Qed.

Lemma unresolved_cons st pid rest :
  unresolved st (pid :: rest) =
  match lookup_product st pid with
  | Some _ => unresolved st rest
  | None => pid :: unresolved st rest
  end.
Proof.
  unfold unresolved, is_unresolved. cbn [List.filter].
  now destruct (lookup_product st pid).
Qed.

(** With every reference resolved, none is unreadable. *)
Lemma unresolved_nil_readable st product_ids :
  unresolved st product_ids = [] -> existsb (unreadable st) product_ids = false.
Proof.
  induction product_ids as [|pid rest IH]; [reflexivity |].
  rewrite unresolved_cons. cbn [existsb].
  destruct (unreadable st pid) eqn:Eu.
  - now rewrite (unreadable_unresolved _ _ Eu).
  - destruct (lookup_product st pid); [exact IH | discriminate].
Qed.

(** The loop that resolves the references leaves the store alone. It
    raises as soon as it reads a row that cannot be read; otherwise it
    sorts every reference into one of the two lists, in order. *)
Lemma resolve_products_run3 product_ids : forall products invalid_ids st,
  OldSchema3.resolve_products product_ids products invalid_ids st =
  if existsb (unreadable st) product_ids then (Raise InvalidOperation, st)
  else (Return ((products ++ resolved st product_ids)%list,
                (invalid_ids ++ unresolved st product_ids)%list), st).
Proof.
  induction product_ids as [|pid rest IH]; intros products invalid_ids st.
  - cbn. now rewrite !app_nil_r.
  - cbn [OldSchema3.resolve_products existsb]. unfold bind at 1, try_except, bind.
    rewrite resolved_cons, unresolved_cons.
    destruct (unreadable st pid) eqn:Eu.
    + now rewrite (Product_objects_get_unreadable _ _ Eu).
    + cbn [orb]. destruct (lookup_product st pid) as [p|] eqn:Ep.
      * rewrite (Product_objects_get_found _ _ _ Ep). cbn [ret fst snd].
        rewrite IH, list_append_app, <- app_assoc. reflexivity.
      * destruct (Product_objects_get_missing _ _ Ep Eu) as [-> | ->];
          cbn [ret fst snd]; rewrite IH, list_append_app, <- app_assoc; reflexivity.
Qed.

Lemma resolve_products_run1 product_ids : forall products errors st,
  OldSchema.resolve_products product_ids products errors st =
  if existsb (unreadable st) product_ids then (Raise InvalidOperation, st)
  else (Return ((products ++ resolved st product_ids)%list,
                (errors ++ (invalid_product_error <$> unresolved st product_ids))%list),
        st).
Proof.
  induction product_ids as [|pid rest IH]; intros products errors st.
  - cbn. now rewrite !app_nil_r.
  - cbn [OldSchema.resolve_products existsb]. unfold bind at 1, try_except, bind.
    rewrite resolved_cons, unresolved_cons.
    destruct (unreadable st pid) eqn:Eu.
    + now rewrite (Product_objects_get_unreadable _ _ Eu).
    + cbn [orb]. destruct (lookup_product st pid) as [p|] eqn:Ep.
      * rewrite (Product_objects_get_found _ _ _ Ep). cbn [ret fst snd].
        rewrite IH, list_append_app, <- app_assoc. reflexivity.
      * destruct (Product_objects_get_missing _ _ Ep Eu) as [-> | ->];
          cbn [ret fst snd fmap list_fmap]; rewrite IH, list_append_app, <- app_assoc;
          reflexivity.
Qed.

End Lookups.

(** ** The transaction of an order *)

Section Transaction.
Context `{Backend}.

Lemma next_pk_above keys k : k ∈ keys -> (k < next_pk keys)%Z.
Proof.
  unfold next_pk. induction keys as [|x keys IH]; intros Hk.
  - now apply elem_of_nil in Hk.
  - apply elem_of_cons in Hk as [-> | Hk]; cbn [foldr]; [lia |].
    specialize (IH Hk). lia.
Qed.

Lemma with_products_others pk keys (orders : list Order.t) :
  (forall o, o ∈ orders -> Order.id o <> pk) ->
  with_products pk keys <$> orders = orders.
Proof.
  induction orders as [|o orders IH]; intros Hne; [reflexivity |].
  cbn [fmap list_fmap]. f_equal.
  - unfold with_products. destruct (Z.eqb_spec (Order.id o) pk) as [E|]; [| reflexivity].
    exfalso. apply (Hne o); [left | exact E].
  - apply IH. intros o' Ho'. apply Hne. now right.
Qed.

Lemma with_total_others pk total (orders : list Order.t) :
  (forall o, o ∈ orders -> Order.id o <> pk) ->
  with_total pk total <$> orders = orders.
Proof.
  induction orders as [|o orders IH]; intros Hne; [reflexivity |].
  cbn [fmap list_fmap]. f_equal.
  - unfold with_total. destruct (Z.eqb_spec (Order.id o) pk) as [E|]; [| reflexivity].
    exfalso. apply (Hne o); [left | exact E].
  - apply IH. intros o' Ho'. apply Hne. now right.
Qed.

Lemma with_products_id pk keys o : Order.id (with_products pk keys o) = Order.id o.
Proof. unfold with_products. now destruct (Order.id o =? pk)%Z. Qed.

Lemma orders_below_next (orders : list Order.t) o :
  o ∈ orders -> Order.id o <> next_pk (Order.id <$> orders).
Proof.
  intros Ho. assert (Order.id o < next_pk (Order.id <$> orders))%Z; [| lia].
  apply next_pk_above. now apply list_elem_of_fmap_2.
Qed.

(** The transaction either writes the complete order, and nothing
    else, or raises and leaves the store as it was. *)
Lemma atomic_place_order customer date products st :
  atomic (place_order customer date products) st =
    (Return (new_order st customer date products),
     apply_op (InsertOrder (new_order st customer date products)) st)
  \/ exists msg,
       atomic (place_order customer date products) st = (Raise (DatabaseError msg), st).
Proof.
  unfold atomic, place_order, bind. unfold Order_objects_create, bind, execute, ret.
  destruct (db_fault st (InsertOrder _)) as [msg|]; [right; eauto |].
  unfold Order_products_set, bind, execute, ret. cbn [Order.id].
  destruct (db_fault _ (SetProducts _ _)) as [msg|]; [right; eauto |].
  unfold Order_save_total, bind, execute, ret. rewrite !with_products_id.
  cbn [Order.id].
  destruct (db_fault _ (UpdateTotal _ _)) as [msg|]; [right; eauto |].
  left. unfold new_order. f_equal.
  - unfold with_total, with_products. now order_fields.
  - unfold apply_op. cbn [crm_customer crm_product crm_order]. f_equal.
    rewrite !fmap_app. rewrite with_products_others by apply orders_below_next.
    rewrite with_total_others by apply orders_below_next. f_equal.
    cbn [fmap list_fmap]. unfold with_total, with_products. now order_fields.
Qed.

Lemma atomic_place_order_ok customer date products st :
  never_faults ->
  atomic (place_order customer date products) st =
    (Return (new_order st customer date products),
     apply_op (InsertOrder (new_order st customer date products)) st).
Proof.
  intros Hok. unfold atomic, place_order, bind.
  unfold Order_objects_create, bind, execute, ret. rewrite Hok.
  unfold Order_products_set, bind, execute, ret. cbn [Order.id]. rewrite Hok.
  unfold Order_save_total, bind, execute, ret. rewrite !with_products_id.
  cbn [Order.id]. rewrite Hok.
  unfold new_order. f_equal.
  - unfold with_total, with_products. now order_fields.
  - unfold apply_op. cbn [crm_customer crm_product crm_order]. f_equal.
    rewrite !fmap_app. rewrite with_products_others by apply orders_below_next.
    rewrite with_total_others by apply orders_below_next. f_equal.
    cbn [fmap list_fmap]. unfold with_total, with_products. now order_fields.
Qed.

End Transaction.

(** ** Order creation, phase by phase *)

Section OrderCreation.
Context `{Backend}.

(** The revised mutation, phase by phase: the customer, the list, the
    references, of which a row that cannot be read lets
    [decimal.InvalidOperation] out, and the transaction. *)
Lemma CreateOrder_mutate_run3 input st :
  OldSchema3.CreateOrder_mutate input st =
  match lookup_customer st (CreateOrderInput.customer_id input) with
  | None =>
      (Return (OldSchema3.order_failure "Invalid customer ID." ["Invalid customer ID."]),
       st)
  | Some customer =>
      match CreateOrderInput.product_ids input with
      | [] =>
          (Return (OldSchema3.order_failure "At least one product must be provided."
                     ["At least one product must be provided."]), st)
      | _ :: _ =>
          if existsb (unreadable st) (CreateOrderInput.product_ids input)
          then (Raise InvalidOperation, st)
          else
          match unresolved st (CreateOrderInput.product_ids input) with
          | (_ :: _) as invalid_ids =>
              (Return (OldSchema3.order_failure "Invalid product IDs provided."
                         ["Invalid product IDs: " ++ Py.join ", " invalid_ids]), st)
          | [] =>
              match atomic (place_order customer
                      (default now (OldSchema3.parse_order_date
                                      (CreateOrderInput.order_date input)))
                      (resolved st (CreateOrderInput.product_ids input))) st with
              | (Return order, st') => (Return (order_created order), st')
              | (Raise exc, st') =>
                  (Return (OldSchema3.order_failure "Error creating order."
                             [str_exc exc]), st')
              end
          end
      end
  end.
Proof.
  unfold OldSchema3.CreateOrder_mutate. unfold bind at 1. unfold try_except, bind at 1.
  destruct (lookup_customer st _) as [customer|] eqn:Ec.
  - rewrite (Customer_objects_get_found _ _ _ Ec). cbn [ret].
    destruct (CreateOrderInput.product_ids input) as [|pid rest]; [reflexivity |].
    unfold bind at 1. rewrite resolve_products_run3.
    destruct (existsb (unreadable st) (pid :: rest)); [reflexivity |]. cbn [fst snd app].
    destruct (unresolved st (pid :: rest)); [| reflexivity].
    unfold bind at 1. fold (place_order customer
      (default now (OldSchema3.parse_order_date (CreateOrderInput.order_date input)))
      (resolved st (pid :: rest))).
    destruct (atomic _ st) as [[order|exc] st']; reflexivity.
  - destruct (Customer_objects_get_missing _ _ Ec) as [-> | ->]; reflexivity.
Qed.

(** The earliest mutation, phase by phase. *)
Lemma CreateOrder_mutate_run1 input st :
  OldSchema.CreateOrder_mutate input st =
  match lookup_customer st (CreateOrderInput.customer_id input) with
  | None =>
      (Return (OldSchema.order_failure "Invalid customer ID." ["Invalid customer ID."]),
       st)
  | Some customer =>
      match CreateOrderInput.product_ids input with
      | [] =>
          (Return (OldSchema.order_failure "At least one product must be selected."
                     ["At least one product is required."]), st)
      | _ :: _ =>
          if existsb (unreadable st) (CreateOrderInput.product_ids input)
          then (Raise InvalidOperation, st)
          else
          match invalid_product_error
                  <$> unresolved st (CreateOrderInput.product_ids input) with
          | (_ :: _) as errors =>
              (Return (OldSchema.order_failure "One or more product IDs are invalid."
                         errors), st)
          | [] =>
              match atomic (place_order customer now
                      (resolved st (CreateOrderInput.product_ids input))) st with
              | (Return order, st') => (Return (order_created order), st')
              | (Raise exc, st') =>
                  (Return (OldSchema.order_failure
                             ("Error creating order: " ++ str_exc exc) [str_exc exc]),
                   st')
              end
          end
      end
  end.
Proof.
  unfold OldSchema.CreateOrder_mutate. unfold bind at 1. unfold try_except, bind at 1.
  destruct (lookup_customer st _) as [customer|] eqn:Ec.
  - rewrite (Customer_objects_get_found _ _ _ Ec). cbn [ret].
    destruct (CreateOrderInput.product_ids input) as [|pid rest]; [reflexivity |].
    unfold bind at 1. rewrite resolve_products_run1.
    destruct (existsb (unreadable st) (pid :: rest)); [reflexivity |]. cbn [fst snd app].
    destruct (invalid_product_error <$> unresolved st (pid :: rest)); [| reflexivity].
    unfold bind at 1. fold (place_order customer now (resolved st (pid :: rest))).
    destruct (atomic _ st) as [[order|exc] st']; reflexivity.
  - destruct (Customer_objects_get_missing _ _ Ec) as [-> | ->]; reflexivity.
Qed.

End OrderCreation.

(** ** Order totals *)

Section OrderTotals.
Context `{Backend}.



Lemma filter_sublist {A} (f : A -> bool) l : List.filter f l `sublist_of` l.
Proof.
  induction l as [|x l IH]; cbn [List.filter]; [constructor |].
  destruct (f x); now constructor.
Qed.

Lemma Forall2_elem_l {A B} (R : A -> B -> Prop) l k x :
  Forall2 R l k -> x ∈ l -> exists y, y ∈ k /\ R x y.
Proof.
  induction 1 as [|a b l k Hab _ IH]; intros Hx; [now apply elem_of_nil in Hx |].
  apply elem_of_cons in Hx as [-> | Hx].
  - exists b. split; [left | exact Hab].
  - destruct (IH Hx) as (y & Hy & Hxy). exists y. split; [now right | exact Hxy].
Qed.

Lemma Forall2_elem_r {A B} (R : A -> B -> Prop) l k y :
  Forall2 R l k -> y ∈ k -> exists x, x ∈ l /\ R x y.
Proof.
  induction 1 as [|a b l k Hab _ IH]; intros Hy; [now apply elem_of_nil in Hy |].
  apply elem_of_cons in Hy as [-> | Hy].
  - exists a. split; [left | exact Hab].
  - destruct (IH Hy) as (x & Hx & Hxy). exists x. split; [now right | exact Hxy].
Qed.

Lemma Product_from_db_id row p :
  Product_from_db row = Return p -> Product.id p = Product.id row.
Proof.
  unfold Product_from_db. destruct (decimalfield_converter 10 2 _); [| discriminate].
  now intros [= <-].
Qed.

Lemma stored_product_stored st pk row :
  stored_product st pk = Some row -> row ∈ crm_product st.
Proof.
  unfold stored_product. destruct (Py.int_of_str pk) as [k|]; [| discriminate].
  cbn [mbind option_bind]. intros Hf. apply find_some in Hf as [Hin _].
  now apply list_elem_of_In.
Qed.

Lemma lookup_product_row st pk p :
  lookup_product st pk = Some p <->
  exists row, stored_product st pk = Some row /\ Product_from_db row = Return p.
Proof.
  unfold lookup_product. destruct (stored_product st pk) as [row|];
    cbn [mbind option_bind].
  - destruct (Product_from_db row) as [q|exc] eqn:Erow; split.
    + intros [= ->]. now exists row.
    + intros (row' & [= <-] & Hq). congruence.
    + discriminate.
    + intros (row' & [= <-] & Hq). congruence.
  - split; [discriminate | now intros (row' & Hrow & _)].
Qed.

(** Rows of a table with unique keys are told apart by their keys. *)
Lemma unique_key_row (l : list Product.t) x y :
  NoDup (Product.id <$> l) -> x ∈ l -> y ∈ l -> Product.id x = Product.id y -> x = y.
Proof.
  induction l as [|z l IH]; intros Hnodup Hx Hy Hid; [now apply elem_of_nil in Hx |].
  cbn [fmap list_fmap] in Hnodup. apply NoDup_cons in Hnodup as [Hz Hnodup].
  apply elem_of_cons in Hx as [-> | Hx]; apply elem_of_cons in Hy as [-> | Hy]; auto.
  - destruct Hz. rewrite Hid. now apply list_elem_of_fmap_2.
  - destruct Hz. rewrite <- Hid. now apply list_elem_of_fmap_2.
Qed.

Lemma sum_values_permutation l l' : l ≡ₚ l' -> (sum_values l == sum_values l')%Q.
Proof.
  induction 1 as [|x l l' _ IH|x y l|l l1 l2 _ IH1 _ IH2]; unfold sum_values in *;
    cbn [foldr].
  - reflexivity.
  - now rewrite IH.
  - ring.
  - now rewrite IH1.
Qed.

Lemma value_calculate_total order st products :
  Order_products_all order st = Return products ->
  exists total,
    Order_calculate_total order st = Return total
    /\ (Dec.value total == sum_values products)%Q.
Proof.
  intros Hall. unfold Order_calculate_total. rewrite Hall. eexists.
  split; [reflexivity |]. rewrite value_fold_left.
  unfold Dec.value at 1. cbn [Dec.coef Dec.expo]. ring.
Qed.

(** Rows that can all be read are read one by one. *)
Lemma Product_rows_from_db_all rows :
  (forall row, row ∈ rows -> exists p, Product_from_db row = Return p) ->
  exists products,
    Product_rows_from_db rows = Return products
    /\ Forall2 (fun row p => Product_from_db row = Return p) rows products.
Proof.
  induction rows as [|row rows IH]; intros Hall.
  - exists []. split; [reflexivity | constructor].
  - destruct (Hall row) as [p Hp]; [left |].
    destruct IH as (ps & Hps & Hall2); [intros r Hr; apply Hall; now right |].
    exists (p :: ps). cbn [Product_rows_from_db]. rewrite Hp, Hps.
    split; [reflexivity | now constructor].
Qed.

(** The products an order of distinct products is associated with are
    those products, in some order. *)
Lemma products_all_new_order st st' customer date product_ids :
  crm_product st' = crm_product st ->
  NoDup (Product.id <$> crm_product st) ->
  NoDup (Product.id <$> resolved st product_ids) ->
  exists associated,
    Order_products_all (new_order st customer date (resolved st product_ids)) st'
    = Return associated
    /\ associated ≡ₚ resolved st product_ids.
Proof.
  intros Hsame Hkeys Hdistinct. unfold Order_products_all. rewrite Hsame.
  cbn [new_order Order.products].
  set (rows := List.filter _ (crm_product st)).
  assert (forall row, row ∈ rows <->
            row ∈ crm_product st
            /\ exists p, p ∈ resolved st product_ids /\ Product.id p = Product.id row)
    as Hrows.
  { intros row. subst rows.
    rewrite list_elem_of_In, filter_In, <- list_elem_of_In, bool_decide_eq_true,
      elem_of_list_to_set, list_elem_of_fmap.
    split; intros [Hin (p & Hp1 & Hp2)]; (split; [exact Hin |]); exists p;
      split; auto. }
  assert (forall p, p ∈ resolved st product_ids ->
            exists row, row ∈ crm_product st /\ Product_from_db row = Return p) as Hres.
  { intros p Hp. unfold resolved in Hp. apply list_elem_of_omap in Hp as (pid & _ & Hpid).
    apply lookup_product_row in Hpid as (row & Hrow & Hread).
    exists row. split; [now apply stored_product_stored in Hrow | exact Hread]. }
  assert (forall row, row ∈ rows ->
            exists p, p ∈ resolved st product_ids /\ Product_from_db row = Return p)
    as Hread.
  { intros row Hrow. apply Hrows in Hrow as (Hin & p & Hp & Hid).
    destruct (Hres p Hp) as (row' & Hin' & Hread'). exists p. split; [exact Hp |].
    rewrite (unique_key_row _ row row' Hkeys Hin Hin'); [exact Hread' |].
    rewrite <- Hid. now apply Product_from_db_id. }
  destruct (Product_rows_from_db_all rows) as (associated & Hall & Hall2).
  { intros row Hrow. destruct (Hread row Hrow) as (p & _ & Hp). now exists p. }
  exists associated. split; [exact Hall |].
  assert (Product.id <$> associated = Product.id <$> rows) as Hids.
  { clear -Hall2. induction Hall2 as [|row p rows ps Hp _ IH]; [reflexivity |].
    cbn [fmap list_fmap]. now rewrite IH, (Product_from_db_id _ _ Hp). }
  apply NoDup_Permutation.
  - apply (NoDup_fmap_1 Product.id). rewrite Hids.
    apply (sublist_NoDup _ (Product.id <$> crm_product st)); [exact Hkeys |].
    apply fmap_sublist. subst rows. apply filter_sublist.
  - now apply NoDup_fmap_1 in Hdistinct.
  - intros x. split.
    + intros Hx. destruct (Forall2_elem_r _ _ _ _ Hall2 Hx) as (row & Hrow & Hrx).
      destruct (Hread row Hrow) as (p & Hp & Hrp). congruence.
    + intros Hx. destruct (Hres x Hx) as (row & Hin & Hrx).
      assert (row ∈ rows) as Hrow.
      { apply Hrows. split; [exact Hin |]. exists x. split; [exact Hx |].
        now apply Product_from_db_id. }
      destruct (Forall2_elem_l _ _ _ _ Hall2 Hrow) as (y & Hy & Hry). congruence.
Qed.

End OrderTotals.


(** ** A worked order *)



(** A reference given twice is resolved twice: its price counts twice in
    the total, and the product is associated once. *)
Example order_counts_repeated_reference :
  exists order,
    @OldSchema3.CreateOrder_mutate example_backend
      {| CreateOrderInput.customer_id := "1";
         CreateOrderInput.product_ids := ["1"; "1"];
         CreateOrderInput.order_date := None |} example_store
    = (Return (order_created order), apply_op (InsertOrder order) example_store)
    /\ Order.total_amount order = {| Dec.coef := 2000; Dec.expo := -2 |}
    /\ Order.products order = {[ 1%Z ]}.
Proof.
  exists {| Order.id := 1; Order.customer := 1; Order.products := {[ 1%Z ]};
            Order.order_date := 1718000000%Z;
            Order.total_amount := {| Dec.coef := 2000; Dec.expo := -2 |} |}.
  split; [vm_compute; reflexivity | split; reflexivity].
Qed.

(** ** Unresolved references and unparsable timestamps *)

Section Reporting.
Context `{Backend}.

Lemma startswith_app s t : Py.startswith (s ++ t) s = true.
Proof.
  induction s as [|c s IH]; [now destruct t |].
  rewrite append_cons. cbn [Py.startswith]. now rewrite Ascii.eqb_refl, IH.
Qed.

Lemma startswith_refl s : Py.startswith s s = true.
Proof. rewrite <- (append_nil_r s) at 1. apply startswith_app. Qed.

Lemma contains_startswith s t : Py.startswith s t = true -> Py.contains s t = true.
Proof. intros Hs. destruct s; cbn [Py.contains]; now rewrite Hs. Qed.

Lemma contains_app_r p : forall s t,
  Py.contains s t = true -> Py.contains (p ++ s) t = true.
Proof.
  induction p as [|c p IH]; intros s t Hs; [exact Hs |].
  rewrite append_cons. cbn [Py.contains]. rewrite (IH _ _ Hs). apply orb_true_r.
Qed.

Lemma join_cons sep x y l :
  Py.join sep (x :: y :: l) = x ++ sep ++ Py.join sep (y :: l).
Proof. reflexivity. Qed.

(** A joined text quotes each of its parts. *)
Lemma contains_join sep l : forall pid,
  pid ∈ l -> Py.contains (Py.join sep l) pid = true.
Proof.
  induction l as [|x [|y l] IH]; intros pid Hin.
  - now apply elem_of_nil in Hin.
  - apply list_elem_of_singleton in Hin as ->. apply contains_startswith, startswith_refl.
  - rewrite join_cons. apply elem_of_cons in Hin as [-> | Hin].
    + apply contains_startswith, startswith_app.
    + now apply contains_app_r, contains_app_r, IH.
Qed.

Lemma elem_of_unresolved st product_ids pid :
  pid ∈ unresolved st product_ids <->
  pid ∈ product_ids /\ lookup_product st pid = None.
Proof.
  unfold unresolved. rewrite !list_elem_of_In, filter_In. unfold is_unresolved.
  destruct (lookup_product st pid); intuition discriminate.
Qed.

End Reporting.

(** C2, as amended. When the customer reference resolves and at least
    one product reference does not resolve, one of two things happens,
    in both variants. If no product reference has a row that cannot be
    read, create-order fails with a payload that reports every
    unresolved reference (the revised variant in one joined entry, the
    earliest variant in one entry per reference). If one has, the
    lookup lets [decimal.InvalidOperation] out and there is no payload.
    In both cases the store is left exactly as it was. *)
Theorem create_order_reports_unresolved `{Backend} st input customer :
  lookup_customer st (CreateOrderInput.customer_id input) = Some customer ->
  (exists pid, pid ∈ CreateOrderInput.product_ids input /\ lookup_product st pid = None) ->
  let invalid_ids := unresolved st (CreateOrderInput.product_ids input) in
  (existsb (unreadable st) (CreateOrderInput.product_ids input) = false ->
   OldSchema3.CreateOrder_mutate input st =
     (Return {| CreateOrderPayload.order := None;
                CreateOrderPayload.success := false;
                CreateOrderPayload.message := "Invalid product IDs provided.";
                CreateOrderPayload.errors := [invalid_ids_error invalid_ids] |}, st)
   /\ OldSchema.CreateOrder_mutate input st =
     (Return {| CreateOrderPayload.order := None;
                CreateOrderPayload.success := false;
                CreateOrderPayload.message := "One or more product IDs are invalid.";
                CreateOrderPayload.errors := invalid_product_error <$> invalid_ids |}, st)
   /\ reports_all_unresolved st (CreateOrderInput.product_ids input)
        [invalid_ids_error invalid_ids]
   /\ reports_all_unresolved st (CreateOrderInput.product_ids input)
        (invalid_product_error <$> invalid_ids))
  /\ (existsb (unreadable st) (CreateOrderInput.product_ids input) = true ->
      OldSchema3.CreateOrder_mutate input st = (Raise InvalidOperation, st)
      /\ OldSchema.CreateOrder_mutate input st = (Raise InvalidOperation, st)).
Proof.
  intros Hc (bad & Hbad & Hnone) invalid_ids.
  split; [| intros Hu; rewrite CreateOrder_mutate_run3, CreateOrder_mutate_run1, Hc, Hu;
            destruct (CreateOrderInput.product_ids input);
            [discriminate Hu | now split]].
  intros Hreadable.
  assert (bad ∈ invalid_ids) as Hin by (apply elem_of_unresolved; auto).
  rewrite CreateOrder_mutate_run3, CreateOrder_mutate_run1, Hc, Hreadable.
  destruct (CreateOrderInput.product_ids input) as [|pid rest] eqn:Eids;
    [now apply elem_of_nil in Hbad |].
  fold invalid_ids. destruct invalid_ids as [|x l] eqn:Einv;
    [now apply elem_of_nil in Hin |].
  repeat split.
  - intros q Hq Hqn. exists (invalid_ids_error (x :: l)). split; [now left |].
    unfold invalid_ids_error. apply contains_app_r, contains_join.
    rewrite <- Einv. subst invalid_ids. apply elem_of_unresolved. auto.
  - intros q Hq Hqn. exists (invalid_product_error q). split.
    + apply list_elem_of_fmap_2. rewrite <- Einv. subst invalid_ids.
      apply elem_of_unresolved. auto.
    + unfold invalid_product_error. apply contains_app_r, contains_startswith,
        startswith_refl.
Qed.

Lemma create_order_reports_unresolved_witness :
  lookup_customer example_store (CreateOrderInput.customer_id
    {| CreateOrderInput.customer_id := "1";
       CreateOrderInput.product_ids := ["1"; "7"; "x"];
       CreateOrderInput.order_date := None |})
  = Some {| Customer.id := 1; Customer.name := "Ada";
            Customer.email := "ada@x.com"; Customer.phone := None |}
  /\ existsb (@unreadable example_backend example_store) ["1"; "7"; "x"] = false
  /\ @OldSchema3.CreateOrder_mutate example_backend
       {| CreateOrderInput.customer_id := "1";
          CreateOrderInput.product_ids := ["1"; "7"; "x"];
          CreateOrderInput.order_date := None |} example_store =
     (Return {| CreateOrderPayload.order := None;
                CreateOrderPayload.success := false;
                CreateOrderPayload.message := "Invalid product IDs provided.";
                CreateOrderPayload.errors := ["Invalid product IDs: 7, x"] |},
      example_store)
  /\ @OldSchema.CreateOrder_mutate example_backend
       {| CreateOrderInput.customer_id := "1";
          CreateOrderInput.product_ids := ["1"; "7"; "x"];
          CreateOrderInput.order_date := None |} example_store =
     (Return {| CreateOrderPayload.order := None;
                CreateOrderPayload.success := false;
                CreateOrderPayload.message := "One or more product IDs are invalid.";
                CreateOrderPayload.errors :=
                  ["Invalid product ID: 7"; "Invalid product ID: x"] |},
      example_store)
  /\ existsb (@unreadable example_backend costly_store)
       (CreateOrderInput.product_ids costly_order_input) = true
  /\ @OldSchema3.CreateOrder_mutate example_backend costly_order_input costly_store
     = (Raise InvalidOperation, costly_store)
  /\ @OldSchema.CreateOrder_mutate example_backend costly_order_input costly_store
     = (Raise InvalidOperation, costly_store).
Proof.
  split; [reflexivity |]. split; [reflexivity |].
  destruct (@create_order_reports_unresolved example_backend example_store
              {| CreateOrderInput.customer_id := "1";
                 CreateOrderInput.product_ids := ["1"; "7"; "x"];
                 CreateOrderInput.order_date := None |}
              {| Customer.id := 1; Customer.name := "Ada";
                 Customer.email := "ada@x.com"; Customer.phone := None |})
    as [Hreported _].
  - reflexivity.
  - exists "7". split; [| reflexivity]. right. left.
  - destruct (Hreported eq_refl) as (Hrevised & Hearliest & _).
    split; [exact Hrevised |]. split; [exact Hearliest |].
    split; [reflexivity |].
    destruct (@create_order_reports_unresolved example_backend costly_store
                costly_order_input
                {| Customer.id := 1; Customer.name := "Ada";
                   Customer.email := "ada@x.com"; Customer.phone := None |})
      as [_ Hraised].
    + reflexivity.
    + exists "7". split; [| reflexivity]. right. left.
    + exact (Hraised eq_refl).
Defined.

(** A row that cannot be read is not reported: the lookup lets
    [decimal.InvalidOperation] out of both variants, whatever the other
    references are. *)
Lemma create_order_unreadable_reference `{Backend} st input customer :
  lookup_customer st (CreateOrderInput.customer_id input) = Some customer ->
  existsb (unreadable st) (CreateOrderInput.product_ids input) = true ->
  OldSchema3.CreateOrder_mutate input st = (Raise InvalidOperation, st)
  /\ OldSchema.CreateOrder_mutate input st = (Raise InvalidOperation, st).
Proof.
  intros Hc Hu. rewrite CreateOrder_mutate_run3, CreateOrder_mutate_run1, Hc, Hu.
  destruct (CreateOrderInput.product_ids input); [discriminate Hu | now split].
Qed.

(** C2, as stated, fails: with a customer reference that does not
    resolve, the payload reports the customer and none of the unresolved
    product references. *)
Lemma create_order_unresolved_needs_customer :
  ~ (forall (B : Backend) st input,
       (exists pid, pid ∈ CreateOrderInput.product_ids input
                    /\ lookup_product st pid = None) ->
       exists p,
         OldSchema3.CreateOrder_mutate input st = (Return p, st)
         /\ CreateOrderPayload.success p = false
         /\ reports_all_unresolved st (CreateOrderInput.product_ids input)
              (CreateOrderPayload.errors p)).
Proof.
  intros Hclaim.
  destruct (Hclaim example_backend example_store stray_order_input)
    as (p & Hrun & _ & Hrep).
  - exists "7". split; [right; left | reflexivity].
  - assert (p = OldSchema3.order_failure "Invalid customer ID." ["Invalid customer ID."])
      as -> by (vm_compute in Hrun; now inversion Hrun).
    destruct (Hrep "7") as (e & He & Hcontains); [right; left | reflexivity |].
    apply list_elem_of_singleton in He as ->. vm_compute in Hcontains. discriminate.
Qed.

(** C9. In the revised variant, an order timestamp that is present but
    does not parse changes nothing: the invocation behaves as the one
    without a timestamp; with a customer and products that resolve, and
    a database that accepts the writes, it succeeds with the current
    time as order date and an empty error list. *)
Theorem create_order_unparsable_date `{Backend} st input text customer :
  CreateOrderInput.order_date input = Some text ->
  fromisoformat text = None ->
  lookup_customer st (CreateOrderInput.customer_id input) = Some customer ->
  CreateOrderInput.product_ids input <> [] ->
  unresolved st (CreateOrderInput.product_ids input) = [] ->
  never_faults ->
  exists order,
    OldSchema3.CreateOrder_mutate input st =
      (Return {| CreateOrderPayload.order := Some order;
                 CreateOrderPayload.success := true;
                 CreateOrderPayload.message := "Order created.";
                 CreateOrderPayload.errors := [] |},
       apply_op (InsertOrder order) st)
    /\ Order.order_date order = now
    /\ OldSchema3.CreateOrder_mutate input st =
       OldSchema3.CreateOrder_mutate (without_order_date input) st.
Proof.
  intros Hdate Hparse Hc Hne Hun Hok.
  assert (OldSchema3.parse_order_date (CreateOrderInput.order_date input) = None) as Hnone.
  { unfold OldSchema3.parse_order_date. rewrite Hdate. cbn [mbind option_bind].
    rewrite Hparse. now destruct (opt_truthy (Some text)). }
  exists (new_order st customer now (resolved st (CreateOrderInput.product_ids input))).
  rewrite !CreateOrder_mutate_run3. cbn [without_order_date CreateOrderInput.customer_id
    CreateOrderInput.product_ids CreateOrderInput.order_date].
  rewrite Hc, Hun, Hnone, (unresolved_nil_readable _ _ Hun).
  destruct (CreateOrderInput.product_ids input) as [|pid rest] eqn:Eids; [easy |].
  change (OldSchema3.parse_order_date None) with (@None datetime). cbn [default].
  rewrite atomic_place_order_ok by exact Hok. repeat split.
Qed.

Lemma create_order_unparsable_date_witness :
  exists order,
    @OldSchema3.CreateOrder_mutate example_backend undated_order_input example_store =
      (Return {| CreateOrderPayload.order := Some order;
                 CreateOrderPayload.success := true;
                 CreateOrderPayload.message := "Order created.";
                 CreateOrderPayload.errors := [] |},
       apply_op (InsertOrder order) example_store)
    /\ Order.order_date order = 1718000000%Z
    /\ @OldSchema3.CreateOrder_mutate example_backend undated_order_input example_store =
       @OldSchema3.CreateOrder_mutate example_backend
         (without_order_date undated_order_input) example_store.
Proof.
  apply (@create_order_unparsable_date example_backend example_store undated_order_input
           "next tuesday"
           {| Customer.id := 1; Customer.name := "Ada";
              Customer.email := "ada@x.com"; Customer.phone := None |});
    try reflexivity.
  - discriminate.
  - intros st op. reflexivity.
Defined.

(** ** Customer creation, phase by phase *)

Section CustomerCreation.
Context `{Backend}.

Lemma Customer_email_exists_run email st :
  Customer_email_exists email st = (Return (email_taken st email), st).
Proof. reflexivity. Qed.

Lemma Customer_objects_create_run name email phone st :
  email_taken st email = false ->
  Customer_objects_create name email phone st =
  match db_fault st (InsertCustomer (new_customer st name email phone)) with
  | Some msg => (Raise (DatabaseError msg), st)
  | None =>
      (Return (new_customer st name email phone),
       apply_op (InsertCustomer (new_customer st name email phone)) st)
  end.
Proof.
  intros Hfree. unfold Customer_objects_create, bind.
  rewrite Customer_email_exists_run, Hfree. unfold execute, ret.
  fold (new_customer st name email phone).
  now destruct (db_fault st _).
Qed.

(** The revised mutation, phase by phase. *)
Lemma CreateCustomer_mutate_run3 input st :
  OldSchema3.CreateCustomer_mutate input st =
  match field_errors input with
  | (_ :: _) as errors =>
      (Return {| CreateCustomerPayload.customer := None;
                 CreateCustomerPayload.success := false;
                 CreateCustomerPayload.message := "Validation failed.";
                 CreateCustomerPayload.errors := errors |}, st)
  | [] =>
      if email_taken st (clean_email input) then
        (Return {| CreateCustomerPayload.customer := None;
                   CreateCustomerPayload.success := false;
                   CreateCustomerPayload.message := "Email already exists.";
                   CreateCustomerPayload.errors := ["Email already exists."] |}, st)
      else
        let row := new_customer st (clean_name input) (clean_email input)
                     (clean_phone (CreateCustomerInput.phone input)) in
        match db_fault st (InsertCustomer row) with
        | Some msg =>
            (Return {| CreateCustomerPayload.customer := None;
                       CreateCustomerPayload.success := false;
                       CreateCustomerPayload.message := "Error creating customer.";
                       CreateCustomerPayload.errors := [msg] |}, st)
        | None =>
            (Return {| CreateCustomerPayload.customer := Some row;
                       CreateCustomerPayload.success := true;
                       CreateCustomerPayload.message := "Customer created.";
                       CreateCustomerPayload.errors := [] |},
             apply_op (InsertCustomer row) st)
        end
  end.
Proof.
  unfold OldSchema3.CreateCustomer_mutate, field_errors, phone_rejected.
  fold (clean_name input) (clean_email input). fold name_error email_error phone_error.
  destruct (Py.truthy (clean_name input)), (Py.truthy (clean_email input)),
    (opt_truthy (clean_phone (CreateCustomerInput.phone input))
     && negb (is_valid_phone (clean_phone (CreateCustomerInput.phone input))));
    cbn [negb app list_append]; try reflexivity.
  unfold bind at 1. rewrite Customer_email_exists_run.
  destruct (email_taken st (clean_email input)) eqn:Et; [reflexivity |].
  unfold try_except, bind. rewrite Customer_objects_create_run by exact Et.
  cbv zeta. now destruct (db_fault st _).
Qed.

(** The earliest mutation, phase by phase. *)
Lemma CreateCustomer_mutate_run1 input st :
  OldSchema.CreateCustomer_mutate input st =
  if negb (validate_phone (clean_phone (CreateCustomerInput.phone input))) then
    (Return {| OldSchema.CreateCustomerPayload.customer := None;
               OldSchema.CreateCustomerPayload.success := false;
               OldSchema.CreateCustomerPayload.message :=
                 "Invalid phone format. Use +1234567890 or 123-456-7890." |}, st)
  else if email_taken st (clean_email input) then
    (Return {| OldSchema.CreateCustomerPayload.customer := None;
               OldSchema.CreateCustomerPayload.success := false;
               OldSchema.CreateCustomerPayload.message := "Email already exists." |}, st)
  else
    let row := new_customer st (clean_name input) (clean_email input)
                 (clean_phone (CreateCustomerInput.phone input)) in
    match db_fault st (InsertCustomer row) with
    | Some msg => (Raise (DatabaseError msg), st)
    | None =>
        (Return {| OldSchema.CreateCustomerPayload.customer := Some row;
                   OldSchema.CreateCustomerPayload.success := true;
                   OldSchema.CreateCustomerPayload.message := "Customer created." |},
         apply_op (InsertCustomer row) st)
    end.
Proof.
  unfold OldSchema.CreateCustomer_mutate.
  fold (clean_name input) (clean_email input).
  destruct (negb _); [reflexivity |].
  unfold bind at 1. rewrite Customer_email_exists_run.
  destruct (email_taken st (clean_email input)) eqn:Et; [reflexivity |].
  unfold bind. rewrite Customer_objects_create_run by exact Et.
  cbv zeta. now destruct (db_fault st _).
Qed.

End CustomerCreation.

(** ** Field validation and known emails *)

Section FieldChecks.

Lemma email_taken_iff st email :
  email_taken st email = true <->
  exists c, c ∈ crm_customer st /\ Customer.email c = email.
Proof.
  unfold email_taken. rewrite existsb_exists. split.
  - intros (c & Hc & He). exists c. split; [now apply list_elem_of_In |].
    now apply String.eqb_eq.
  - intros (c & Hc & He). exists c. split; [now apply list_elem_of_In |].
    now apply String.eqb_eq.
Qed.

Lemma email_known_taken st input :
  stored_lowercase st -> email_known st input ->
  email_taken st (clean_email input) = true.
Proof.
  intros Hlow (c & Hc & He). apply email_taken_iff. exists c. split; [exact Hc |].
  now rewrite <- (Hlow c Hc).
Qed.

Lemma truthy_false s : Py.truthy s = false <-> s = "".
Proof. destruct s; split; intros Hs; try reflexivity; discriminate. Qed.

Lemma field_errors_name input :
  clean_name input = "" <-> name_error ∈ field_errors input.
Proof.
  unfold field_errors. rewrite <- truthy_false, !elem_of_app.
  destruct (Py.truthy (clean_name input)), (Py.truthy (clean_email input)),
    (phone_rejected input);
    rewrite ?elem_of_nil, ?list_elem_of_singleton;
    unfold name_error, email_error, phone_error; intuition discriminate.
Qed.

Lemma field_errors_email input :
  clean_email input = "" <-> email_error ∈ field_errors input.
Proof.
  unfold field_errors. rewrite <- truthy_false, !elem_of_app.
  destruct (Py.truthy (clean_name input)), (Py.truthy (clean_email input)),
    (phone_rejected input);
    rewrite ?elem_of_nil, ?list_elem_of_singleton;
    unfold name_error, email_error, phone_error; intuition discriminate.
Qed.

Lemma field_errors_phone input :
  phone_rejected input = true <-> phone_error ∈ field_errors input.
Proof.
  unfold field_errors. rewrite !elem_of_app.
  destruct (Py.truthy (clean_name input)), (Py.truthy (clean_email input)),
    (phone_rejected input);
    rewrite ?elem_of_nil, ?list_elem_of_singleton;
    unfold name_error, email_error, phone_error; intuition discriminate.
Qed.

End FieldChecks.

(** C7. In the revised single customer creation, an input that violates
    one or several of the field rules is refused with one entry for
    every violated rule, and for no other: the name entry exactly when
    the trimmed name is empty, the email entry exactly when the cleaned
    email is empty, the phone entry exactly when the phone is rejected;
    with all three rules violated the list holds the three entries.
    Nothing is stored. *)
Theorem create_customer_lists_every_violation `{Backend} st input :
  clean_name input = "" \/ clean_email input = "" \/ phone_rejected input = true ->
  exists errors,
    OldSchema3.CreateCustomer_mutate input st =
      (Return {| CreateCustomerPayload.customer := None;
                 CreateCustomerPayload.success := false;
                 CreateCustomerPayload.message := "Validation failed.";
                 CreateCustomerPayload.errors := errors |}, st)
    /\ (clean_name input = "" <-> name_error ∈ errors)
    /\ (clean_email input = "" <-> email_error ∈ errors)
    /\ (phone_rejected input = true <-> phone_error ∈ errors)
    /\ (clean_name input = "" -> clean_email input = "" -> phone_rejected input = true ->
        errors = [name_error; email_error; phone_error]).
Proof.
  intros Hviolated. exists (field_errors input). split.
  - rewrite CreateCustomer_mutate_run3.
    destruct (field_errors input) as [|e errors] eqn:Eerrors; [exfalso | reflexivity].
    destruct Hviolated as [Hv | [Hv | Hv]];
      [apply field_errors_name in Hv | apply field_errors_email in Hv
       | apply field_errors_phone in Hv];
      rewrite Eerrors in Hv; now apply elem_of_nil in Hv.
  - split; [apply field_errors_name |]. split; [apply field_errors_email |].
    split; [apply field_errors_phone |]. intros Hn He Hp.
    unfold field_errors. apply truthy_false in Hn, He. now rewrite Hn, He, Hp.
Qed.

Lemma create_customer_lists_every_violation_witness :
  (clean_name blank_customer_input = "" \/ clean_email blank_customer_input = ""
   \/ phone_rejected blank_customer_input = true)
  /\ exists errors,
    @OldSchema3.CreateCustomer_mutate example_backend blank_customer_input example_store =
      (Return {| CreateCustomerPayload.customer := None;
                 CreateCustomerPayload.success := false;
                 CreateCustomerPayload.message := "Validation failed.";
                 CreateCustomerPayload.errors := errors |}, example_store)
    /\ (clean_name blank_customer_input = "" <-> name_error ∈ errors)
    /\ (clean_email blank_customer_input = "" <-> email_error ∈ errors)
    /\ (phone_rejected blank_customer_input = true <-> phone_error ∈ errors)
    /\ (clean_name blank_customer_input = "" -> clean_email blank_customer_input = "" ->
        phone_rejected blank_customer_input = true ->
        errors = [name_error; email_error; phone_error]).
Proof.
  split; [left; reflexivity |].
  apply (@create_customer_lists_every_violation example_backend example_store
           blank_customer_input).
  left. reflexivity.
Defined.

(** C3, as amended. When the cleaned email of the input is already
    stored (stored emails being in lower case, the match ignores case),
    create-customer returns success=false, creates no record and leaves
    the store as it was, in both variants. The error is the
    duplicate-email error whenever the input passes the field checks
    that run first (revised: name, email and phone; earliest: phone);
    otherwise it is the error of these checks. *)
Theorem create_customer_known_email `{Backend} st input :
  stored_lowercase st ->
  email_known st input ->
  (exists p,
     OldSchema3.CreateCustomer_mutate input st = (Return p, st)
     /\ CreateCustomerPayload.success p = false
     /\ CreateCustomerPayload.customer p = None
     /\ (field_errors input = [] ->
         CreateCustomerPayload.message p = "Email already exists."
         /\ CreateCustomerPayload.errors p = ["Email already exists."])
     /\ (field_errors input <> [] ->
         CreateCustomerPayload.message p = "Validation failed."
         /\ CreateCustomerPayload.errors p = field_errors input))
  /\ (exists p,
     OldSchema.CreateCustomer_mutate input st = (Return p, st)
     /\ OldSchema.CreateCustomerPayload.success p = false
     /\ OldSchema.CreateCustomerPayload.customer p = None
     /\ (validate_phone (clean_phone (CreateCustomerInput.phone input)) = true ->
         OldSchema.CreateCustomerPayload.message p = "Email already exists.")
     /\ (validate_phone (clean_phone (CreateCustomerInput.phone input)) = false ->
         OldSchema.CreateCustomerPayload.message p =
         "Invalid phone format. Use +1234567890 or 123-456-7890.")).
Proof.
  intros Hlow Hknown. pose proof (email_known_taken st input Hlow Hknown) as Htaken.
  split.
  - rewrite CreateCustomer_mutate_run3, Htaken.
    destruct (field_errors input) as [|e errors]; eexists; repeat split;
      try reflexivity; try congruence.
  - rewrite CreateCustomer_mutate_run1, Htaken.
    destruct (validate_phone _); eexists; repeat split; try reflexivity;
      intros; discriminate.
Qed.

Lemma create_customer_known_email_witness :
  stored_lowercase example_store
  /\ email_known example_store repeated_customer_input
  /\ exists p,
     @OldSchema3.CreateCustomer_mutate example_backend repeated_customer_input
       example_store = (Return p, example_store)
     /\ CreateCustomerPayload.success p = false
     /\ CreateCustomerPayload.customer p = None
     /\ (field_errors repeated_customer_input = [] ->
         CreateCustomerPayload.message p = "Email already exists."
         /\ CreateCustomerPayload.errors p = ["Email already exists."])
     /\ (field_errors repeated_customer_input <> [] ->
         CreateCustomerPayload.message p = "Validation failed."
         /\ CreateCustomerPayload.errors p = field_errors repeated_customer_input).
Proof.
  assert (stored_lowercase example_store) as Hlow.
  { intros c Hc. apply list_elem_of_singleton in Hc as ->. reflexivity. }
  assert (email_known example_store repeated_customer_input) as Hknown.
  { eexists. split; [left | reflexivity]. }
  split; [exact Hlow |]. split; [exact Hknown |].
  apply (@create_customer_known_email example_backend example_store
           repeated_customer_input Hlow Hknown).
Defined.

(** C3, as stated, fails: with a stored email and a phone the validator
    rejects, the error is the one of the validation, not the
    duplicate-email error; the same holds of the earliest variant. *)
Lemma create_customer_known_email_validation_first :
  ~ (forall (B : Backend) st input,
       stored_lowercase st -> email_known st input ->
       exists p,
         OldSchema3.CreateCustomer_mutate input st = (Return p, st)
         /\ CreateCustomerPayload.success p = false
         /\ CreateCustomerPayload.message p = "Email already exists.")
  /\ ~ (forall (B : Backend) st input,
       stored_lowercase st -> email_known st input ->
       exists p,
         OldSchema.CreateCustomer_mutate input st = (Return p, st)
         /\ OldSchema.CreateCustomerPayload.success p = false
         /\ OldSchema.CreateCustomerPayload.message p = "Email already exists.").
Proof.
  assert (stored_lowercase example_store) as Hlow.
  { intros c Hc. apply list_elem_of_singleton in Hc as ->. reflexivity. }
  assert (email_known example_store repeated_bad_phone_input) as Hknown.
  { eexists. split; [left | reflexivity]. }
  split; intros Hclaim;
    destruct (Hclaim example_backend example_store repeated_bad_phone_input Hlow Hknown)
      as (p & Hrun & _ & Hmsg);
    vm_compute in Hrun; inversion Hrun; subst p; vm_compute in Hmsg; discriminate Hmsg.
Qed.

(** ** The loop of a bulk creation *)

Section BulkSteps.
Context `{Backend}.

Lemma phone_rejected_validate rec :
  negb (validate_phone (clean_phone (OneCustomerInput.phone rec))) = phone_rejected rec.
Proof.
  unfold phone_rejected.
  now destruct (clean_phone (OneCustomerInput.phone rec)) as [[|c s]|].
Qed.

(** One round of the revised loop: the first violation of the record
    adds one error, no violation adds one customer. *)
Lemma bulk_step_run3 idx rec created errors st :
  OldSchema3.bulk_step idx rec created errors st =
  match first_violation rec st with
  | Some v =>
      (Return (created, list_append errors (bulk_message3 idx (clean_email rec) v)), st)
  | None =>
      (Return (list_append created (record_row rec st), errors),
       apply_op (InsertCustomer (record_row rec st)) st)
  end.
Proof.
  unfold OldSchema3.bulk_step, first_violation.
  fold (clean_name rec) (clean_email rec) (phone_rejected rec) (record_tag idx).
  destruct (negb (Py.truthy (clean_name rec))); [reflexivity |].
  destruct (negb (Py.truthy (clean_email rec))); [reflexivity |].
  destruct (phone_rejected rec); [reflexivity |].
  unfold bind at 1. rewrite Customer_email_exists_run.
  destruct (email_taken st (clean_email rec)) eqn:Et; [reflexivity |].
  unfold try_except, bind. rewrite Customer_objects_create_run by exact Et.
  fold (record_row rec st). now destruct (db_fault st _).
Qed.

(** One round of the earliest loop. *)
Lemma bulk_step_run1 idx rec created errors st :
  OldSchema.bulk_step idx rec created errors st =
  match first_violation rec st with
  | Some v =>
      (Return (created, list_append errors (bulk_message1 idx (clean_email rec) v)), st)
  | None =>
      (Return (list_append created (record_row rec st), errors),
       apply_op (InsertCustomer (record_row rec st)) st)
  end.
Proof.
  unfold OldSchema.bulk_step, first_violation. rewrite phone_rejected_validate.
  fold (clean_name rec) (clean_email rec) (record_tag idx).
  destruct (negb (Py.truthy (clean_name rec))); [reflexivity |].
  destruct (negb (Py.truthy (clean_email rec))); [reflexivity |].
  destruct (phone_rejected rec); [reflexivity |].
  unfold bind at 1. rewrite Customer_email_exists_run.
  destruct (email_taken st (clean_email rec)) eqn:Et; [reflexivity |].
  unfold try_except, bind. rewrite Customer_objects_create_run by exact Et.
  fold (record_row rec st). now destruct (db_fault st _).
Qed.

Lemma bulk_loop3_with input : forall idx created errors st,
  OldSchema3.bulk_loop idx input created errors st =
  loop_with OldSchema3.bulk_step idx input created errors st.
Proof.
  induction input as [|rec rest IH]; intros idx created errors st; [reflexivity |].
  cbn [OldSchema3.bulk_loop loop_with]. unfold bind.
  destruct (OldSchema3.bulk_step idx rec created errors st) as [[acc|exc] st'];
    [apply IH | reflexivity].
Qed.

Lemma bulk_loop1_with input : forall idx created errors st,
  OldSchema.bulk_loop idx input created errors st =
  loop_with OldSchema.bulk_step idx input created errors st.
Proof.
  induction input as [|rec rest IH]; intros idx created errors st; [reflexivity |].
  cbn [OldSchema.bulk_loop loop_with]. unfold bind.
  destruct (OldSchema.bulk_step idx rec created errors st) as [[acc|exc] st'];
    [apply IH | reflexivity].
Qed.

End BulkSteps.

Section BulkLoop.
Context `{Backend}.
Variable step : nat -> OneCustomerInput.t -> list Customer.t -> list string ->
                M (list Customer.t * list string).
Variable message : nat -> string -> violation -> string.
Hypothesis step_run : forall idx rec created errors st,
  step idx rec created errors st =
  match first_violation rec st with
  | Some v =>
      (Return (created, list_append errors (message idx (clean_email rec) v)), st)
  | None =>
      (Return (list_append created (record_row rec st), errors),
       apply_op (InsertCustomer (record_row rec st)) st)
  end.

(** The loop never raises; it extends its two accumulators by what
    [bulk_outcome] lists. *)
Lemma loop_with_run input : forall idx created errors st,
  loop_with step idx input created errors st =
  (Return ((created ++ (bulk_outcome message idx input st).1.1)%list,
           (errors ++ (bulk_outcome message idx input st).1.2)%list),
   (bulk_outcome message idx input st).2).
Proof.
  induction input as [|rec rest IH]; intros idx created errors st.
  - cbn. now rewrite !app_nil_r.
  - cbn [loop_with bulk_outcome]. unfold bind. rewrite step_run.
    destruct (first_violation rec st) as [v|]; cbn [fst snd]; rewrite IH.
    + destruct (bulk_outcome message (S idx) rest st) as [[c e] st'].
      cbn [fst snd]. unfold list_append. now rewrite <- app_assoc.
    + destruct (bulk_outcome message (S idx) rest _) as [[c e] st'].
      cbn [fst snd]. unfold list_append. now rewrite <- app_assoc.
Qed.

(** One outcome for each record. *)
Lemma bulk_outcome_lengths input : forall idx st,
  (length (bulk_outcome message idx input st).1.1
   + length (bulk_outcome message idx input st).1.2 = length input)%nat.
Proof.
  induction input as [|rec rest IH]; intros idx st; [reflexivity |].
  cbn [bulk_outcome]. destruct (first_violation rec st) as [v|].
  - specialize (IH (S idx) st).
    destruct (bulk_outcome message (S idx) rest st) as [[c e] st'].
    cbn [fst snd length] in *. lia.
  - specialize (IH (S idx) (apply_op (InsertCustomer (record_row rec st)) st)).
    destruct (bulk_outcome message (S idx) rest _) as [[c e] st'].
    cbn [fst snd length] in *. lia.
Qed.

(** The records after a prefix are processed from the store and the
    position the prefix leaves. *)
Lemma bulk_outcome_app pre : forall post idx st,
  bulk_outcome message idx (pre ++ post) st =
  let '(c1, e1, st1) := bulk_outcome message idx pre st in
  let '(c2, e2, st2) := bulk_outcome message (idx + length pre) post st1 in
  ((c1 ++ c2)%list, (e1 ++ e2)%list, st2).
Proof.
  induction pre as [|rec rest IH]; intros post idx st.
  - cbn. rewrite Nat.add_0_r.
    now destruct (bulk_outcome message idx post st) as [[c e] st'].
  - cbn [app bulk_outcome length]. rewrite <- Nat.add_succ_comm.
    destruct (first_violation rec st) as [v|]; rewrite IH.
    + destruct (bulk_outcome message (S idx) rest st) as [[c1 e1] st1].
      now destruct (bulk_outcome message (S idx + length rest) post st1)
        as [[c2 e2] st2].
    + destruct (bulk_outcome message (S idx) rest _) as [[c1 e1] st1].
      now destruct (bulk_outcome message (S idx + length rest) post st1)
        as [[c2 e2] st2].
Qed.

End BulkLoop.

(** ** Bulk creation *)

Section BulkCreation.
Context `{Backend}.

Lemma BulkCreateCustomers_mutate_run3 input st :
  OldSchema3.BulkCreateCustomers_mutate input st =
  (Return {| BulkCreateCustomersPayload.customers :=
               (bulk_outcome bulk_message3 1 input st).1.1;
             BulkCreateCustomersPayload.errors :=
               (bulk_outcome bulk_message3 1 input st).1.2 |},
   (bulk_outcome bulk_message3 1 input st).2).
Proof.
  unfold OldSchema3.BulkCreateCustomers_mutate, bind.
  rewrite bulk_loop3_with, (loop_with_run _ bulk_message3 bulk_step_run3).
  reflexivity.
Qed.

Lemma BulkCreateCustomers_mutate_run1 input st :
  OldSchema.BulkCreateCustomers_mutate input st =
  (Return {| BulkCreateCustomersPayload.customers :=
               (bulk_outcome bulk_message1 1 input st).1.1;
             BulkCreateCustomersPayload.errors :=
               (bulk_outcome bulk_message1 1 input st).1.2 |},
   (bulk_outcome bulk_message1 1 input st).2).
Proof.
  unfold OldSchema.BulkCreateCustomers_mutate, bind.
  rewrite bulk_loop1_with, (loop_with_run _ bulk_message1 bulk_step_run1).
  reflexivity.
Qed.

Lemma bulk_message3_tagged idx email v :
  Py.startswith (bulk_message3 idx email v) (record_tag idx) = true.
Proof. destruct v; apply startswith_app. Qed.

Lemma bulk_message1_tagged idx email v :
  Py.startswith (bulk_message1 idx email v) (record_tag idx) = true.
Proof. destruct v; apply startswith_app. Qed.

(** A refused record in the middle of the input, for any wording of
    the errors. *)
Lemma bulk_outcome_refused message pre rec post st v :
  first_violation rec (bulk_outcome message 1 pre st).2 = Some v ->
  bulk_outcome message 1 (pre ++ rec :: post) st =
  let '(c1, e1, st1) := bulk_outcome message 1 pre st in
  let '(c2, e2, st2) := bulk_outcome message (S (S (length pre))) post st1 in
  ((c1 ++ c2)%list,
   (e1 ++ message (S (length pre)) (clean_email rec) v :: e2)%list, st2).
Proof.
  intros Hv. rewrite bulk_outcome_app.
  destruct (bulk_outcome message 1 pre st) as [[c1 e1] st1]. cbn [snd] in Hv.
  cbn [bulk_outcome]. rewrite Hv. cbn [Nat.add].
  now destruct (bulk_outcome message (S (S (length pre))) post st1) as [[c2 e2] st2].
Qed.

End BulkCreation.

(** C10. A bulk creation conserves the records one to one, in both
    variants. Whenever it returns, the payload and the store are those
    of the record-by-record account [bulk_outcome], which gives each
    record, in the order of the input and at its position, exactly one
    outcome: one error, for the first violation of the record in the
    order name, email, phone, duplicate, persistence, or else one
    customer, which is added to the store. So the created customers and
    the errors together are as many as the records. Each round of the
    loop adds exactly that outcome. *)
Theorem bulk_create_one_outcome_per_record `{Backend} input st :
  (forall p st',
     OldSchema3.BulkCreateCustomers_mutate input st = (Return p, st') ->
     BulkCreateCustomersPayload.customers p = (bulk_outcome bulk_message3 1 input st).1.1
     /\ BulkCreateCustomersPayload.errors p = (bulk_outcome bulk_message3 1 input st).1.2
     /\ st' = (bulk_outcome bulk_message3 1 input st).2
     /\ (length (BulkCreateCustomersPayload.customers p)
         + length (BulkCreateCustomersPayload.errors p) = length input)%nat)
  /\ (forall p st',
     OldSchema.BulkCreateCustomers_mutate input st = (Return p, st') ->
     BulkCreateCustomersPayload.customers p = (bulk_outcome bulk_message1 1 input st).1.1
     /\ BulkCreateCustomersPayload.errors p = (bulk_outcome bulk_message1 1 input st).1.2
     /\ st' = (bulk_outcome bulk_message1 1 input st).2
     /\ (length (BulkCreateCustomersPayload.customers p)
         + length (BulkCreateCustomersPayload.errors p) = length input)%nat)
  /\ (forall idx rec created errors st0,
     OldSchema3.bulk_step idx rec created errors st0 =
     match first_violation rec st0 with
     | Some v =>
         (Return (created, (errors ++ [bulk_message3 idx (clean_email rec) v])%list), st0)
     | None =>
         (Return ((created ++ [record_row rec st0])%list, errors),
          apply_op (InsertCustomer (record_row rec st0)) st0)
     end)
  /\ (forall idx rec created errors st0,
     OldSchema.bulk_step idx rec created errors st0 =
     match first_violation rec st0 with
     | Some v =>
         (Return (created, (errors ++ [bulk_message1 idx (clean_email rec) v])%list), st0)
     | None =>
         (Return ((created ++ [record_row rec st0])%list, errors),
          apply_op (InsertCustomer (record_row rec st0)) st0)
     end).
Proof.
  split; [| split; [| split]].
  - intros p st'. rewrite BulkCreateCustomers_mutate_run3. intros [= <- <-].
    cbn [BulkCreateCustomersPayload.customers BulkCreateCustomersPayload.errors].
    repeat split. apply bulk_outcome_lengths.
  - intros p st'. rewrite BulkCreateCustomers_mutate_run1. intros [= <- <-].
    cbn [BulkCreateCustomersPayload.customers BulkCreateCustomersPayload.errors].
    repeat split. apply bulk_outcome_lengths.
  - intros. apply bulk_step_run3.
  - intros. apply bulk_step_run1.
Qed.

Lemma bulk_create_one_outcome_per_record_witness :
  @OldSchema3.BulkCreateCustomers_mutate example_backend
    [record_A; record_unnamed; record_C] empty_store =
  (Return {| BulkCreateCustomersPayload.customers := [customer_A];
             BulkCreateCustomersPayload.errors :=
               ["Record 2: name is required.";
                "Record 3 (a@x.com): email already exists."] |}, store_A)
  /\ @OldSchema.BulkCreateCustomers_mutate example_backend
       [record_A; record_unnamed; record_C] empty_store =
     (Return {| BulkCreateCustomersPayload.customers := [customer_A];
                BulkCreateCustomersPayload.errors :=
                  ["Record 2: name is required.";
                   "Record 3: email a@x.com already exists."] |}, store_A)
  /\ (@bulk_outcome example_backend bulk_message3 1
        [record_A; record_unnamed; record_C] empty_store).1.1 = [customer_A]
  /\ (@bulk_outcome example_backend bulk_message3 1
        [record_A; record_unnamed; record_C] empty_store).1.2
     = ["Record 2: name is required."; "Record 3 (a@x.com): email already exists."]
  /\ (@bulk_outcome example_backend bulk_message1 1
        [record_A; record_unnamed; record_C] empty_store).1.2
     = ["Record 2: name is required."; "Record 3: email a@x.com already exists."]
  /\ (@bulk_outcome example_backend bulk_message3 1
        [record_A; record_unnamed; record_C] empty_store).2 = store_A
  /\ (length [customer_A]
      + length ["Record 2: name is required.";
                "Record 3 (a@x.com): email already exists."]
      = length [record_A; record_unnamed; record_C])%nat.
Proof.
  assert (@OldSchema3.BulkCreateCustomers_mutate example_backend
            [record_A; record_unnamed; record_C] empty_store =
          (Return {| BulkCreateCustomersPayload.customers := [customer_A];
                     BulkCreateCustomersPayload.errors :=
                       ["Record 2: name is required.";
                        "Record 3 (a@x.com): email already exists."] |}, store_A))
    as Hrun3 by reflexivity.
  assert (@OldSchema.BulkCreateCustomers_mutate example_backend
            [record_A; record_unnamed; record_C] empty_store =
          (Return {| BulkCreateCustomersPayload.customers := [customer_A];
                     BulkCreateCustomersPayload.errors :=
                       ["Record 2: name is required.";
                        "Record 3: email a@x.com already exists."] |}, store_A))
    as Hrun1 by reflexivity.
  destruct (@bulk_create_one_outcome_per_record example_backend
              [record_A; record_unnamed; record_C] empty_store)
    as (Hrevised & Hearliest & _).
  destruct (Hrevised _ _ Hrun3) as (Hc3 & He3 & Hs3 & Hn3).
  destruct (Hearliest _ _ Hrun1) as (Hc1 & He1 & Hs1 & _).
  split; [exact Hrun3 |]. split; [exact Hrun1 |].
  split; [symmetry; exact Hc3 |]. split; [symmetry; exact He3 |].
  split; [symmetry; exact He1 |]. split; [symmetry; exact Hs3 | exact Hn3].
Defined.

(** C5. A bulk creation processes each record on its own, in both
    variants: a record that fails (missing name, missing email, invalid
    phone, duplicate email or persistence error) after the records [pre]
    adds one error, tagged with its 1-based position, to those of
    [pre], changes nothing in the store, and the records [post] after it
    are processed all the same, from the store [pre] left and at their
    own positions. On the three records of the example, against the
    empty store and a database that accepts the insert, record A is
    created and two errors are reported: the missing name at position 2
    and the duplicate email at position 3. *)
Theorem bulk_create_isolates_failures `{Backend} :
  (forall st pre rec post created1 errors1 st1 v,
     OldSchema3.BulkCreateCustomers_mutate pre st =
       (Return {| BulkCreateCustomersPayload.customers := created1;
                  BulkCreateCustomersPayload.errors := errors1 |}, st1) ->
     first_violation rec st1 = Some v ->
     exists created2 errors2 st2,
       OldSchema3.bulk_loop (S (S (length pre))) post [] [] st1 =
         (Return (created2, errors2), st2)
       /\ OldSchema3.BulkCreateCustomers_mutate (pre ++ rec :: post) st =
         (Return {| BulkCreateCustomersPayload.customers := (created1 ++ created2)%list;
                    BulkCreateCustomersPayload.errors :=
                      (errors1 ++ bulk_message3 (S (length pre)) (clean_email rec) v
                                  :: errors2)%list |}, st2)
       /\ Py.startswith (bulk_message3 (S (length pre)) (clean_email rec) v)
            (record_tag (S (length pre))) = true)
  /\ (forall st pre rec post created1 errors1 st1 v,
     OldSchema.BulkCreateCustomers_mutate pre st =
       (Return {| BulkCreateCustomersPayload.customers := created1;
                  BulkCreateCustomersPayload.errors := errors1 |}, st1) ->
     first_violation rec st1 = Some v ->
     exists created2 errors2 st2,
       OldSchema.bulk_loop (S (S (length pre))) post [] [] st1 =
         (Return (created2, errors2), st2)
       /\ OldSchema.BulkCreateCustomers_mutate (pre ++ rec :: post) st =
         (Return {| BulkCreateCustomersPayload.customers := (created1 ++ created2)%list;
                    BulkCreateCustomersPayload.errors :=
                      (errors1 ++ bulk_message1 (S (length pre)) (clean_email rec) v
                                  :: errors2)%list |}, st2)
       /\ Py.startswith (bulk_message1 (S (length pre)) (clean_email rec) v)
            (record_tag (S (length pre))) = true)
  /\ (db_fault empty_store (InsertCustomer customer_A) = None ->
      OldSchema3.BulkCreateCustomers_mutate [record_A; record_unnamed; record_C] empty_store =
        (Return {| BulkCreateCustomersPayload.customers := [customer_A];
                   BulkCreateCustomersPayload.errors :=
                     ["Record 2: name is required.";
                      "Record 3 (a@x.com): email already exists."] |}, store_A)
      /\ OldSchema.BulkCreateCustomers_mutate [record_A; record_unnamed; record_C] empty_store =
        (Return {| BulkCreateCustomersPayload.customers := [customer_A];
                   BulkCreateCustomersPayload.errors :=
                     ["Record 2: name is required.";
                      "Record 3: email a@x.com already exists."] |}, store_A)).
Proof.
  split; [| split].
  - intros st pre rec post created1 errors1 st1 v Hpre Hv.
    rewrite BulkCreateCustomers_mutate_run3 in Hpre. injection Hpre as <- <- <-.
    do 3 eexists. split; [| split].
    + rewrite bulk_loop3_with, (loop_with_run _ bulk_message3 bulk_step_run3).
      cbn [app]. reflexivity.
    + rewrite BulkCreateCustomers_mutate_run3, (bulk_outcome_refused _ _ _ _ _ _ Hv).
      destruct (bulk_outcome bulk_message3 1 pre st) as [[c1 e1] s1]. cbn [fst snd].
      now destruct (bulk_outcome bulk_message3 (S (S (length pre))) post s1)
        as [[c2 e2] s2].
    + apply bulk_message3_tagged.
  - intros st pre rec post created1 errors1 st1 v Hpre Hv.
    rewrite BulkCreateCustomers_mutate_run1 in Hpre. injection Hpre as <- <- <-.
    do 3 eexists. split; [| split].
    + rewrite bulk_loop1_with, (loop_with_run _ bulk_message1 bulk_step_run1).
      cbn [app]. reflexivity.
    + rewrite BulkCreateCustomers_mutate_run1, (bulk_outcome_refused _ _ _ _ _ _ Hv).
      destruct (bulk_outcome bulk_message1 1 pre st) as [[c1 e1] s1]. cbn [fst snd].
      now destruct (bulk_outcome bulk_message1 (S (S (length pre))) post s1)
        as [[c2 e2] s2].
    + apply bulk_message1_tagged.
  - intros Hdb.
    assert (first_violation record_A empty_store = None) as HA.
    { unfold first_violation.
      change (record_row record_A empty_store) with customer_A. now rewrite Hdb. }
    rewrite BulkCreateCustomers_mutate_run3, BulkCreateCustomers_mutate_run1.
    cbn [bulk_outcome]. rewrite HA.
    change (record_row record_A empty_store) with customer_A.
    change (apply_op (InsertCustomer customer_A) empty_store) with store_A.
    split; reflexivity.
Qed.

Lemma bulk_create_isolates_failures_witness :
  db_fault (Backend := example_backend) empty_store (InsertCustomer customer_A) = None
  /\ @OldSchema3.BulkCreateCustomers_mutate example_backend
       [record_A; record_unnamed; record_C] empty_store =
     (Return {| BulkCreateCustomersPayload.customers := [customer_A];
                BulkCreateCustomersPayload.errors :=
                  ["Record 2: name is required.";
                   "Record 3 (a@x.com): email already exists."] |}, store_A)
  /\ @OldSchema.BulkCreateCustomers_mutate example_backend
       [record_A; record_unnamed; record_C] empty_store =
     (Return {| BulkCreateCustomersPayload.customers := [customer_A];
                BulkCreateCustomersPayload.errors :=
                  ["Record 2: name is required.";
                   "Record 3: email a@x.com already exists."] |}, store_A).
Proof.
  split; [reflexivity |].
  apply (@bulk_create_isolates_failures example_backend). reflexivity.
Defined.

(** ** Texts of keys and new rows *)

Section Texts.

Lemma lower_char_idempotent c : Py.lower_char (Py.lower_char c) = Py.lower_char c.
Proof. destruct c as [[] [] [] [] [] [] [] []]; reflexivity. Qed.

Lemma lower_idempotent s : Py.lower (Py.lower s) = Py.lower s.
Proof.
  induction s as [|c s IH]; [reflexivity |]. cbn [Py.lower].
  now rewrite lower_char_idempotent, IH.
Qed.

Lemma digit_not_space c : Py.isdigit c = true -> Py.int_isspace c = false.
Proof. destruct c as [[] [] [] [] [] [] [] []]; (reflexivity || discriminate). Qed.

Lemma rstrip_digits s : all_digits s = true -> Py.int_rstrip s = s.
Proof.
  induction s as [|c s IH]; [reflexivity |]. cbn [all_digits Py.int_rstrip].
  intros Hs. apply andb_prop in Hs as [Hc Hs]. rewrite (IH Hs).
  destruct s; [now rewrite (digit_not_space c Hc) | reflexivity].
Qed.

Lemma strip_digits s : all_digits s = true -> Py.int_rstrip (Py.int_lstrip s) = s.
Proof.
  intros Hs. assert (Py.int_lstrip s = s) as ->.
  { destruct s as [|c s]; [reflexivity |]. cbn [all_digits] in Hs.
    apply andb_prop in Hs as [Hc _]. cbn [Py.int_lstrip].
    now rewrite (digit_not_space c Hc). }
  now apply rstrip_digits.
Qed.

Lemma string_of_uint_digits d : all_digits (NilEmpty.string_of_uint d) = true.
Proof. induction d; cbn [NilEmpty.string_of_uint all_digits]; auto. Qed.

Lemma int_digits_digit c acc seen s :
  Py.isdigit c = true ->
  Py.int_digits acc seen (String c s) = Py.int_digits (acc * 10 + Py.digit_value c) true s.
Proof. intros Hc. cbn [Py.int_digits]. now rewrite Hc. Qed.

(** Reading the digits [str] writes gives the number back. *)
Lemma int_digits_uint d : forall acc seen,
  d <> Decimal.Nil \/ seen = true ->
  Py.int_digits (Z.of_nat acc) seen (NilEmpty.string_of_uint d)
  = Some (Z.of_nat (Nat.of_uint_acc d acc)).
Proof.
  induction d; intros acc seen Hd;
    cbn [NilEmpty.string_of_uint Nat.of_uint_acc];
    [destruct Hd as [Hd | ->]; [now destruct Hd | reflexivity] | ..];
    rewrite int_digits_digit by reflexivity;
    rewrite <- (IHd _ true) by (now right); f_equal;
    rewrite Nat.tail_mul_spec;
    match goal with
    | |- context [Py.digit_value ?c] =>
        let v := eval vm_compute in (Py.digit_value c) in
        change (Py.digit_value c) with v
    end; lia.
Qed.

Lemma to_uint_not_nil n : Nat.to_uint n <> Decimal.Nil.
Proof.
  intros Hn. pose proof (Unsigned.of_to n) as Hof. rewrite Hn in Hof.
  cbn in Hof. subst n. discriminate Hn.
Qed.

(** [int(str(n))] is [n]. *)
Lemma int_of_str_of_nat n : Py.int_of_str (Py.str_of_nat n) = Some (Z.of_nat n).
Proof.
  unfold Py.int_of_str, Py.str_of_nat.
  rewrite strip_digits by apply string_of_uint_digits.
  pose proof (int_digits_uint (Nat.to_uint n) 0 false (or_introl (to_uint_not_nil n)))
    as Hd.
  fold (Nat.of_uint (Nat.to_uint n)) in Hd. rewrite Unsigned.of_to in Hd.
  change (Z.of_nat 0) with 0%Z in Hd.
  destruct (Nat.to_uint n); exact Hd.
Qed.

Lemma id_text_reads k : (0 <= k)%Z -> Py.int_of_str (id_text k) = Some k.
Proof.
  intros Hk. unfold id_text. rewrite int_of_str_of_nat. f_equal. lia.
Qed.

End Texts.

Section NewRows.
Context `{Backend}.

Lemma next_pk_positive keys : (0 < next_pk keys)%Z.
Proof.
  unfold next_pk. induction keys as [|k keys IH]; cbn [foldr]; lia.
Qed.

Lemma find_fresh {A} (f : A -> bool) l c :
  (forall x, x ∈ l -> f x = false) -> f c = true -> find f (l ++ [c]) = Some c.
Proof.
  intros Hl Hc. induction l as [|x l IH]; cbn [app find].
  - now rewrite Hc.
  - rewrite (Hl x) by left. apply IH. intros y Hy. apply Hl. now right.
Qed.

Lemma find_kept {A} (f : A -> bool) l l' x :
  find f l = Some x -> find f (l ++ l') = Some x.
Proof.
  induction l as [|y l IH]; cbn [app find]; [discriminate |].
  now destruct (f y).
Qed.

(** The row a product insert adds is the row the text of its key refers
    to. *)
Lemma stored_new_product st pr :
  Product.id pr = next_pk (Product.id <$> crm_product st) ->
  stored_product (apply_op (InsertProduct pr) st) (id_text (Product.id pr)) = Some pr.
Proof.
  intros Hid. unfold stored_product.
  rewrite id_text_reads by (rewrite Hid; pose proof (next_pk_positive
    (Product.id <$> crm_product st)); lia).
  cbn [mbind option_bind apply_op crm_product]. apply find_fresh.
  - intros x Hx. apply Z.eqb_neq. rewrite Hid.
    assert (Product.id x < next_pk (Product.id <$> crm_product st))%Z; [| lia].
    apply next_pk_above. now apply list_elem_of_fmap_2.
  - apply Z.eqb_refl.
Qed.


(** A price the column keeps has at most 15 digits. *)
Lemma column_keeps_15 d : column_keeps d -> (Z.abs (Dec.coef d) < 10 ^ 15)%Z.
Proof.
  intros [Hexpo Hfits]. unfold Dec.rescale in Hfits. rewrite Z.abs_mul in Hfits.
  assert (1 <= Z.abs (10 ^ (Dec.expo d - -2)))%Z
    by (rewrite Z.abs_eq by (apply Z.pow_nonneg; lia);
        apply (Z.pow_le_mono_r 10 0); lia).
  assert (10 ^ 10 < 10 ^ 15)%Z by reflexivity. nia.
Qed.

(** A price the column keeps is read as it was written, with two
    places. *)
Lemma from_db_keeps d :
  column_keeps d -> Dec.from_db 10 2 d = Some (two_places d).
Proof.
  intros [Hexpo Hfits]. unfold Dec.from_db, Dec.quantize.
  change (- (2))%Z with (-2)%Z.
  assert ((-2 <=? Dec.expo d)%Z = true) as -> by now apply Z.leb_le.
  cbn [Dec.coef]. apply Z.ltb_lt in Hfits. now rewrite Hfits.
Qed.

Lemma value_two_places d :
  (-2 <= Dec.expo d)%Z -> (Dec.value (two_places d) == Dec.value d)%Q.
Proof.
  intros Hexpo. unfold two_places, Dec.value at 1. cbn [Dec.coef Dec.expo].
  now apply value_rescale.
Qed.

(** A price written with at most 15 digits is read as [Dec.from_db] has
    it, whatever the database. *)
Lemma Product_from_db_15 row :
  (Z.abs (Dec.coef (Product.price row)) < 10 ^ 15)%Z ->
  Product_from_db row =
  match Dec.from_db 10 2 (Product.price row) with
  | Some price => Return (with_price price row)
  | None => Raise InvalidOperation
  end.
Proof.
  intros Hsig. unfold Product_from_db.
  now rewrite (decimalfield_converter_15 _ _ _ Hsig).
Qed.

Lemma Product_from_db_keeps row :
  column_keeps (Product.price row) ->
  Product_from_db row = Return (with_price (two_places (Product.price row)) row).
Proof.
  intros Hkeeps. rewrite (Product_from_db_15 _ (column_keeps_15 _ Hkeeps)).
  now rewrite (from_db_keeps _ Hkeeps).
Qed.

End NewRows.

(** ** Uniqueness of emails *)

Section UniqueEmails.
Context `{Backend}.

Lemma email_free st email :
  email_taken st email = false -> email ∉ Customer.email <$> crm_customer st.
Proof.
  intros Hfree Hin. apply list_elem_of_fmap in Hin as (c & -> & Hc).
  assert (email_taken st (Customer.email c) = true) as Ht
    by (apply email_taken_iff; eauto).
  congruence.
Qed.

Lemma insert_customer_unique st name email phone :
  emails_unique st -> email_taken st email = false ->
  emails_unique (apply_op (InsertCustomer (new_customer st name email phone)) st).
Proof.
  unfold emails_unique. intros Hst Hfree. cbn [apply_op crm_customer].
  rewrite fmap_app. apply NoDup_app. split; [exact Hst |]. split.
  - intros e He Hin. apply list_elem_of_singleton in Hin as ->.
    now apply (email_free st _ Hfree).
  - apply NoDup_singleton.
Qed.

(** Neither variant of create-customer ever stores an email twice. *)
Lemma CreateCustomer_mutate_unique input st :
  emails_unique st ->
  emails_unique (OldSchema3.CreateCustomer_mutate input st).2
  /\ emails_unique (OldSchema.CreateCustomer_mutate input st).2.
Proof.
  intros Hst. rewrite CreateCustomer_mutate_run3, CreateCustomer_mutate_run1. split.
  - destruct (field_errors input); [| exact Hst].
    destruct (email_taken st (clean_email input)) eqn:Et; [exact Hst |].
    cbv zeta. destruct (db_fault st _); [exact Hst |].
    now apply insert_customer_unique.
  - destruct (negb _); [exact Hst |].
    destruct (email_taken st (clean_email input)) eqn:Et; [exact Hst |].
    cbv zeta. destruct (db_fault st _); [exact Hst |].
    now apply insert_customer_unique.
Qed.

Lemma first_violation_none rec st :
  first_violation rec st = None -> email_taken st (clean_email rec) = false.
Proof.
  unfold first_violation.
  destruct (negb (Py.truthy (clean_name rec))); [discriminate |].
  destruct (negb (Py.truthy (clean_email rec))); [discriminate |].
  destruct (phone_rejected rec); [discriminate |].
  now destruct (email_taken st (clean_email rec)).
Qed.

(** Nor does a bulk creation, duplicates inside one batch included. *)
Lemma bulk_outcome_unique message input : forall idx st,
  emails_unique st -> emails_unique (bulk_outcome message idx input st).2.
Proof.
  induction input as [|rec rest IH]; intros idx st Hst; [exact Hst |].
  cbn [bulk_outcome]. destruct (first_violation rec st) as [v|] eqn:Ev.
  - specialize (IH (S idx) st Hst).
    now destruct (bulk_outcome message (S idx) rest st) as [[c e] st'].
  - apply first_violation_none in Ev.
    specialize (IH (S idx) _ (insert_customer_unique st (clean_name rec)
      (clean_email rec) (clean_phone (OneCustomerInput.phone rec)) Hst Ev)).
    unfold record_row.
    now destruct (bulk_outcome message (S idx) rest _) as [[c e] st'].
Qed.

End UniqueEmails.

(** ** Product creation *)

Section ProductCreation.
Context `{Backend}.

Lemma Product_objects_create_run name price stock st :
  Product_objects_create name (Dec.Fin price) stock st =
  match db_fault st (InsertProduct (new_product st name price stock)) with
  | Some msg => (Raise (DatabaseError msg), st)
  | None =>
      (Return (new_product st name price stock),
       apply_op (InsertProduct (new_product st name price stock)) st)
  end.
Proof.
  unfold Product_objects_create, bind, execute, ret.
  fold (new_product st name price stock). now destruct (db_fault st _).
Qed.

(** The revised mutation on a price that reads as a finite decimal. *)
Lemma CreateProduct_mutate_run3 input price st :
  Dec.of_str (CreateProductInput.price input) = Some (Dec.Fin price) ->
  OldSchema3.CreateProduct_mutate input st =
  if (Dec.coef price <=? 0)%Z then
    (Return (OldSchema3.product_failure "Price must be positive."), st)
  else if (default 0 (CreateProductInput.stock input) <? 0)%Z then
    (Return (OldSchema3.product_failure "Stock cannot be negative."), st)
  else
    match db_fault st (InsertProduct (product_row input price st)) with
    | Some msg =>
        (Return {| CreateProductPayload.product := None;
                   CreateProductPayload.success := false;
                   CreateProductPayload.message := "Error creating product.";
                   CreateProductPayload.errors := [msg] |}, st)
    | None =>
        (Return {| CreateProductPayload.product := Some (product_row input price st);
                   CreateProductPayload.success := true;
                   CreateProductPayload.message := "Product created.";
                   CreateProductPayload.errors := [] |},
         apply_op (InsertProduct (product_row input price st)) st)
    end.
Proof.
  intros Hprice. unfold OldSchema3.CreateProduct_mutate. rewrite Hprice. cbn [le_zero].
  destruct (Dec.coef price <=? 0)%Z; [reflexivity |].
  destruct (default 0 (CreateProductInput.stock input) <? 0)%Z; [reflexivity |].
  unfold try_except, bind. rewrite Product_objects_create_run.
  fold (product_row input price st). now destruct (db_fault st _).
Qed.

(** The earliest mutation on such a price. *)
Lemma CreateProduct_mutate_run1 input price st :
  Dec.of_str (CreateProductInput.price input) = Some (Dec.Fin price) ->
  OldSchema.CreateProduct_mutate input st =
  if (Dec.coef price <=? 0)%Z then
    (Return (OldSchema.product_failure "Price must be positive."), st)
  else if (default 0 (CreateProductInput.stock input) <? 0)%Z then
    (Return (OldSchema.product_failure "Stock cannot be negative."), st)
  else
    match db_fault st (InsertProduct (product_row input price st)) with
    | Some msg => (Raise (DatabaseError msg), st)
    | None =>
        (Return {| OldSchema.CreateProductPayload.product :=
                     Some (product_row input price st);
                   OldSchema.CreateProductPayload.success := true;
                   OldSchema.CreateProductPayload.message := "Product created." |},
         apply_op (InsertProduct (product_row input price st)) st)
    end.
Proof.
  intros Hprice. unfold OldSchema.CreateProduct_mutate. rewrite Hprice. cbn [le_zero].
  destruct (Dec.coef price <=? 0)%Z; [reflexivity |].
  destruct (default 0 (CreateProductInput.stock input) <? 0)%Z; [reflexivity |].
  unfold bind. rewrite Product_objects_create_run.
  fold (product_row input price st). now destruct (db_fault st _).
Qed.

(** A price that reads as NaN makes the comparison with zero raise, in
    both variants; an infinite price is refused or fails at the insert.
    Either way nothing is stored. *)
Lemma CreateProduct_mutate_not_finite input st :
  (forall price, Dec.of_str (CreateProductInput.price input) <> Some (Dec.Fin price)) ->
  (OldSchema3.CreateProduct_mutate input st).2 = st
  /\ (OldSchema.CreateProduct_mutate input st).2 = st.
Proof.
  intros Hprice. unfold OldSchema3.CreateProduct_mutate, OldSchema.CreateProduct_mutate.
  destruct (Dec.of_str (CreateProductInput.price input)) as [[price|[]|]|];
    [now destruct (Hprice price) | | | | ]; cbn [le_zero]; try (split; reflexivity);
    destruct (default 0 (CreateProductInput.stock input) <? 0)%Z; split; reflexivity.
Qed.

(** Whatever the input, a product is stored only for a finite positive
    price and a stock that is not negative. *)
Lemma CreateProduct_mutate_stores_valid input st :
  (OldSchema3.CreateProduct_mutate input st).2 <> st
  \/ (OldSchema.CreateProduct_mutate input st).2 <> st ->
  exists price,
    Dec.of_str (CreateProductInput.price input) = Some (Dec.Fin price)
    /\ (0 < Dec.coef price)%Z
    /\ (0 <= default 0 (CreateProductInput.stock input))%Z.
Proof.
  intros Hchanged.
  destruct (Dec.of_str (CreateProductInput.price input)) as [[price|neg|]|] eqn:Eprice.
  - exists price. split; [reflexivity |].
    rewrite (CreateProduct_mutate_run3 _ _ _ Eprice),
      (CreateProduct_mutate_run1 _ _ _ Eprice) in Hchanged.
    destruct (Z.leb_spec (Dec.coef price) 0%Z); [now destruct Hchanged |].
    destruct (Z.ltb_spec (default 0%Z (CreateProductInput.stock input)) 0%Z);
      [now destruct Hchanged | split; lia].
  - destruct (CreateProduct_mutate_not_finite input st) as [H3 H1];
      [rewrite Eprice; discriminate | now destruct Hchanged].
  - destruct (CreateProduct_mutate_not_finite input st) as [H3 H1];
      [rewrite Eprice; discriminate | now destruct Hchanged].
  - destruct (CreateProduct_mutate_not_finite input st) as [H3 H1];
      [rewrite Eprice; discriminate | now destruct Hchanged].
Qed.

End ProductCreation.




(** ** The low-stock filter and the final newline *)

Section LowStock.

(** A threshold [int] does not convert, for want of a type or of a
    value, leaves the set as it is. *)
Lemma filter_low_stock_ignored queryset name v :
  Filters.int v = Raise TypeError \/ Filters.int v = Raise ValueError ->
  Filters.filter_low_stock queryset name v = Return queryset.
Proof. unfold Filters.filter_low_stock. now intros [-> | ->]. Qed.

Lemma filter_low_stock_text queryset name s :
  Py.int_of_str s = None ->
  Filters.filter_low_stock queryset name (Filters.PyStr s) = Return queryset.
Proof.
  intros Hs. apply filter_low_stock_ignored. right. cbn. now rewrite Hs.
Qed.

Example filter_low_stock_abc queryset :
  Filters.filter_low_stock queryset "low_stock" (Filters.PyStr "abc") = Return queryset.
Proof. now apply filter_low_stock_text. Qed.

(** A threshold [int] converts to [n] keeps exactly the products whose
    stock is below [n]. *)
Lemma filter_low_stock_kept queryset name v n :
  Filters.int v = Return n ->
  exists kept,
    Filters.filter_low_stock queryset name v = Return kept
    /\ forall p, p ∈ kept <-> p ∈ queryset /\ (Product.stock p < n)%Z.
Proof.
  intros Hn. unfold Filters.filter_low_stock. rewrite Hn.
  exists (Filters.stock__lt n queryset). split; [reflexivity |].
  intros p. unfold Filters.stock__lt. rewrite !list_elem_of_In, filter_In.
  now rewrite Z.ltb_lt.
Qed.

(** The integral part of a decimal: rounding is toward zero. *)
Lemma trunc_fraction d :
  (Dec.expo d < 0)%Z -> Dec.trunc d = (Dec.coef d ÷ 10 ^ (- Dec.expo d))%Z.
Proof.
  intros He. unfold Dec.trunc. destruct (Z.leb_spec 0 (Dec.expo d)); [lia | reflexivity].
Qed.

End LowStock.

(** C8, on the code: the threshold 2.5 is cut to 2 before the
    comparison, so a product with 2 in stock, which is below 2.5, is
    dropped; the text "abc" leaves the set as it is, and an integer
    threshold is applied as it stands. *)
Theorem low_stock_cuts_fractional_threshold :
  Filters.filter_low_stock [two_in_stock] "low_stock"
    (Filters.PyDecimal (Dec.Fin two_and_a_half)) = Return []
  /\ (inject_Z (Product.stock two_in_stock) < Dec.value two_and_a_half)%Q
  /\ Filters.filter_low_stock [two_in_stock] "low_stock" (Filters.PyStr "abc")
     = Return [two_in_stock]
  /\ Filters.filter_low_stock [two_in_stock] "low_stock" (Filters.PyInt 3)
     = Return [two_in_stock].
Proof. repeat split. Qed.

(** C4, on the code: both patterns end with [$], which also holds before
    a final newline, so the validator accepts a text of either format
    followed by a newline, which is not of the format; the three texts
    the claim names are rejected, the absent and the empty phone are
    accepted. *)
Theorem phone_validator_accepts_final_newline :
  is_valid_phone (Some ("+1234567" ++ nl)) = true
  /\ validate_phone (Some ("+1234567" ++ nl)) = true
  /\ phone_format ("+1234567" ++ nl) = false
  /\ is_valid_phone (Some ("123-456-7890" ++ nl)) = true
  /\ phone_format ("123-456-7890" ++ nl) = false
  /\ is_valid_phone (Some "12345") = false
  /\ is_valid_phone (Some "abc") = false
  /\ is_valid_phone (Some "+123") = false
  /\ is_valid_phone None = true
  /\ is_valid_phone (Some "") = true.
Proof. repeat split. Qed.

(** ** Stored customers *)

Section StoredCustomers.
Context `{Backend}.

Lemma clean_phone_cases phone :
  clean_phone phone = None \/ exists p, phone = Some p /\ clean_phone phone = Some (Py.strip p).
Proof.
  unfold clean_phone. destruct phone as [p|]; [| now left].
  destruct (opt_truthy (Some p)); [right; eauto | now left].
Qed.

(** A phone the validation lets through is stored in one of the shapes
    of [phone_stored_ok]. *)
Lemma accepted_phone_ok input :
  phone_rejected input = false ->
  phone_stored_ok (clean_phone (CreateCustomerInput.phone input)).
Proof.
  unfold phone_rejected. intros Hok.
  destruct (clean_phone_cases (CreateCustomerInput.phone input)) as [-> | (p & _ & Hp)];
    [now left |].
  rewrite Hp in *. destruct (Py.strip p) as [|c s] eqn:Es; [right; now left |].
  cbn [opt_truthy Py.truthy andb] in Hok. apply negb_false_iff in Hok.
  rewrite <- Es in Hok. apply is_valid_phone_stripped in Hok as [Hok | Hok].
  - rewrite Es in Hok. discriminate.
  - right. right. exists (Py.strip p). now rewrite <- Es.
Qed.

Lemma field_errors_nil input :
  field_errors input = [] ->
  Py.truthy (clean_name input) = true /\ Py.truthy (clean_email input) = true
  /\ phone_rejected input = false.
Proof.
  unfold field_errors.
  destruct (Py.truthy (clean_name input)), (Py.truthy (clean_email input)),
    (phone_rejected input); cbn [app]; intros Hnil; try discriminate. auto.
Qed.

Lemma first_violation_none_phone rec st :
  first_violation rec st = None -> phone_rejected rec = false.
Proof.
  unfold first_violation.
  destruct (negb (Py.truthy (clean_name rec))); [discriminate |].
  destruct (negb (Py.truthy (clean_email rec))); [discriminate |].
  now destruct (phone_rejected rec).
Qed.

Lemma insert_customer_phones st name email phone :
  phones_valid st -> phone_stored_ok phone ->
  phones_valid (apply_op (InsertCustomer (new_customer st name email phone)) st).
Proof.
  intros Hst Hphone c Hc. cbn [apply_op crm_customer] in Hc.
  apply elem_of_app in Hc as [Hc | Hc]; [now apply Hst |].
  apply list_elem_of_singleton in Hc as ->. exact Hphone.
Qed.

Lemma bulk_outcome_phones message input : forall idx st,
  phones_valid st -> phones_valid (bulk_outcome message idx input st).2.
Proof.
  induction input as [|rec rest IH]; intros idx st Hst; [exact Hst |].
  cbn [bulk_outcome]. destruct (first_violation rec st) as [v|] eqn:Ev.
  - specialize (IH (S idx) st Hst).
    now destruct (bulk_outcome message (S idx) rest st) as [[c e] st'].
  - apply first_violation_none_phone, accepted_phone_ok in Ev.
    specialize (IH (S idx) _ (insert_customer_phones st (clean_name rec)
      (clean_email rec) _ Hst Ev)).
    unfold record_row.
    now destruct (bulk_outcome message (S idx) rest _) as [[c e] st'].
Qed.

End StoredCustomers.

(** X1. Both phone validators accept exactly the absent phone, the empty
    text, and a text of one of the two formats, alone or followed by one
    newline; they agree on every input. *)
Theorem phone_validators_accept_exactly (phone : option string) :
  (is_valid_phone phone = true <->
   phone = None \/ phone = Some ""
   \/ exists t, phone_format t = true /\ (phone = Some t \/ phone = Some (t ++ nl)))
  /\ validate_phone phone = is_valid_phone phone.
Proof.
  split; [| reflexivity]. destruct phone as [s|].
  - rewrite is_valid_phone_accepts. split.
    + intros [-> | (t & Ht & [-> | ->])]; [right; now left | |];
        right; right; exists t; auto.
    + intros [Hn | [Hs | (t & Ht & [Hs | Hs])]]; try discriminate;
        inversion Hs; subst; [now left | |]; right; exists t; auto.
  - split; [now left | reflexivity].
Qed.

(** X2. The mutations keep the stored phones valid: when every stored
    customer has no phone, an empty phone or a phone of one of the two
    formats, the same holds after a customer creation and after a bulk
    creation, in both variants. *)
Theorem stored_phones_stay_valid `{Backend} st input records :
  phones_valid st ->
  phones_valid (OldSchema3.CreateCustomer_mutate input st).2
  /\ phones_valid (OldSchema.CreateCustomer_mutate input st).2
  /\ phones_valid (OldSchema3.BulkCreateCustomers_mutate records st).2
  /\ phones_valid (OldSchema.BulkCreateCustomers_mutate records st).2.
Proof.
  intros Hst. rewrite CreateCustomer_mutate_run3, CreateCustomer_mutate_run1,
    BulkCreateCustomers_mutate_run3, BulkCreateCustomers_mutate_run1.
  split; [| split; [| split]].
  - destruct (field_errors input) eqn:Ef; [| exact Hst].
    destruct (email_taken st (clean_email input)); [exact Hst |].
    cbv zeta. destruct (db_fault st _); [exact Hst |].
    apply insert_customer_phones; [exact Hst |].
    now apply accepted_phone_ok, field_errors_nil.
  - destruct (negb _) eqn:Ev; [exact Hst |].
    destruct (email_taken st (clean_email input)); [exact Hst |].
    cbv zeta. destruct (db_fault st _); [exact Hst |].
    apply insert_customer_phones; [exact Hst |].
    apply accepted_phone_ok. now rewrite <- phone_rejected_validate.
  - now apply bulk_outcome_phones.
  - now apply bulk_outcome_phones.
Qed.

Lemma stored_phones_stay_valid_witness :
  phones_valid example_store
  /\ phones_valid
       (@OldSchema3.CreateCustomer_mutate example_backend new_customer_input
          example_store).2
  /\ (@OldSchema3.CreateCustomer_mutate example_backend new_customer_input
        example_store).2
     = apply_op (InsertCustomer
         {| Customer.id := 2; Customer.name := "Bob"; Customer.email := "bob@x.com";
            Customer.phone := Some "123-456-7890" |}) example_store.
Proof.
  assert (phones_valid example_store) as Hst.
  { intros c Hc. apply list_elem_of_singleton in Hc as ->. now left. }
  split; [exact Hst |]. split; [| reflexivity].
  apply (@stored_phones_stay_valid example_backend example_store new_customer_input []
           Hst).
Defined.

(** X3. The payloads of the revised create-customer. Whenever it returns
    a payload, that payload reports a success exactly when no field rule
    is violated, the email is free and the database accepts the insert.
    A failure payload carries no customer and at least one error, and
    the store is left as it was; a success payload carries no error and
    the one customer added to the store, whose name is the trimmed name,
    whose email is the trimmed email in lower case, and whose key is
    above every key in use. *)
Theorem create_customer_payload_shape `{Backend} st input p st' :
  OldSchema3.CreateCustomer_mutate input st = (Return p, st') ->
  (CreateCustomerPayload.success p = true
   <-> field_errors input = []
       /\ email_taken st (clean_email input) = false
       /\ db_fault st (InsertCustomer (record_row input st)) = None)
  /\ ((CreateCustomerPayload.success p = false
       /\ CreateCustomerPayload.customer p = None
       /\ CreateCustomerPayload.errors p <> []
       /\ st' = st)
      \/ (CreateCustomerPayload.success p = true
          /\ CreateCustomerPayload.errors p = []
          /\ exists c,
               CreateCustomerPayload.customer p = Some c
               /\ Customer.name c = Py.strip (CreateCustomerInput.name input)
               /\ Customer.email c
                  = Py.lower (Py.strip (CreateCustomerInput.email input))
               /\ crm_customer st' = (crm_customer st ++ [c])%list
               /\ crm_product st' = crm_product st
               /\ crm_order st' = crm_order st
               /\ forall c', c' ∈ crm_customer st -> (Customer.id c' < Customer.id c)%Z)).
Proof.
  rewrite CreateCustomer_mutate_run3. unfold record_row.
  destruct (field_errors input) as [|e errors].
  - destruct (email_taken st (clean_email input)).
    + intros [= <- <-]. split; [split; [discriminate | now intros (_ & ? & _)] |].
      left. now repeat split.
    + cbv zeta. destruct (db_fault st _) as [msg|].
      * intros [= <- <-]. split; [split; [discriminate | now intros (_ & _ & ?)] |].
        left. now repeat split.
      * intros [= <- <-]. split; [now split |]. right. split; [reflexivity |].
        split; [reflexivity |]. eexists. split; [reflexivity |].
        repeat split. intros c' Hc'. cbn [new_customer Customer.id].
        apply next_pk_above. now apply list_elem_of_fmap_2.
  - intros [= <- <-]. split; [split; [discriminate | now intros (? & _)] |].
    left. now repeat split.
Qed.

Lemma create_customer_payload_shape_witness :
  @OldSchema3.CreateCustomer_mutate example_backend new_customer_input example_store
  = (Return {| CreateCustomerPayload.customer := Some customer_Bob;
               CreateCustomerPayload.success := true;
               CreateCustomerPayload.message := "Customer created.";
               CreateCustomerPayload.errors := [] |},
     apply_op (InsertCustomer customer_Bob) example_store)
  /\ field_errors new_customer_input = []
  /\ email_taken example_store (clean_email new_customer_input) = false
  /\ @OldSchema3.CreateCustomer_mutate example_backend blank_customer_input example_store
     = (Return {| CreateCustomerPayload.customer := None;
                  CreateCustomerPayload.success := false;
                  CreateCustomerPayload.message := "Validation failed.";
                  CreateCustomerPayload.errors := [name_error; email_error; phone_error] |},
        example_store)
  /\ field_errors blank_customer_input <> [].
Proof.
  assert (@OldSchema3.CreateCustomer_mutate example_backend new_customer_input
            example_store
          = (Return {| CreateCustomerPayload.customer := Some customer_Bob;
                       CreateCustomerPayload.success := true;
                       CreateCustomerPayload.message := "Customer created.";
                       CreateCustomerPayload.errors := [] |},
             apply_op (InsertCustomer customer_Bob) example_store)) as Hrun
    by reflexivity.
  assert (@OldSchema3.CreateCustomer_mutate example_backend blank_customer_input
            example_store
          = (Return {| CreateCustomerPayload.customer := None;
                       CreateCustomerPayload.success := false;
                       CreateCustomerPayload.message := "Validation failed.";
                       CreateCustomerPayload.errors :=
                         [name_error; email_error; phone_error] |},
             example_store)) as Hblank by reflexivity.
  destruct (@create_customer_payload_shape example_backend example_store
              new_customer_input _ _ Hrun) as [[Hsuccess _] _].
  destruct (Hsuccess eq_refl) as (Hfields & Hfree & _).
  destruct (@create_customer_payload_shape example_backend example_store
              blank_customer_input _ _ Hblank) as [[_ Hfailure] _].
  split; [exact Hrun |]. split; [exact Hfields |]. split; [exact Hfree |].
  split; [exact Hblank |]. intros Hnil.
  discriminate Hnil.
Defined.

(** X4. When the database refuses the insert of a customer that passed
    every check, the revised variant returns the failure payload
    "Error creating customer." with the message of the database, while
    the earliest variant lets the exception out; nothing is stored. *)
Theorem create_customer_database_refusal `{Backend} st input msg :
  field_errors input = [] ->
  email_taken st (clean_email input) = false ->
  db_fault st (InsertCustomer (record_row input st)) = Some msg ->
  OldSchema3.CreateCustomer_mutate input st =
    (Return {| CreateCustomerPayload.customer := None;
               CreateCustomerPayload.success := false;
               CreateCustomerPayload.message := "Error creating customer.";
               CreateCustomerPayload.errors := [msg] |}, st)
  /\ OldSchema.CreateCustomer_mutate input st = (Raise (DatabaseError msg), st).
Proof.
  intros Hf Hfree Hdb. unfold record_row in Hdb.
  rewrite CreateCustomer_mutate_run3, CreateCustomer_mutate_run1, Hf, Hfree.
  cbv zeta. rewrite Hdb. split; [reflexivity |].
  apply field_errors_nil in Hf as (_ & _ & Hp).
  rewrite phone_rejected_validate. fold (phone_rejected input). now rewrite Hp.
Qed.

Lemma create_customer_database_refusal_witness :
  field_errors new_customer_input = []
  /\ email_taken example_store (clean_email new_customer_input) = false
  /\ @OldSchema3.CreateCustomer_mutate refusing_backend new_customer_input example_store =
     (Return {| CreateCustomerPayload.customer := None;
                CreateCustomerPayload.success := false;
                CreateCustomerPayload.message := "Error creating customer.";
                CreateCustomerPayload.errors := ["database is locked"] |}, example_store)
  /\ @OldSchema.CreateCustomer_mutate refusing_backend new_customer_input example_store
     = (Raise (DatabaseError "database is locked"), example_store).
Proof.
  split; [reflexivity |]. split; [reflexivity |].
  apply (@create_customer_database_refusal refusing_backend example_store
           new_customer_input "database is locked"); reflexivity.
Defined.

(** ** Invariants of the store *)

Section Invariants.
Context `{Backend}.

Lemma NoDup_next_pk keys : NoDup keys -> NoDup (keys ++ [next_pk keys]).
Proof.
  intros Hkeys. apply NoDup_app. split; [exact Hkeys |]. split; [| apply NoDup_singleton].
  intros k Hk Hin. apply list_elem_of_singleton in Hin.
  pose proof (next_pk_above keys k Hk). lia.
Qed.

Lemma insert_customer_keys st name email phone :
  keys_unique st ->
  keys_unique (apply_op (InsertCustomer (new_customer st name email phone)) st).
Proof.
  intros (Hc & Hp & Ho). split; [| split]; cbn [apply_op crm_customer crm_product crm_order];
    try assumption.
  rewrite fmap_app. now apply NoDup_next_pk.
Qed.

Lemma insert_product_keys st name price stock :
  keys_unique st ->
  keys_unique (apply_op (InsertProduct (new_product st name price stock)) st).
Proof.
  intros (Hc & Hp & Ho). split; [| split]; cbn [apply_op crm_customer crm_product crm_order];
    try assumption.
  rewrite fmap_app. now apply NoDup_next_pk.
Qed.

Lemma insert_order_keys st customer date products :
  keys_unique st ->
  keys_unique (apply_op (InsertOrder (new_order st customer date products)) st).
Proof.
  intros (Hc & Hp & Ho). split; [| split]; cbn [apply_op crm_customer crm_product crm_order];
    try assumption.
  rewrite fmap_app. now apply NoDup_next_pk.
Qed.

Lemma insert_customer_lowercase st input :
  stored_lowercase st ->
  stored_lowercase (apply_op (InsertCustomer (record_row input st)) st).
Proof.
  intros Hst c Hc. cbn [apply_op crm_customer] in Hc.
  apply elem_of_app in Hc as [Hc | Hc]; [now apply Hst |].
  apply list_elem_of_singleton in Hc as ->. apply lower_idempotent.
Qed.

(** What holds of the store before a bulk creation and is kept by the
    insert of a record without violation holds after it. *)
Lemma bulk_outcome_keeps (P : Store -> Prop) message :
  (forall rec st, P st -> first_violation rec st = None ->
                  P (apply_op (InsertCustomer (record_row rec st)) st)) ->
  forall input idx st, P st -> P (bulk_outcome message idx input st).2.
Proof.
  intros Hstep input. induction input as [|rec rest IH]; intros idx st Hst; [exact Hst |].
  cbn [bulk_outcome]. destruct (first_violation rec st) as [v|] eqn:Ev.
  - specialize (IH (S idx) st Hst).
    now destruct (bulk_outcome message (S idx) rest st) as [[c e] st'].
  - specialize (IH (S idx) _ (Hstep rec st Hst Ev)).
    now destruct (bulk_outcome message (S idx) rest _) as [[c e] st'].
Qed.

(** The store a customer creation leaves: the one it found, or that one
    with the row of the input added. *)
Lemma CreateCustomer_mutate_store input st :
  ((OldSchema3.CreateCustomer_mutate input st).2 = st
   \/ (OldSchema3.CreateCustomer_mutate input st).2
      = apply_op (InsertCustomer (record_row input st)) st)
  /\ ((OldSchema.CreateCustomer_mutate input st).2 = st
      \/ (OldSchema.CreateCustomer_mutate input st).2
         = apply_op (InsertCustomer (record_row input st)) st).
Proof.
  rewrite CreateCustomer_mutate_run3, CreateCustomer_mutate_run1. unfold record_row. split.
  - destruct (field_errors input); [| now left].
    destruct (email_taken st (clean_email input)); [now left |].
    cbv zeta. destruct (db_fault st _); [now left | now right].
  - destruct (negb _); [now left |].
    destruct (email_taken st (clean_email input)); [now left |].
    cbv zeta. destruct (db_fault st _); [now left | now right].
Qed.

(** The same for a product creation. *)
Lemma CreateProduct_mutate_store input st :
  ((OldSchema3.CreateProduct_mutate input st).2 = st
   \/ exists price, (OldSchema3.CreateProduct_mutate input st).2
                    = apply_op (InsertProduct (product_row input price st)) st)
  /\ ((OldSchema.CreateProduct_mutate input st).2 = st
      \/ exists price, (OldSchema.CreateProduct_mutate input st).2
                       = apply_op (InsertProduct (product_row input price st)) st).
Proof.
  destruct (Dec.of_str (CreateProductInput.price input)) as [[price|neg|]|] eqn:Eprice.
  - rewrite (CreateProduct_mutate_run3 _ _ _ Eprice), (CreateProduct_mutate_run1 _ _ _ Eprice).
    destruct (Dec.coef price <=? 0)%Z; [split; now left |].
    destruct (default 0 (CreateProductInput.stock input) <? 0)%Z; [split; now left |].
    destruct (db_fault st _); [split; now left | split; right; now exists price].
  - destruct (CreateProduct_mutate_not_finite input st) as [H3 H1];
      [rewrite Eprice; discriminate | split; now left].
  - destruct (CreateProduct_mutate_not_finite input st) as [H3 H1];
      [rewrite Eprice; discriminate | split; now left].
  - destruct (CreateProduct_mutate_not_finite input st) as [H3 H1];
      [rewrite Eprice; discriminate | split; now left].
Qed.

(** The same for an order creation: it lets [decimal.InvalidOperation]
    out, of the lookup of a row that cannot be read, or it returns a
    payload. *)
Lemma CreateOrder_mutate_outcome input st :
  (OldSchema3.CreateOrder_mutate input st = (Raise InvalidOperation, st)
   \/ exists p st',
     OldSchema3.CreateOrder_mutate input st = (Return p, st')
     /\ ((CreateOrderPayload.success p = false /\ CreateOrderPayload.order p = None
          /\ CreateOrderPayload.errors p <> [] /\ st' = st)
         \/ exists customer date,
              lookup_customer st (CreateOrderInput.customer_id input) = Some customer
              /\ CreateOrderInput.product_ids input <> []
              /\ unresolved st (CreateOrderInput.product_ids input) = []
              /\ p = order_created (new_order st customer date
                       (resolved st (CreateOrderInput.product_ids input)))
              /\ st' = apply_op (InsertOrder (new_order st customer date
                         (resolved st (CreateOrderInput.product_ids input)))) st))
  /\ (OldSchema.CreateOrder_mutate input st = (Raise InvalidOperation, st)
   \/ exists p st',
     OldSchema.CreateOrder_mutate input st = (Return p, st')
     /\ ((CreateOrderPayload.success p = false /\ CreateOrderPayload.order p = None
          /\ CreateOrderPayload.errors p <> [] /\ st' = st)
         \/ exists customer date,
              lookup_customer st (CreateOrderInput.customer_id input) = Some customer
              /\ CreateOrderInput.product_ids input <> []
              /\ unresolved st (CreateOrderInput.product_ids input) = []
              /\ p = order_created (new_order st customer date
                       (resolved st (CreateOrderInput.product_ids input)))
              /\ st' = apply_op (InsertOrder (new_order st customer date
                         (resolved st (CreateOrderInput.product_ids input)))) st)).
Proof.
  rewrite CreateOrder_mutate_run3, CreateOrder_mutate_run1.
  destruct (lookup_customer st _) as [customer|] eqn:Ec;
    [| split; right; do 2 eexists; (split; [reflexivity |]); left; now repeat split].
  destruct (CreateOrderInput.product_ids input) as [|pid rest] eqn:Eids;
    [split; right; do 2 eexists; (split; [reflexivity |]); left; now repeat split |].
  rewrite <- Eids.
  destruct (existsb (unreadable st) (CreateOrderInput.product_ids input));
    [split; now left |].
  destruct (unresolved st (CreateOrderInput.product_ids input)) as [|u us] eqn:Eun;
    [| split; right; do 2 eexists; (split; [reflexivity |]); left; now repeat split].
  cbn [fmap list_fmap]. split; right.
  - destruct (atomic_place_order customer
                (default now (OldSchema3.parse_order_date
                                (CreateOrderInput.order_date input)))
                (resolved st (CreateOrderInput.product_ids input)) st)
      as [-> | [msg ->]]; do 2 eexists; (split; [reflexivity |]).
    + right. do 2 eexists. repeat split; try eassumption. rewrite Eids. discriminate.
    + left. now repeat split.
  - destruct (atomic_place_order customer now
                (resolved st (CreateOrderInput.product_ids input)) st)
      as [-> | [msg ->]]; do 2 eexists; (split; [reflexivity |]).
    + right. do 2 eexists. repeat split; try eassumption. rewrite Eids. discriminate.
    + left. now repeat split.
Qed.

Lemma CreateOrder_mutate_store input st :
  ((OldSchema3.CreateOrder_mutate input st).2 = st
   \/ exists customer date products,
        (OldSchema3.CreateOrder_mutate input st).2
        = apply_op (InsertOrder (new_order st customer date products)) st)
  /\ ((OldSchema.CreateOrder_mutate input st).2 = st
      \/ exists customer date products,
           (OldSchema.CreateOrder_mutate input st).2
           = apply_op (InsertOrder (new_order st customer date products)) st).
Proof.
  destruct (CreateOrder_mutate_outcome input st)
    as [[-> | (p3 & s3 & -> & H3)] [-> | (p1 & s1 & -> & H1)]]; cbn [snd]; split;
    try (now left).
  - destruct H1 as [(_ & _ & _ & ->) | (c & d & _ & _ & _ & _ & ->)];
      [now left | right; eauto].
  - destruct H3 as [(_ & _ & _ & ->) | (c & d & _ & _ & _ & _ & ->)];
      [now left | right; eauto].
  - destruct H3 as [(_ & _ & _ & ->) | (c & d & _ & _ & _ & _ & ->)];
      [now left | right; eauto].
  - destruct H1 as [(_ & _ & _ & ->) | (c & d & _ & _ & _ & _ & ->)];
      [now left | right; eauto].
Qed.

End Invariants.

(** X5. No email is ever stored twice: when the stored emails are
    pairwise distinct, they still are after a customer creation and
    after a bulk creation, in both variants, duplicates inside one
    batch included. *)
Theorem customer_emails_stay_unique `{Backend} st input records :
  emails_unique st ->
  emails_unique (OldSchema3.CreateCustomer_mutate input st).2
  /\ emails_unique (OldSchema.CreateCustomer_mutate input st).2
  /\ emails_unique (OldSchema3.BulkCreateCustomers_mutate records st).2
  /\ emails_unique (OldSchema.BulkCreateCustomers_mutate records st).2.
Proof.
  intros Hst. destruct (CreateCustomer_mutate_unique input st Hst) as [H3 H1].
  rewrite BulkCreateCustomers_mutate_run3, BulkCreateCustomers_mutate_run1.
  repeat split; try assumption; now apply bulk_outcome_unique.
Qed.

Lemma customer_emails_stay_unique_witness :
  emails_unique example_store
  /\ emails_unique
       (@OldSchema3.BulkCreateCustomers_mutate example_backend
          [record_A; record_unnamed; record_C] example_store).2.
Proof.
  assert (emails_unique example_store) as Hst by apply NoDup_singleton.
  split; [exact Hst |].
  apply (@customer_emails_stay_unique example_backend example_store record_A
           [record_A; record_unnamed; record_C] Hst).
Defined.

(** X6. Emails are stored in lower case only: when every stored email is
    its own lower-case form, so it is after a customer creation and
    after a bulk creation, in both variants. *)
Theorem customer_emails_stay_lowercase `{Backend} st input records :
  stored_lowercase st ->
  stored_lowercase (OldSchema3.CreateCustomer_mutate input st).2
  /\ stored_lowercase (OldSchema.CreateCustomer_mutate input st).2
  /\ stored_lowercase (OldSchema3.BulkCreateCustomers_mutate records st).2
  /\ stored_lowercase (OldSchema.BulkCreateCustomers_mutate records st).2.
Proof.
  intros Hst. destruct (CreateCustomer_mutate_store input st) as [H3 H1].
  rewrite BulkCreateCustomers_mutate_run3, BulkCreateCustomers_mutate_run1.
  split; [| split; [| split]].
  - destruct H3 as [-> | ->]; [exact Hst | now apply insert_customer_lowercase].
  - destruct H1 as [-> | ->]; [exact Hst | now apply insert_customer_lowercase].
  - apply bulk_outcome_keeps; [| exact Hst]. intros rec s Hs _.
    now apply insert_customer_lowercase.
  - apply bulk_outcome_keeps; [| exact Hst]. intros rec s Hs _.
    now apply insert_customer_lowercase.
Qed.

Lemma customer_emails_stay_lowercase_witness :
  stored_lowercase example_store
  /\ stored_lowercase
       (@OldSchema3.CreateCustomer_mutate example_backend new_customer_input
          example_store).2.
Proof.
  assert (stored_lowercase example_store) as Hst.
  { intros c Hc. apply list_elem_of_singleton in Hc as ->. reflexivity. }
  split; [exact Hst |].
  apply (@customer_emails_stay_lowercase example_backend example_store
           new_customer_input [] Hst).
Defined.

(** X7. Keys stay unique: when no two customers, no two products and no
    two orders share a key, the same holds after each of the mutations,
    in both variants. *)
Theorem primary_keys_stay_unique `{Backend} st customer records product order :
  keys_unique st ->
  keys_unique (OldSchema3.CreateCustomer_mutate customer st).2
  /\ keys_unique (OldSchema.CreateCustomer_mutate customer st).2
  /\ keys_unique (OldSchema3.BulkCreateCustomers_mutate records st).2
  /\ keys_unique (OldSchema.BulkCreateCustomers_mutate records st).2
  /\ keys_unique (OldSchema3.CreateProduct_mutate product st).2
  /\ keys_unique (OldSchema.CreateProduct_mutate product st).2
  /\ keys_unique (OldSchema3.CreateOrder_mutate order st).2
  /\ keys_unique (OldSchema.CreateOrder_mutate order st).2.
Proof.
  intros Hst. destruct (CreateCustomer_mutate_store customer st) as [Hc3 Hc1].
  destruct (CreateProduct_mutate_store product st) as [Hp3 Hp1].
  destruct (CreateOrder_mutate_store order st) as [Ho3 Ho1].
  rewrite BulkCreateCustomers_mutate_run3, BulkCreateCustomers_mutate_run1.
  split; [| split; [| split; [| split; [| split; [| split; [| split]]]]]].
  - destruct Hc3 as [-> | ->]; [exact Hst | now apply insert_customer_keys].
  - destruct Hc1 as [-> | ->]; [exact Hst | now apply insert_customer_keys].
  - apply bulk_outcome_keeps; [| exact Hst]. intros rec s Hs _.
    now apply insert_customer_keys.
  - apply bulk_outcome_keeps; [| exact Hst]. intros rec s Hs _.
    now apply insert_customer_keys.
  - destruct Hp3 as [-> | [price ->]]; [exact Hst | now apply insert_product_keys].
  - destruct Hp1 as [-> | [price ->]]; [exact Hst | now apply insert_product_keys].
  - destruct Ho3 as [-> | (c & d & ps & ->)]; [exact Hst | now apply insert_order_keys].
  - destruct Ho1 as [-> | (c & d & ps & ->)]; [exact Hst | now apply insert_order_keys].
Qed.

Lemma primary_keys_stay_unique_witness :
  keys_unique example_store
  /\ keys_unique
       (@OldSchema3.CreateOrder_mutate example_backend example_order_input
          example_store).2.
Proof.
  assert (keys_unique example_store) as Hst.
  { repeat split; apply (bool_decide_unpack _); reflexivity. }
  split; [exact Hst |].
  apply (@primary_keys_stay_unique example_backend example_store new_customer_input []
           (product_input "10.5" 3) example_order_input Hst).
Defined.

(** ** Round trips and composition *)

Section RoundTrips.
Context `{Backend}.

Lemma lookup_new_customer st c :
  Customer.id c = next_pk (Customer.id <$> crm_customer st) ->
  lookup_customer (apply_op (InsertCustomer c) st) (id_text (Customer.id c)) = Some c.
Proof.
  intros Hid. unfold lookup_customer.
  rewrite id_text_reads by (rewrite Hid; pose proof (next_pk_positive
    (Customer.id <$> crm_customer st)); lia).
  cbn [mbind option_bind apply_op crm_customer]. apply find_fresh.
  - intros x Hx. apply Z.eqb_neq. rewrite Hid.
    assert (Customer.id x < next_pk (Customer.id <$> crm_customer st))%Z; [| lia].
    apply next_pk_above. now apply list_elem_of_fmap_2.
  - apply Z.eqb_refl.
Qed.

(** A reference that resolves keeps resolving, to the same row, in a
    store that has grown. *)
Lemma lookup_customer_grows st st' pk c :
  grows st st' -> lookup_customer st pk = Some c -> lookup_customer st' pk = Some c.
Proof.
  unfold lookup_customer. intros ([l ->] & _ & _).
  destruct (Py.int_of_str pk) as [k|]; [| discriminate].
  cbn [mbind option_bind]. apply find_kept.
Qed.

Lemma lookup_product_grows st st' pk pr :
  grows st st' -> lookup_product st pk = Some pr -> lookup_product st' pk = Some pr.
Proof.
  unfold lookup_product, stored_product. intros (_ & [l ->] & _).
  destruct (Py.int_of_str pk) as [k|]; [| discriminate].
  cbn [mbind option_bind].
  destruct (find _ (crm_product st)) as [row|] eqn:Erow; [| discriminate].
  now rewrite (find_kept _ _ l _ Erow).
Qed.

Lemma grows_refl st : grows st st.
Proof. now repeat split. Qed.

Lemma grows_trans st1 st2 st3 : grows st1 st2 -> grows st2 st3 -> grows st1 st3.
Proof.
  intros (Hc & Hp & Ho) (Hc' & Hp' & Ho').
  repeat split; etransitivity; eassumption.
Qed.

Lemma grows_insert_customer st c : grows st (apply_op (InsertCustomer c) st).
Proof. repeat split; cbn [apply_op crm_customer crm_product crm_order]; try reflexivity.
  now apply prefix_app_r. Qed.

Lemma grows_insert_product st pr : grows st (apply_op (InsertProduct pr) st).
Proof. repeat split; cbn [apply_op crm_customer crm_product crm_order]; try reflexivity.
  now apply prefix_app_r. Qed.

Lemma grows_insert_order st o : grows st (apply_op (InsertOrder o) st).
Proof. repeat split; cbn [apply_op crm_customer crm_product crm_order]; try reflexivity.
  now apply prefix_app_r. Qed.

(** What a customer creation that hands back a customer has done. *)
Lemma CreateCustomer_mutate_created input st st' c p3 p1 :
  (OldSchema3.CreateCustomer_mutate input st = (Return p3, st')
   /\ CreateCustomerPayload.customer p3 = Some c)
  \/ (OldSchema.CreateCustomer_mutate input st = (Return p1, st')
      /\ OldSchema.CreateCustomerPayload.customer p1 = Some c) ->
  c = record_row input st /\ st' = apply_op (InsertCustomer c) st
  /\ email_taken st (clean_email input) = false
  /\ phone_rejected input = false.
Proof.
  rewrite CreateCustomer_mutate_run3, CreateCustomer_mutate_run1. unfold record_row.
  intros [[Hrun Hc] | [Hrun Hc]].
  - destruct (field_errors input) eqn:Ef; [| failed Hrun Hc].
    apply field_errors_nil in Ef as (_ & _ & Hphone).
    destruct (email_taken st (clean_email input)); [failed Hrun Hc |].
    cbv zeta in Hrun. destruct (db_fault st _); [failed Hrun Hc |].
    inversion Hrun; subst. cbn in Hc. now inversion Hc.
  - rewrite phone_rejected_validate in Hrun.
    destruct (phone_rejected input); [failed Hrun Hc |].
    destruct (email_taken st (clean_email input)); [failed Hrun Hc |].
    cbv zeta in Hrun. destruct (db_fault st _); [discriminate Hrun |].
    inversion Hrun; subst. cbn in Hc. now inversion Hc.
Qed.

(** What a product creation that hands back a product has done. *)
Lemma CreateProduct_mutate_created input st st' pr p3 p1 :
  (OldSchema3.CreateProduct_mutate input st = (Return p3, st')
   /\ CreateProductPayload.product p3 = Some pr)
  \/ (OldSchema.CreateProduct_mutate input st = (Return p1, st')
      /\ OldSchema.CreateProductPayload.product p1 = Some pr) ->
  exists price,
    Dec.of_str (CreateProductInput.price input) = Some (Dec.Fin price)
    /\ (0 < Dec.coef price)%Z
    /\ (0 <= default 0 (CreateProductInput.stock input))%Z
    /\ pr = product_row input price st
    /\ st' = apply_op (InsertProduct pr) st.
Proof.
  destruct (Dec.of_str (CreateProductInput.price input)) as [[price|neg|]|] eqn:Eprice.
  - rewrite (CreateProduct_mutate_run3 _ _ _ Eprice), (CreateProduct_mutate_run1 _ _ _ Eprice).
    intros Hrun. exists price.
    destruct (Z.leb_spec (Dec.coef price) 0);
      [destruct Hrun as [[Hrun Hc] | [Hrun Hc]]; failed Hrun Hc |].
    destruct (Z.ltb_spec (default 0%Z (CreateProductInput.stock input)) 0);
      [destruct Hrun as [[Hrun Hc] | [Hrun Hc]]; failed Hrun Hc |].
    destruct (db_fault st _);
      [destruct Hrun as [[Hrun Hc] | [Hrun Hc]]; [failed Hrun Hc | discriminate Hrun] |].
    destruct Hrun as [[Hrun Hc] | [Hrun Hc]]; inversion Hrun; subst; cbn in Hc;
      inversion Hc; now repeat split.
  - unfold OldSchema3.CreateProduct_mutate, OldSchema.CreateProduct_mutate.
    rewrite Eprice. cbn [le_zero].
    destruct neg, (default 0 (CreateProductInput.stock input) <? 0)%Z;
      intros [[Hrun Hc] | [Hrun Hc]]; failed Hrun Hc.
  - unfold OldSchema3.CreateProduct_mutate, OldSchema.CreateProduct_mutate.
    rewrite Eprice. cbn [le_zero]. intros [[Hrun Hc] | [Hrun Hc]]; failed Hrun Hc.
  - unfold OldSchema3.CreateProduct_mutate, OldSchema.CreateProduct_mutate.
    rewrite Eprice. intros [[Hrun Hc] | [Hrun Hc]]; failed Hrun Hc.
Qed.

End RoundTrips.

(** X8. A customer a creation hands back, in either variant, is stored:
    [Customer.objects.get] with the text of its key, in the store the
    creation leaves, returns that very customer. *)
Theorem created_customer_is_found `{Backend} input st st' c p3 p1 :
  (OldSchema3.CreateCustomer_mutate input st = (Return p3, st')
   /\ CreateCustomerPayload.customer p3 = Some c)
  \/ (OldSchema.CreateCustomer_mutate input st = (Return p1, st')
      /\ OldSchema.CreateCustomerPayload.customer p1 = Some c) ->
  Customer_objects_get (id_text (Customer.id c)) st' = (Return c, st').
Proof.
  intros Hrun. apply CreateCustomer_mutate_created in Hrun as (Hc & -> & _).
  apply Customer_objects_get_found, lookup_new_customer. now rewrite Hc.
Qed.

Lemma created_customer_is_found_witness :
  ((@OldSchema3.CreateCustomer_mutate example_backend new_customer_input example_store
    = (Return {| CreateCustomerPayload.customer := Some customer_Bob;
                 CreateCustomerPayload.success := true;
                 CreateCustomerPayload.message := "Customer created.";
                 CreateCustomerPayload.errors := [] |},
       apply_op (InsertCustomer customer_Bob) example_store)
    /\ Some customer_Bob = Some customer_Bob)
   \/ (@OldSchema.CreateCustomer_mutate example_backend new_customer_input example_store
       = (Return {| OldSchema.CreateCustomerPayload.customer := Some customer_Bob;
                    OldSchema.CreateCustomerPayload.success := true;
                    OldSchema.CreateCustomerPayload.message := "Customer created." |},
          apply_op (InsertCustomer customer_Bob) example_store)
       /\ Some customer_Bob = Some customer_Bob))
  /\ Customer_objects_get "2"
       (apply_op (InsertCustomer customer_Bob) example_store)
     = (Return customer_Bob, apply_op (InsertCustomer customer_Bob) example_store).
Proof.
  split; [left; split; reflexivity |].
  apply (@created_customer_is_found example_backend new_customer_input example_store
           (apply_op (InsertCustomer customer_Bob) example_store) customer_Bob
           {| CreateCustomerPayload.customer := Some customer_Bob;
              CreateCustomerPayload.success := true;
              CreateCustomerPayload.message := "Customer created.";
              CreateCustomerPayload.errors := [] |}
           {| OldSchema.CreateCustomerPayload.customer := Some customer_Bob;
              OldSchema.CreateCustomerPayload.success := true;
              OldSchema.CreateCustomerPayload.message := "Customer created." |}).
  left. split; reflexivity.
Defined.

(** X9. The mutations only add rows: after each of them, in both
    variants, every table holds the rows it held, in their place and
    unchanged, and possibly new rows after them. A reference that
    resolved to a customer or to a product before resolves to the same
    row after. *)
Theorem mutations_only_add_rows `{Backend} st customer records product order :
  let after :=
    [ (OldSchema3.CreateCustomer_mutate customer st).2;
      (OldSchema.CreateCustomer_mutate customer st).2;
      (OldSchema3.BulkCreateCustomers_mutate records st).2;
      (OldSchema.BulkCreateCustomers_mutate records st).2;
      (OldSchema3.CreateProduct_mutate product st).2;
      (OldSchema.CreateProduct_mutate product st).2;
      (OldSchema3.CreateOrder_mutate order st).2;
      (OldSchema.CreateOrder_mutate order st).2 ] in
  forall st', st' ∈ after ->
    grows st st'
    /\ (forall pk c, lookup_customer st pk = Some c -> lookup_customer st' pk = Some c)
    /\ (forall pk pr, lookup_product st pk = Some pr -> lookup_product st' pk = Some pr).
Proof.
  intros after st' Hst'. assert (grows st st') as Hgrows.
  { destruct (CreateCustomer_mutate_store customer st) as [Hc3 Hc1].
    destruct (CreateProduct_mutate_store product st) as [Hp3 Hp1].
    destruct (CreateOrder_mutate_store order st) as [Ho3 Ho1].
    subst after. rewrite BulkCreateCustomers_mutate_run3, BulkCreateCustomers_mutate_run1
      in Hst'. cbn [snd] in Hst'.
    assert (forall message, grows st (bulk_outcome message 1 records st).2) as Hbulk.
    { intros message. apply (bulk_outcome_keeps (grows st)); [| apply grows_refl].
      intros rec s Hs _. eapply grows_trans; [exact Hs | apply grows_insert_customer]. }
    repeat (apply elem_of_cons in Hst' as [-> | Hst']).
    - destruct Hc3 as [-> | ->]; [apply grows_refl | apply grows_insert_customer].
    - destruct Hc1 as [-> | ->]; [apply grows_refl | apply grows_insert_customer].
    - apply Hbulk.
    - apply Hbulk.
    - destruct Hp3 as [-> | [price ->]]; [apply grows_refl | apply grows_insert_product].
    - destruct Hp1 as [-> | [price ->]]; [apply grows_refl | apply grows_insert_product].
    - destruct Ho3 as [-> | (c & d & ps & ->)]; [apply grows_refl | apply grows_insert_order].
    - destruct Ho1 as [-> | (c & d & ps & ->)]; [apply grows_refl | apply grows_insert_order].
    - now apply elem_of_nil in Hst'. }
  split; [exact Hgrows |]. split; intros pk x Hx.
  - now apply (lookup_customer_grows st).
  - now apply (lookup_product_grows st).
Qed.

Lemma mutations_only_add_rows_witness :
  apply_op (InsertCustomer customer_Bob) example_store
  ∈ [ (@OldSchema3.CreateCustomer_mutate example_backend new_customer_input
         example_store).2;
      (@OldSchema.CreateCustomer_mutate example_backend new_customer_input
         example_store).2;
      (@OldSchema3.BulkCreateCustomers_mutate example_backend [] example_store).2;
      (@OldSchema.BulkCreateCustomers_mutate example_backend [] example_store).2;
      (@OldSchema3.CreateProduct_mutate example_backend (product_input "10.5" 3)
         example_store).2;
      (@OldSchema.CreateProduct_mutate example_backend (product_input "10.5" 3)
         example_store).2;
      (@OldSchema3.CreateOrder_mutate example_backend example_order_input
         example_store).2;
      (@OldSchema.CreateOrder_mutate example_backend example_order_input
         example_store).2 ]
  /\ grows example_store (apply_op (InsertCustomer customer_Bob) example_store)
  /\ (forall pk c, lookup_customer example_store pk = Some c ->
       lookup_customer (apply_op (InsertCustomer customer_Bob) example_store) pk = Some c)
  /\ (forall pk pr, @lookup_product example_backend example_store pk = Some pr ->
       @lookup_product example_backend
         (apply_op (InsertCustomer customer_Bob) example_store) pk = Some pr).
Proof.
  assert (apply_op (InsertCustomer customer_Bob) example_store
          ∈ [ (@OldSchema3.CreateCustomer_mutate example_backend new_customer_input
                 example_store).2;
              (@OldSchema.CreateCustomer_mutate example_backend new_customer_input
                 example_store).2;
              (@OldSchema3.BulkCreateCustomers_mutate example_backend [] example_store).2;
              (@OldSchema.BulkCreateCustomers_mutate example_backend [] example_store).2;
              (@OldSchema3.CreateProduct_mutate example_backend (product_input "10.5" 3)
                 example_store).2;
              (@OldSchema.CreateProduct_mutate example_backend (product_input "10.5" 3)
                 example_store).2;
              (@OldSchema3.CreateOrder_mutate example_backend example_order_input
                 example_store).2;
              (@OldSchema.CreateOrder_mutate example_backend example_order_input
                 example_store).2 ]) as Hin by (apply elem_of_cons; left; reflexivity).
  split; [exact Hin |].
  exact (@mutations_only_add_rows example_backend example_store new_customer_input []
           (product_input "10.5" 3) example_order_input
           (apply_op (InsertCustomer customer_Bob) example_store) Hin).
Defined.

(** X10. The mutations compose: with a database that accepts every
    write, an order for a customer and a product that revised creations
    have just handed back, referred to by the texts of their keys, is
    created when the price of the product can be read back; it belongs
    to that customer, is associated with that product alone, and its
    total denotes the price as it is read back, which is the price given
    when the column keeps it. When the price cannot be read back, the
    lookup of the product lets [decimal.InvalidOperation] out of
    create-order. *)
Theorem order_for_created_rows `{Backend} cin pin st st1 st2 pc pp c pr :
  never_faults ->
  OldSchema3.CreateCustomer_mutate cin st = (Return pc, st1) ->
  CreateCustomerPayload.customer pc = Some c ->
  OldSchema3.CreateProduct_mutate pin st1 = (Return pp, st2) ->
  CreateProductPayload.product pp = Some pr ->
  match Product_from_db pr with
  | Return stored =>
      exists order,
        OldSchema3.CreateOrder_mutate (order_input_for c pr) st2
        = (Return (order_created order), apply_op (InsertOrder order) st2)
        /\ Order.customer order = Customer.id c
        /\ (forall k, k ∈ Order.products order <-> k = Product.id pr)
        /\ (Dec.value (Order.total_amount order) == Dec.value (Product.price stored))%Q
  | Raise _ =>
      OldSchema3.CreateOrder_mutate (order_input_for c pr) st2
      = (Raise InvalidOperation, st2)
  end
  /\ (column_keeps (Product.price pr) ->
      exists stored,
        Product_from_db pr = Return stored
        /\ (Dec.value (Product.price stored) == Dec.value (Product.price pr))%Q).
Proof.
  intros Hok Hc Hpc Hp Hpp.
  destruct (CreateCustomer_mutate_created cin st st1 c pc
              {| OldSchema.CreateCustomerPayload.customer := None;
                 OldSchema.CreateCustomerPayload.success := false;
                 OldSchema.CreateCustomerPayload.message := "" |}
              (or_introl (conj Hc Hpc))) as (Hrow & Hst1 & _).
  destruct (CreateProduct_mutate_created pin st1 st2 pr pp
              (OldSchema.product_failure "") (or_introl (conj Hp Hpp)))
    as (price & _ & _ & _ & Hprow & Hst2).
  assert (lookup_customer st2 (id_text (Customer.id c)) = Some c) as Hlc.
  { apply (lookup_customer_grows st1); [rewrite Hst2; apply grows_insert_product |].
    rewrite Hst1. apply lookup_new_customer. now rewrite Hrow. }
  assert (stored_product st2 (id_text (Product.id pr)) = Some pr) as Hsp.
  { rewrite Hst2. apply stored_new_product. now rewrite Hprow. }
  split.
  - rewrite CreateOrder_mutate_run3.
    cbn [order_input_for CreateOrderInput.customer_id CreateOrderInput.product_ids
         CreateOrderInput.order_date existsb].
    rewrite Hlc, unresolved_cons, resolved_cons. unfold unreadable, lookup_product.
    rewrite Hsp. cbn [mbind option_bind].
    destruct (Product_from_db pr) as [stored|exc] eqn:Eread; [| reflexivity].
    cbn [orb]. exists (new_order st2 c now [stored]).
    change (unresolved st2 []) with (@nil string).
    change (resolved st2 []) with (@nil Product.t).
    change (default now (OldSchema3.parse_order_date None)) with now.
    rewrite atomic_place_order_ok by exact Hok.
    split; [reflexivity |]. split; [reflexivity |]. split.
    + intros k. cbn [new_order Order.products]. rewrite elem_of_list_to_set.
      cbn [fmap list_fmap]. rewrite (Product_from_db_id _ _ Eread).
      apply list_elem_of_singleton.
    + cbn [new_order Order.total_amount]. rewrite value_sum_prices.
      unfold sum_values. cbn [foldr]. ring.
  - intros Hkeeps. rewrite (Product_from_db_keeps _ Hkeeps). eexists.
    split; [reflexivity |]. cbn [with_price Product.price].
    apply value_two_places, Hkeeps.
Qed.

Lemma order_for_created_rows_witness :
  @never_faults example_backend
  /\ (exists order,
       @OldSchema3.CreateOrder_mutate example_backend (order_input_for customer_Bob pencil)
         (apply_op (InsertProduct pencil)
            (apply_op (InsertCustomer customer_Bob) example_store))
       = (Return (order_created order),
          apply_op (InsertOrder order)
            (apply_op (InsertProduct pencil)
               (apply_op (InsertCustomer customer_Bob) example_store)))
       /\ Order.customer order = 2%Z
       /\ (forall k, k ∈ Order.products order <-> k = 3%Z)
       /\ (Dec.value (Order.total_amount order)
           == Dec.value {| Dec.coef := 1050; Dec.expo := -2 |})%Q)
  /\ @OldSchema3.CreateOrder_mutate example_backend
       (order_input_for customer_Bob costly_pencil)
       (apply_op (InsertProduct costly_pencil)
          (apply_op (InsertCustomer customer_Bob) example_store))
     = (Raise InvalidOperation,
        apply_op (InsertProduct costly_pencil)
          (apply_op (InsertCustomer customer_Bob) example_store)).
Proof.
  assert (@never_faults example_backend) as Hok by (intros st op; reflexivity).
  split; [exact Hok |]. split.
  - apply (@order_for_created_rows example_backend new_customer_input
             (product_input "10.5" 3) example_store
             (apply_op (InsertCustomer customer_Bob) example_store)
             (apply_op (InsertProduct pencil)
                (apply_op (InsertCustomer customer_Bob) example_store))
             {| CreateCustomerPayload.customer := Some customer_Bob;
                CreateCustomerPayload.success := true;
                CreateCustomerPayload.message := "Customer created.";
                CreateCustomerPayload.errors := [] |}
             {| CreateProductPayload.product := Some pencil;
                CreateProductPayload.success := true;
                CreateProductPayload.message := "Product created.";
                CreateProductPayload.errors := [] |}
             customer_Bob pencil Hok); reflexivity.
  - apply (@order_for_created_rows example_backend new_customer_input
             (product_input "100000000.0" 3) example_store
             (apply_op (InsertCustomer customer_Bob) example_store)
             (apply_op (InsertProduct costly_pencil)
                (apply_op (InsertCustomer customer_Bob) example_store))
             {| CreateCustomerPayload.customer := Some customer_Bob;
                CreateCustomerPayload.success := true;
                CreateCustomerPayload.message := "Customer created.";
                CreateCustomerPayload.errors := [] |}
             {| CreateProductPayload.product := Some costly_pencil;
                CreateProductPayload.success := true;
                CreateProductPayload.message := "Product created.";
                CreateProductPayload.errors := [] |}
             customer_Bob costly_pencil Hok); reflexivity.
Defined.

(** ** What a bulk creation stores *)

Section BulkStore.
Context `{Backend}.
Variable message : nat -> string -> violation -> string.

(** A bulk creation adds the customers it creates, in their order, after
    the stored ones, and touches nothing else. *)
Lemma bulk_outcome_store input : forall idx st,
  (bulk_outcome message idx input st).2 =
  {| crm_customer := (crm_customer st ++ (bulk_outcome message idx input st).1.1)%list;
     crm_product := crm_product st;
     crm_order := crm_order st |}.
Proof.
  induction input as [|rec rest IH]; intros idx st.
  - cbn. rewrite app_nil_r. now destruct st.
  - cbn [bulk_outcome]. destruct (first_violation rec st) as [v|].
    + specialize (IH (S idx) st).
      destruct (bulk_outcome message (S idx) rest st) as [[c e] st']. exact IH.
    + specialize (IH (S idx) (apply_op (InsertCustomer (record_row rec st)) st)).
      destruct (bulk_outcome message (S idx) rest _) as [[c e] st'].
      cbn [fst snd] in *. rewrite IH. cbn [apply_op crm_customer crm_product crm_order].
      now rewrite <- app_assoc.
Qed.

Lemma first_violation_none_fields rec st :
  first_violation rec st = None ->
  Py.truthy (clean_name rec) = true /\ Py.truthy (clean_email rec) = true.
Proof.
  unfold first_violation.
  destruct (Py.truthy (clean_name rec)); [| discriminate].
  now destruct (Py.truthy (clean_email rec)).
Qed.

Lemma email_taken_insert st c email :
  email_taken (apply_op (InsertCustomer c) st) email
  = email_taken st email || String.eqb (Customer.email c) email.
Proof.
  unfold email_taken. cbn [apply_op crm_customer].
  rewrite existsb_app. cbn [existsb]. now rewrite orb_false_r.
Qed.

(** The customers of one bulk creation are admissible and no two of them
    share an email. *)
Lemma bulk_outcome_created input : forall idx st,
  NoDup (Customer.email <$> (bulk_outcome message idx input st).1.1)
  /\ Forall (admissible st) (bulk_outcome message idx input st).1.1.
Proof.
  induction input as [|rec rest IH]; intros idx st.
  - cbn. split; constructor.
  - cbn [bulk_outcome]. destruct (first_violation rec st) as [v|] eqn:Ev.
    + specialize (IH (S idx) st).
      destruct (bulk_outcome message (S idx) rest st) as [[c e] st']. exact IH.
    + specialize (IH (S idx) (apply_op (InsertCustomer (record_row rec st)) st)).
      destruct (bulk_outcome message (S idx) rest _) as [[c e] st'].
      cbn [fst snd] in *. destruct IH as [Hnodup Hall].
      assert (forall x, x ∈ c ->
                email_taken st (Customer.email x) = false
                /\ Customer.email x <> clean_email rec) as Hnew.
      { intros x Hx. rewrite Forall_forall in Hall.
        destruct (Hall x Hx) as (_ & _ & Ht & _).
        rewrite email_taken_insert in Ht. apply orb_false_iff in Ht as [Ht Hne].
        split; [exact Ht |]. cbn in Hne. apply String.eqb_neq in Hne. congruence. }
      split.
      * cbn [fmap list_fmap]. apply NoDup_cons. split; [| exact Hnodup].
        intros Hin. apply list_elem_of_fmap in Hin as (x & Hx & Hxc).
        destruct (Hnew x Hxc) as [_ Hne]. apply Hne. now rewrite <- Hx.
      * constructor.
        -- destruct (first_violation_none_fields _ _ Ev) as [Hn He].
           repeat split; try assumption.
           ++ now apply first_violation_none.
           ++ apply accepted_phone_ok. now apply first_violation_none_phone in Ev.
        -- rewrite Forall_forall in Hall |- *. intros x Hx.
           destruct (Hall x Hx) as (Hn & He & _ & Hp).
           destruct (Hnew x Hx) as [Ht _]. now repeat split.
Qed.

End BulkStore.

(** X11. A bulk creation stores what it returns, and nothing else: in
    both variants the customers of the payload are added in their order
    after the stored customers, products and orders are left as they
    were, and the query that lists all customers, run after it, returns
    the stored customers followed by the created ones. *)
Theorem bulk_create_stores_what_it_returns `{Backend} input st :
  (exists p st',
     OldSchema3.BulkCreateCustomers_mutate input st = (Return p, st')
     /\ st' = {| crm_customer :=
                   (crm_customer st ++ BulkCreateCustomersPayload.customers p)%list;
                 crm_product := crm_product st; crm_order := crm_order st |}
     /\ OldSchema3.Query_resolve_all_customers st'
        = (Return (crm_customer st ++ BulkCreateCustomersPayload.customers p)%list, st'))
  /\ (exists p st',
     OldSchema.BulkCreateCustomers_mutate input st = (Return p, st')
     /\ st' = {| crm_customer :=
                   (crm_customer st ++ BulkCreateCustomersPayload.customers p)%list;
                 crm_product := crm_product st; crm_order := crm_order st |}
     /\ OldSchema.Query_resolve_customers st'
        = (Return (crm_customer st ++ BulkCreateCustomersPayload.customers p)%list, st')).
Proof.
  rewrite BulkCreateCustomers_mutate_run3, BulkCreateCustomers_mutate_run1.
  split; do 2 eexists; (split; [reflexivity |]);
    cbn [BulkCreateCustomersPayload.customers];
    (split; [apply bulk_outcome_store |]);
    unfold OldSchema3.Query_resolve_all_customers, OldSchema.Query_resolve_customers;
    now rewrite bulk_outcome_store at 1.
Qed.

(** X12. What a bulk creation creates, in both variants: no two created
    customers share an email, and each of them has a name and an email
    that are not empty, an email that no customer had before the call,
    and a phone that is absent, empty or of one of the two formats. *)
Theorem bulk_create_creates_admissible `{Backend} input st :
  (exists p st',
     OldSchema3.BulkCreateCustomers_mutate input st = (Return p, st')
     /\ NoDup (Customer.email <$> BulkCreateCustomersPayload.customers p)
     /\ Forall (admissible st) (BulkCreateCustomersPayload.customers p))
  /\ (exists p st',
     OldSchema.BulkCreateCustomers_mutate input st = (Return p, st')
     /\ NoDup (Customer.email <$> BulkCreateCustomersPayload.customers p)
     /\ Forall (admissible st) (BulkCreateCustomersPayload.customers p)).
Proof.
  rewrite BulkCreateCustomers_mutate_run3, BulkCreateCustomers_mutate_run1.
  split; do 2 eexists; (split; [reflexivity |]); apply bulk_outcome_created.
Qed.

(** X13. In the revised variant a bulk creation of one record does what
    the creation of a single customer does on the same input: both leave
    the same store, the bulk payload lists the customer of the single
    payload, if any, and it reports exactly one error when the single
    creation fails, none when it succeeds. *)
Theorem bulk_of_one_is_create_customer `{Backend} input st :
  exists pb pc st',
    OldSchema3.BulkCreateCustomers_mutate [input] st = (Return pb, st')
    /\ OldSchema3.CreateCustomer_mutate input st = (Return pc, st')
    /\ BulkCreateCustomersPayload.customers pb
       = option_list (CreateCustomerPayload.customer pc)
    /\ length (BulkCreateCustomersPayload.errors pb)
       = (if CreateCustomerPayload.success pc then 0 else 1)%nat.
Proof.
  rewrite BulkCreateCustomers_mutate_run3, CreateCustomer_mutate_run3.
  cbn [bulk_outcome]. unfold first_violation, field_errors, record_row.
  destruct (Py.truthy (clean_name input)), (Py.truthy (clean_email input)),
    (phone_rejected input); cbn [negb app];
    try (do 3 eexists; repeat split; reflexivity).
  destruct (email_taken st (clean_email input));
    [do 3 eexists; repeat split; reflexivity |].
  cbv zeta. destruct (db_fault st _); do 3 eexists; repeat split; reflexivity.
Qed.

(** X14. In the earliest variant, on an input whose name and email are
    not blank, the creation of a single customer and the bulk creation
    of that one record leave the same store, and the bulk payload lists
    the customer of the single payload; where the single creation
    raises, the bulk one reports an error and creates nothing. *)
Theorem earliest_bulk_of_one `{Backend} input st :
  Py.truthy (clean_name input) = true ->
  Py.truthy (clean_email input) = true ->
  exists pb st',
    OldSchema.BulkCreateCustomers_mutate [input] st = (Return pb, st')
    /\ (OldSchema.CreateCustomer_mutate input st).2 = st'
    /\ match (OldSchema.CreateCustomer_mutate input st).1 with
       | Return pc =>
           BulkCreateCustomersPayload.customers pb
           = option_list (OldSchema.CreateCustomerPayload.customer pc)
       | Raise _ =>
           BulkCreateCustomersPayload.customers pb = []
           /\ length (BulkCreateCustomersPayload.errors pb) = 1%nat
       end.
Proof.
  intros Hname Hemail.
  rewrite BulkCreateCustomers_mutate_run1, CreateCustomer_mutate_run1.
  cbn [bulk_outcome]. unfold first_violation, record_row.
  rewrite Hname, Hemail, phone_rejected_validate. cbn [negb].
  destruct (phone_rejected input); [do 2 eexists; repeat split; reflexivity |].
  destruct (email_taken st (clean_email input));
    [do 2 eexists; repeat split; reflexivity |].
  cbv zeta. destruct (db_fault st _); do 2 eexists; repeat split; reflexivity.
Qed.

Lemma earliest_bulk_of_one_witness :
  Py.truthy (clean_name new_customer_input) = true
  /\ Py.truthy (clean_email new_customer_input) = true
  /\ exists pb st',
       @OldSchema.BulkCreateCustomers_mutate example_backend [new_customer_input]
         example_store = (Return pb, st')
       /\ (@OldSchema.CreateCustomer_mutate example_backend new_customer_input
             example_store).2 = st'
       /\ match (@OldSchema.CreateCustomer_mutate example_backend new_customer_input
                   example_store).1 with
          | Return pc =>
              BulkCreateCustomersPayload.customers pb
              = option_list (OldSchema.CreateCustomerPayload.customer pc)
          | Raise _ =>
              BulkCreateCustomersPayload.customers pb = []
              /\ length (BulkCreateCustomersPayload.errors pb) = 1%nat
          end.
Proof.
  split; [reflexivity |]. split; [reflexivity |].
  apply (@earliest_bulk_of_one example_backend new_customer_input example_store);
    reflexivity.
Defined.

(** The hypotheses are needed: the earliest creation of a single
    customer checks neither the name nor the email, so that it stores
    the blank name the bulk creation refuses. *)
Example earliest_create_customer_blank_name :
  let input := {| CreateCustomerInput.name := "  ";
                  CreateCustomerInput.email := "z@x.com";
                  CreateCustomerInput.phone := None |} in
  (exists c,
     @OldSchema.CreateCustomer_mutate example_backend input example_store
     = (Return {| OldSchema.CreateCustomerPayload.customer := Some c;
                  OldSchema.CreateCustomerPayload.success := true;
                  OldSchema.CreateCustomerPayload.message := "Customer created." |},
        apply_op (InsertCustomer c) example_store)
     /\ Customer.name c = "")
  /\ @OldSchema.BulkCreateCustomers_mutate example_backend [input] example_store
     = (Return {| BulkCreateCustomersPayload.customers := [];
                  BulkCreateCustomersPayload.errors := ["Record 1: name is required."] |},
        example_store).
Proof.
  split; [eexists; split; reflexivity | reflexivity].
Qed.

(** ** Failures of product and order creation *)

Section Orders.
Context `{Backend}.

Lemma lookup_customer_stored st pk c :
  lookup_customer st pk = Some c -> c ∈ crm_customer st.
Proof.
  unfold lookup_customer. destruct (Py.int_of_str pk) as [k|]; [| discriminate].
  cbn [mbind option_bind]. intros Hf. apply find_some in Hf as [Hin _].
  now apply list_elem_of_In.
Qed.

(** A resolved product is a stored row, as it is read. *)
Lemma resolved_stored st product_ids p :
  p ∈ resolved st product_ids ->
  exists row, row ∈ crm_product st /\ Product.id row = Product.id p.
Proof.
  unfold resolved. intros Hp. apply list_elem_of_omap in Hp as (pid & _ & Hpid).
  apply lookup_product_row in Hpid as (row & Hrow & Hread).
  exists row. split; [now apply stored_product_stored in Hrow |].
  symmetry. now apply Product_from_db_id.
Qed.

(** The transaction when the database refuses the second write: the
    insert of the order is undone. *)
Lemma atomic_place_order_refused customer date products st msg :
  db_fault st (InsertOrder (blank_order st customer date)) = None ->
  db_fault (apply_op (InsertOrder (blank_order st customer date)) st)
    (SetProducts (Order.id (blank_order st customer date))
       (list_to_set (Product.id <$> products))) = Some msg ->
  atomic (place_order customer date products) st = (Raise (DatabaseError msg), st).
Proof.
  intros Hinsert Hset.
  unfold atomic, place_order, bind. unfold Order_objects_create, bind, execute, ret.
  fold (blank_order st customer date). rewrite Hinsert.
  unfold Order_products_set, bind, execute, ret. now rewrite Hset.
Qed.

End Orders.

(** X15. The revised create-product lets an exception out in one case
    only: a price that reads as NaN, on which the comparison with zero
    raises [decimal.InvalidOperation] before anything is stored. The
    earliest variant raises on it as well. *)
Theorem create_product_raises_on_nan_only `{Backend} st input :
  (forall exc st',
     OldSchema3.CreateProduct_mutate input st = (Raise exc, st')
     <-> Dec.of_str (CreateProductInput.price input) = Some Dec.NaN
         /\ exc = InvalidOperation /\ st' = st)
  /\ (Dec.of_str (CreateProductInput.price input) = Some Dec.NaN ->
      OldSchema.CreateProduct_mutate input st = (Raise InvalidOperation, st)).
Proof.
  split.
  - intros exc st'.
    destruct (Dec.of_str (CreateProductInput.price input)) as [[price|neg|]|] eqn:Eprice.
    + rewrite (CreateProduct_mutate_run3 _ _ _ Eprice).
      split; [| intros (? & _); discriminate].
      destruct (Dec.coef price <=? 0)%Z; [discriminate |].
      destruct (default 0%Z (CreateProductInput.stock input) <? 0)%Z; [discriminate |].
      destruct (db_fault st _); discriminate.
    + unfold OldSchema3.CreateProduct_mutate. rewrite Eprice. cbn [le_zero].
      split; [| intros (? & _); discriminate].
      destruct neg; [discriminate |].
      destruct (default 0%Z (CreateProductInput.stock input) <? 0)%Z; discriminate.
    + unfold OldSchema3.CreateProduct_mutate. rewrite Eprice. cbn [le_zero]. split.
      * intros Hrun. inversion Hrun. now repeat split.
      * now intros (_ & -> & ->).
    + unfold OldSchema3.CreateProduct_mutate. rewrite Eprice.
      split; [discriminate | intros (? & _); discriminate].
  - intros Eprice. unfold OldSchema.CreateProduct_mutate. now rewrite Eprice.
Qed.

(** The price [nan], which [str] gives for a float that is not a number. *)
Lemma create_product_raises_on_nan_only_witness :
  @OldSchema3.CreateProduct_mutate example_backend (product_input "nan" 3) example_store
  = (Raise InvalidOperation, example_store)
  /\ @OldSchema.CreateProduct_mutate example_backend (product_input "nan" 3) example_store
     = (Raise InvalidOperation, example_store).
Proof.
  destruct (@create_product_raises_on_nan_only example_backend example_store
              (product_input "nan" 3)) as [H3 H1].
  split; [apply H3; repeat split; reflexivity | apply H1; reflexivity].
Defined.

(** X16. What create-order hands back, in either variant. Whenever it
    returns a payload, a failure payload carries no order and at least
    one error, and the store is left as it was; a success payload
    carries no error and the one order added to the store, under a key
    above every key in use, customers and products being left as they
    were. It returns no payload when, the customer being found, a
    product reference has a row that cannot be read: the lookup lets
    [decimal.InvalidOperation] out, whatever the other references are,
    and nothing is stored. *)
Theorem create_order_outcomes `{Backend} st input :
  (forall p st',
     OldSchema3.CreateOrder_mutate input st = (Return p, st') ->
     (CreateOrderPayload.success p = false /\ CreateOrderPayload.order p = None
      /\ CreateOrderPayload.errors p <> [] /\ st' = st)
     \/ (CreateOrderPayload.success p = true /\ CreateOrderPayload.errors p = []
         /\ exists order,
              CreateOrderPayload.order p = Some order
              /\ crm_order st' = (crm_order st ++ [order])%list
              /\ crm_customer st' = crm_customer st
              /\ crm_product st' = crm_product st
              /\ Forall (fun o => (Order.id o < Order.id order)%Z) (crm_order st)))
  /\ (forall p st',
     OldSchema.CreateOrder_mutate input st = (Return p, st') ->
     (CreateOrderPayload.success p = false /\ CreateOrderPayload.order p = None
      /\ CreateOrderPayload.errors p <> [] /\ st' = st)
     \/ (CreateOrderPayload.success p = true /\ CreateOrderPayload.errors p = []
         /\ exists order,
              CreateOrderPayload.order p = Some order
              /\ crm_order st' = (crm_order st ++ [order])%list
              /\ crm_customer st' = crm_customer st
              /\ crm_product st' = crm_product st
              /\ Forall (fun o => (Order.id o < Order.id order)%Z) (crm_order st)))
  /\ (lookup_customer st (CreateOrderInput.customer_id input) <> None ->
      existsb (unreadable st) (CreateOrderInput.product_ids input) = true ->
      OldSchema3.CreateOrder_mutate input st = (Raise InvalidOperation, st)
      /\ OldSchema.CreateOrder_mutate input st = (Raise InvalidOperation, st)).
Proof.
  destruct (CreateOrder_mutate_outcome input st) as [C3 C1].
  split; [| split].
  - intros p st' Hrun. destruct C3 as [C3 | (p3 & s3 & H3 & C3)]; [congruence |].
    rewrite Hrun in H3. injection H3 as <- <-.
    destruct C3 as [C3 | (c & d & _ & _ & _ & -> & ->)]; [now left | right].
    split; [reflexivity |]. split; [reflexivity |]. eexists. split; [reflexivity |].
    repeat split. apply Forall_forall. intros o Ho. cbn [new_order Order.id].
    apply next_pk_above. now apply list_elem_of_fmap_2.
  - intros p st' Hrun. destruct C1 as [C1 | (p1 & s1 & H1 & C1)]; [congruence |].
    rewrite Hrun in H1. injection H1 as <- <-.
    destruct C1 as [C1 | (c & d & _ & _ & _ & -> & ->)]; [now left | right].
    split; [reflexivity |]. split; [reflexivity |]. eexists. split; [reflexivity |].
    repeat split. apply Forall_forall. intros o Ho. cbn [new_order Order.id].
    apply next_pk_above. now apply list_elem_of_fmap_2.
  - intros Hc Hu. destruct (lookup_customer st _) as [customer|] eqn:Ec;
      [| now destruct Hc].
    now apply (create_order_unreadable_reference st input customer).
Qed.

Lemma create_order_outcomes_witness :
  @OldSchema3.CreateOrder_mutate example_backend example_order_input example_store
  = (Return (order_created example_order),
     apply_op (InsertOrder example_order) example_store)
  /\ @OldSchema.CreateOrder_mutate example_backend example_order_input example_store
     = (Return (order_created example_order),
        apply_op (InsertOrder example_order) example_store)
  /\ crm_order (apply_op (InsertOrder example_order) example_store)
     = (crm_order example_store ++ [example_order])%list
  /\ @OldSchema3.CreateOrder_mutate example_backend costly_order_input costly_store
     = (Raise InvalidOperation, costly_store)
  /\ @OldSchema.CreateOrder_mutate example_backend costly_order_input costly_store
     = (Raise InvalidOperation, costly_store).
Proof.
  assert (@OldSchema3.CreateOrder_mutate example_backend example_order_input example_store
          = (Return (order_created example_order),
             apply_op (InsertOrder example_order) example_store)) as Hrun3
    by (vm_compute; reflexivity).
  assert (@OldSchema.CreateOrder_mutate example_backend example_order_input example_store
          = (Return (order_created example_order),
             apply_op (InsertOrder example_order) example_store)) as Hrun1
    by (vm_compute; reflexivity).
  destruct (@create_order_outcomes example_backend example_store example_order_input)
    as (Hrevised & _ & _).
  destruct (@create_order_outcomes example_backend costly_store costly_order_input)
    as (_ & _ & Hraises).
  split; [exact Hrun3 |]. split; [exact Hrun1 |]. split.
  - destruct (Hrevised _ _ Hrun3) as [(Hfalse & _) | (_ & _ & order & Horder & Hrows & _)];
      [discriminate Hfalse |].
    injection Horder as <-. exact Hrows.
  - apply Hraises; [discriminate | reflexivity].
Defined.

(** X17. The first two guards of create-order, in both variants: a
    customer reference that does not resolve is reported alone, whatever
    the products are; with a customer that resolves, an empty list of
    products is refused. Nothing is stored. *)
Theorem create_order_guards `{Backend} st input :
  (lookup_customer st (CreateOrderInput.customer_id input) = None ->
   OldSchema3.CreateOrder_mutate input st
   = (Return {| CreateOrderPayload.order := None;
                CreateOrderPayload.success := false;
                CreateOrderPayload.message := "Invalid customer ID.";
                CreateOrderPayload.errors := ["Invalid customer ID."] |}, st)
   /\ OldSchema.CreateOrder_mutate input st
      = (Return {| CreateOrderPayload.order := None;
                   CreateOrderPayload.success := false;
                   CreateOrderPayload.message := "Invalid customer ID.";
                   CreateOrderPayload.errors := ["Invalid customer ID."] |}, st))
  /\ (lookup_customer st (CreateOrderInput.customer_id input) <> None ->
      CreateOrderInput.product_ids input = [] ->
      OldSchema3.CreateOrder_mutate input st
      = (Return {| CreateOrderPayload.order := None;
                   CreateOrderPayload.success := false;
                   CreateOrderPayload.message := "At least one product must be provided.";
                   CreateOrderPayload.errors :=
                     ["At least one product must be provided."] |}, st)
      /\ OldSchema.CreateOrder_mutate input st
         = (Return {| CreateOrderPayload.order := None;
                      CreateOrderPayload.success := false;
                      CreateOrderPayload.message :=
                        "At least one product must be selected.";
                      CreateOrderPayload.errors :=
                        ["At least one product is required."] |}, st)).
Proof.
  rewrite CreateOrder_mutate_run3, CreateOrder_mutate_run1. split.
  - intros ->. now split.
  - intros Hc ->. destruct (lookup_customer st _); [now split | now destruct Hc].
Qed.

Lemma create_order_guards_witness :
  (@OldSchema3.CreateOrder_mutate example_backend stray_order_input example_store
   = (Return {| CreateOrderPayload.order := None;
                CreateOrderPayload.success := false;
                CreateOrderPayload.message := "Invalid customer ID.";
                CreateOrderPayload.errors := ["Invalid customer ID."] |}, example_store)
   /\ @OldSchema.CreateOrder_mutate example_backend stray_order_input example_store
      = (Return {| CreateOrderPayload.order := None;
                   CreateOrderPayload.success := false;
                   CreateOrderPayload.message := "Invalid customer ID.";
                   CreateOrderPayload.errors := ["Invalid customer ID."] |},
         example_store)).
Proof.
  destruct (@create_order_guards example_backend example_store stray_order_input)
    as [Hguard _].
  apply Hguard. reflexivity.
Defined.

(** X18. The writes of an order are one transaction, in both variants:
    when the database accepts the insert of the order and then refuses
    to write its products, the insert is undone; the store is left as it
    was and the payload reports the message of the database. *)
Theorem create_order_rolls_back `{Backend} st input customer msg :
  lookup_customer st (CreateOrderInput.customer_id input) = Some customer ->
  CreateOrderInput.product_ids input <> [] ->
  unresolved st (CreateOrderInput.product_ids input) = [] ->
  (forall date, db_fault st (InsertOrder (blank_order st customer date)) = None) ->
  (forall date,
     db_fault (apply_op (InsertOrder (blank_order st customer date)) st)
       (SetProducts (next_pk (Order.id <$> crm_order st))
          (list_to_set (Product.id <$> resolved st (CreateOrderInput.product_ids input))))
     = Some msg) ->
  OldSchema3.CreateOrder_mutate input st
  = (Return {| CreateOrderPayload.order := None;
               CreateOrderPayload.success := false;
               CreateOrderPayload.message := "Error creating order.";
               CreateOrderPayload.errors := [msg] |}, st)
  /\ OldSchema.CreateOrder_mutate input st
     = (Return {| CreateOrderPayload.order := None;
                  CreateOrderPayload.success := false;
                  CreateOrderPayload.message := "Error creating order: " ++ msg;
                  CreateOrderPayload.errors := [msg] |}, st).
Proof.
  intros Hc Hne Hun Hinsert Hset.
  rewrite CreateOrder_mutate_run3, CreateOrder_mutate_run1, Hc, Hun,
    (unresolved_nil_readable _ _ Hun).
  destruct (CreateOrderInput.product_ids input) as [|pid rest] eqn:Eids;
    [now destruct Hne |].
  rewrite !(atomic_place_order_refused _ _ _ _ msg) by (apply Hinsert || apply Hset).
  now split.
Qed.

Lemma create_order_rolls_back_witness :
  lookup_customer example_store (CreateOrderInput.customer_id example_order_input)
  = Some {| Customer.id := 1; Customer.name := "Ada";
            Customer.email := "ada@x.com"; Customer.phone := None |}
  /\ @OldSchema3.CreateOrder_mutate relation_refusing_backend example_order_input
       example_store
     = (Return {| CreateOrderPayload.order := None;
                  CreateOrderPayload.success := false;
                  CreateOrderPayload.message := "Error creating order.";
                  CreateOrderPayload.errors := ["deadlock detected"] |}, example_store)
  /\ @OldSchema.CreateOrder_mutate relation_refusing_backend example_order_input
       example_store
     = (Return {| CreateOrderPayload.order := None;
                  CreateOrderPayload.success := false;
                  CreateOrderPayload.message :=
                    "Error creating order: " ++ "deadlock detected";
                  CreateOrderPayload.errors := ["deadlock detected"] |}, example_store).
Proof.
  split; [reflexivity |].
  apply (@create_order_rolls_back relation_refusing_backend example_store
           example_order_input
           {| Customer.id := 1; Customer.name := "Ada";
              Customer.email := "ada@x.com"; Customer.phone := None |}
           "deadlock detected");
    [reflexivity | discriminate | reflexivity | reflexivity | reflexivity].
Defined.

(** ** Order rows *)

Section OrderRows.
Context `{Backend}.

Lemma references_resolve_grows st st' :
  references_resolve st -> grows st st' -> crm_order st' = crm_order st ->
  references_resolve st'.
Proof.
  intros Hst ([lc Hc] & [lp Hp] & _) Ho o Hin. rewrite Ho in Hin.
  destruct (Hst o Hin) as [(c & Hcin & Hcid) Hps]. split.
  - exists c. split; [| exact Hcid]. rewrite Hc. apply elem_of_app. now left.
  - intros k Hk. destruct (Hps k Hk) as (p & Hpin & Hpid).
    exists p. split; [| exact Hpid]. rewrite Hp. apply elem_of_app. now left.
Qed.

Lemma references_resolve_insert_customer st c :
  references_resolve st -> references_resolve (apply_op (InsertCustomer c) st).
Proof.
  intros Hst. apply (references_resolve_grows st); auto using grows_insert_customer.
Qed.

Lemma references_resolve_insert_product st p :
  references_resolve st -> references_resolve (apply_op (InsertProduct p) st).
Proof.
  intros Hst. apply (references_resolve_grows st); auto using grows_insert_product.
Qed.

Lemma references_resolve_insert_order st customer date products :
  references_resolve st ->
  customer ∈ crm_customer st ->
  (forall p, p ∈ products ->
     exists row, row ∈ crm_product st /\ Product.id row = Product.id p) ->
  references_resolve (apply_op (InsertOrder (new_order st customer date products)) st).
Proof.
  intros Hst Hc Hps o Hin. cbn [apply_op crm_customer crm_product crm_order] in *.
  apply elem_of_app in Hin as [Hin | Hin]; [now apply Hst |].
  apply list_elem_of_singleton in Hin as ->. cbn [new_order Order.customer Order.products].
  split; [now exists customer |].
  intros k Hk. apply elem_of_list_to_set, list_elem_of_fmap in Hk as (p & -> & Hp).
  now apply Hps.
Qed.

End OrderRows.

(** X19. The timestamp of an order. With a timestamp that parses, a
    customer and products that resolve, and a database that accepts the
    writes, the revised variant creates the order with the parsed
    timestamp as its date. The earliest variant never reads the
    timestamp: it does what it does without one, and dates the order
    with the current time; the two orders agree on everything else. *)
Theorem create_order_timestamp `{Backend} st input text t customer :
  CreateOrderInput.order_date input = Some text ->
  text <> "" ->
  fromisoformat text = Some t ->
  lookup_customer st (CreateOrderInput.customer_id input) = Some customer ->
  CreateOrderInput.product_ids input <> [] ->
  unresolved st (CreateOrderInput.product_ids input) = [] ->
  never_faults ->
  exists order3 order1,
    OldSchema3.CreateOrder_mutate input st
    = (Return (order_created order3), apply_op (InsertOrder order3) st)
    /\ Order.order_date order3 = t
    /\ OldSchema.CreateOrder_mutate input st
       = (Return (order_created order1), apply_op (InsertOrder order1) st)
    /\ Order.order_date order1 = now
    /\ OldSchema.CreateOrder_mutate input st
       = OldSchema.CreateOrder_mutate (without_order_date input) st
    /\ Order.id order3 = Order.id order1
    /\ Order.customer order3 = Order.customer order1
    /\ Order.products order3 = Order.products order1
    /\ Order.total_amount order3 = Order.total_amount order1.
Proof.
  intros Hdate Htext Ht Hc Hne Hun Hok.
  exists (new_order st customer t (resolved st (CreateOrderInput.product_ids input))),
    (new_order st customer now (resolved st (CreateOrderInput.product_ids input))).
  rewrite !CreateOrder_mutate_run3, !CreateOrder_mutate_run1.
  cbn [without_order_date CreateOrderInput.customer_id CreateOrderInput.product_ids].
  rewrite Hc, Hun, Hdate, (unresolved_nil_readable _ _ Hun).
  assert (OldSchema3.parse_order_date (Some text) = Some t) as ->.
  { unfold OldSchema3.parse_order_date. destruct text; [now destruct Htext |]. exact Ht. }
  destruct (CreateOrderInput.product_ids input) as [|pid rest] eqn:Eids;
    [now destruct Hne |].
  rewrite !atomic_place_order_ok by exact Hok. now repeat split.
Qed.

Lemma create_order_timestamp_witness :
  @never_faults example_backend
  /\ exists order3 order1,
       @OldSchema3.CreateOrder_mutate example_backend dated_order_input example_store
       = (Return (order_created order3), apply_op (InsertOrder order3) example_store)
       /\ Order.order_date order3 = 1714557600%Z
       /\ @OldSchema.CreateOrder_mutate example_backend dated_order_input example_store
          = (Return (order_created order1), apply_op (InsertOrder order1) example_store)
       /\ Order.order_date order1 = 1718000000%Z
       /\ @OldSchema.CreateOrder_mutate example_backend dated_order_input example_store
          = @OldSchema.CreateOrder_mutate example_backend
              (without_order_date dated_order_input) example_store
       /\ Order.id order3 = Order.id order1
       /\ Order.customer order3 = Order.customer order1
       /\ Order.products order3 = Order.products order1
       /\ Order.total_amount order3 = Order.total_amount order1.
Proof.
  assert (@never_faults example_backend) as Hok by (intros st op; reflexivity).
  split; [exact Hok |].
  apply (@create_order_timestamp example_backend example_store dated_order_input
           "2024-05-01T10:00:00" 1714557600%Z
           {| Customer.id := 1; Customer.name := "Ada";
              Customer.email := "ada@x.com"; Customer.phone := None |});
    [reflexivity | discriminate | reflexivity | reflexivity | discriminate
    | reflexivity | exact Hok].
Defined.

(** X20. [Order.calculate_total] agrees with the total a creation
    stored: for an order a create-order has just handed back, in either
    variant, whose product references resolved to pairwise distinct
    products, in a store whose products have unique keys, the method
    returns, and the sum it computes over the associated products
    denotes the same number as [total_amount]. *)
Theorem calculate_total_agrees `{Backend} st input st' order p3 p1 :
  (OldSchema3.CreateOrder_mutate input st = (Return p3, st')
   /\ CreateOrderPayload.order p3 = Some order)
  \/ (OldSchema.CreateOrder_mutate input st = (Return p1, st')
      /\ CreateOrderPayload.order p1 = Some order) ->
  NoDup (Product.id <$> crm_product st) ->
  NoDup (Product.id <$> resolved st (CreateOrderInput.product_ids input)) ->
  exists total,
    Order_calculate_total order st' = Return total
    /\ (Dec.value total == Dec.value (Order.total_amount order))%Q.
Proof.
  intros Hrun Hkeys Hdistinct.
  destruct (CreateOrder_mutate_outcome input st) as [C3 C1].
  assert (exists customer date,
            order = new_order st customer date
                      (resolved st (CreateOrderInput.product_ids input))
            /\ crm_product st' = crm_product st) as (customer & date & -> & Hsame).
  { destruct Hrun as [[Hrun Hp] | [Hrun Hp]].
    - destruct C3 as [C3 | (q3 & s3 & H3 & C3)]; [congruence |].
      rewrite Hrun in H3. inversion H3; subst q3 s3.
      destruct C3 as [(_ & Hnone & _) | (c & d & _ & _ & _ & -> & ->)]; [congruence |].
      cbn in Hp. inversion Hp. now exists c, d.
    - destruct C1 as [C1 | (q1 & s1 & H1 & C1)]; [congruence |].
      rewrite Hrun in H1. inversion H1; subst q1 s1.
      destruct C1 as [(_ & Hnone & _) | (c & d & _ & _ & _ & -> & ->)]; [congruence |].
      cbn in Hp. inversion Hp. now exists c, d. }
  destruct (products_all_new_order st st' customer date _ Hsame Hkeys Hdistinct)
    as (associated & Hall & Hperm).
  destruct (value_calculate_total _ _ _ Hall) as (total & Htotal & Hvalue).
  exists total. split; [exact Htotal |].
  rewrite Hvalue, (sum_values_permutation _ _ Hperm).
  cbn [new_order Order.total_amount]. now rewrite value_sum_prices.
Qed.

Lemma calculate_total_agrees_witness :
  ((@OldSchema3.CreateOrder_mutate example_backend example_order_input example_store
    = (Return (order_created example_order),
       apply_op (InsertOrder example_order) example_store)
    /\ CreateOrderPayload.order (order_created example_order) = Some example_order)
   \/ (@OldSchema.CreateOrder_mutate example_backend example_order_input example_store
       = (Return (order_created example_order),
          apply_op (InsertOrder example_order) example_store)
       /\ CreateOrderPayload.order (order_created example_order) = Some example_order))
  /\ NoDup (Product.id <$> crm_product example_store)
  /\ NoDup (Product.id <$> @resolved example_backend example_store
              (CreateOrderInput.product_ids example_order_input))
  /\ exists total,
       @Order_calculate_total example_backend example_order
         (apply_op (InsertOrder example_order) example_store) = Return total
       /\ (Dec.value total == Dec.value (Order.total_amount example_order))%Q.
Proof.
  assert (@OldSchema3.CreateOrder_mutate example_backend example_order_input example_store
          = (Return (order_created example_order),
             apply_op (InsertOrder example_order) example_store)) as Hrun
    by (vm_compute; reflexivity).
  assert (NoDup (Product.id <$> crm_product example_store)) as Hkeys
    by (apply (bool_decide_unpack _); reflexivity).
  assert (NoDup (Product.id <$> @resolved example_backend example_store
                   (CreateOrderInput.product_ids example_order_input))) as Hdistinct
    by (apply (bool_decide_unpack _); reflexivity).
  split; [left; split; [exact Hrun | reflexivity] |].
  split; [exact Hkeys |]. split; [exact Hdistinct |].
  apply (@calculate_total_agrees example_backend example_store example_order_input
           (apply_op (InsertOrder example_order) example_store) example_order
           (order_created example_order) (order_created example_order)
           (or_introl (conj Hrun eq_refl)) Hkeys Hdistinct).
Defined.

(** X21. Orders never dangle: when every stored order belongs to a
    stored customer and is associated with stored products only, the
    same holds after each of the mutations, in both variants. *)
Theorem references_stay_resolved `{Backend} st customer records product order :
  references_resolve st ->
  references_resolve (OldSchema3.CreateCustomer_mutate customer st).2
  /\ references_resolve (OldSchema.CreateCustomer_mutate customer st).2
  /\ references_resolve (OldSchema3.BulkCreateCustomers_mutate records st).2
  /\ references_resolve (OldSchema.BulkCreateCustomers_mutate records st).2
  /\ references_resolve (OldSchema3.CreateProduct_mutate product st).2
  /\ references_resolve (OldSchema.CreateProduct_mutate product st).2
  /\ references_resolve (OldSchema3.CreateOrder_mutate order st).2
  /\ references_resolve (OldSchema.CreateOrder_mutate order st).2.
Proof.
  intros Hst. destruct (CreateCustomer_mutate_store customer st) as [Hc3 Hc1].
  destruct (CreateProduct_mutate_store product st) as [Hp3 Hp1].
  destruct (CreateOrder_mutate_outcome order st) as [C3 C1].
  rewrite BulkCreateCustomers_mutate_run3, BulkCreateCustomers_mutate_run1. cbn [snd].
  split; [| split; [| split; [| split; [| split; [| split; [| split]]]]]].
  - destruct Hc3 as [-> | ->]; [exact Hst | now apply references_resolve_insert_customer].
  - destruct Hc1 as [-> | ->]; [exact Hst | now apply references_resolve_insert_customer].
  - apply bulk_outcome_keeps; [| exact Hst]. intros rec s Hs _.
    now apply references_resolve_insert_customer.
  - apply bulk_outcome_keeps; [| exact Hst]. intros rec s Hs _.
    now apply references_resolve_insert_customer.
  - destruct Hp3 as [-> | [price ->]];
      [exact Hst | now apply references_resolve_insert_product].
  - destruct Hp1 as [-> | [price ->]];
      [exact Hst | now apply references_resolve_insert_product].
  - destruct C3 as [-> | (q3 & s3 & -> & C3)]; [exact Hst |]. cbn [snd].
    destruct C3 as [(_ & _ & _ & ->) | (c & d & Hc & _ & _ & _ & ->)]; [exact Hst |].
    apply references_resolve_insert_order; [exact Hst | |].
    + now apply lookup_customer_stored in Hc.
    + apply resolved_stored.
  - destruct C1 as [-> | (q1 & s1 & -> & C1)]; [exact Hst |]. cbn [snd].
    destruct C1 as [(_ & _ & _ & ->) | (c & d & Hc & _ & _ & _ & ->)]; [exact Hst |].
    apply references_resolve_insert_order; [exact Hst | |].
    + now apply lookup_customer_stored in Hc.
    + apply resolved_stored.
Qed.

Lemma references_stay_resolved_witness :
  references_resolve example_store
  /\ references_resolve
       (@OldSchema3.CreateOrder_mutate example_backend example_order_input
          example_store).2.
Proof.
  assert (references_resolve example_store) as Hst.
  { intros o Ho. now apply elem_of_nil in Ho. }
  split; [exact Hst |].
  apply (@references_stay_resolved example_backend example_store new_customer_input []
           (product_input "10.5" 3) example_order_input Hst).
Defined.

(** ** The filters *)

Section Querysets.

Lemma filter_twice {A} (f : A -> bool) l :
  List.filter f (List.filter f l) = List.filter f l.
Proof.
  induction l as [|x l IH]; cbn [List.filter]; [reflexivity |].
  destruct (f x) eqn:Ef; [| exact IH]. cbn [List.filter]. now rewrite Ef, IH.
Qed.

Lemma filter_both {A} (f g : A -> bool) l :
  List.filter f (List.filter g l) = List.filter (fun x => f x && g x) l.
Proof.
  induction l as [|x l IH]; cbn [List.filter]; [reflexivity |].
  destruct (g x); cbn [List.filter]; rewrite ?andb_true_r, ?andb_false_r, IH; reflexivity.
Qed.

Lemma filter_same {A} (f g : A -> bool) l :
  (forall x, f x = g x) -> List.filter f l = List.filter g l.
Proof.
  intros Hfg. induction l as [|x l IH]; cbn [List.filter]; [reflexivity |].
  now rewrite Hfg, IH.
Qed.

Lemma elem_of_filter {A} (f : A -> bool) l x :
  x ∈ List.filter f l <-> x ∈ l /\ f x = true.
Proof. now rewrite !list_elem_of_In, filter_In. Qed.

Lemma remove_dups_NoDup {A} `{EqDecision A} (l : list A) :
  NoDup l -> remove_dups l = l.
Proof.
  induction 1 as [|x l Hx _ IH]; cbn [remove_dups]; [reflexivity |].
  destruct (decide_rel elem_of x l); [contradiction | now rewrite IH].
Qed.

(** The first character tells the formats apart. *)
Lemma international_head c s : international_format (String c s) = true -> c = "+"%char.
Proof.
  unfold international_format.
  destruct c as [[] [] [] [] [] [] [] []]; try discriminate. reflexivity.
Qed.

Lemma dashed_head c s : dashed_format (String c s) = true -> Py.isdigit c = true.
Proof.
  unfold dashed_format. rewrite digits_cons. now destruct (Py.isdigit c).
Qed.

Lemma dashed_not_empty : dashed_format "" = false.
Proof. reflexivity. Qed.

Lemma startswith_head c s c' s' :
  Py.startswith (String c s) (String c' s') = true -> c = c'.
Proof.
  cbn [Py.startswith]. intros Hs. apply andb_true_iff in Hs as [Hc _].
  now apply Ascii.eqb_eq.
Qed.

Lemma startswith_plus c s : Py.startswith (String c s) "+" = Ascii.eqb c "+".
Proof. cbn [Py.startswith]. destruct s; apply andb_true_r. Qed.

(** A pattern that begins with a plus sign or a digit is matched
    against the beginning of the phone. *)
Lemma filter_phone_pattern_prefix queryset name c s :
  c = "+"%char \/ Py.isdigit c = true ->
  Filters.filter_phone_pattern queryset name (Some (String c s))
  = Filters.phone__startswith (String c s) queryset.
Proof.
  intros Hc. unfold Filters.filter_phone_pattern. rewrite startswith_plus.
  destruct Hc as [-> | Hd]; [reflexivity |].
  unfold Py.str_isdigit. rewrite Hd. now rewrite orb_true_r.
Qed.

(** LIKE on a phone of either format: the phone holds no letter, so a
    pattern matches its beginning without regard to case only when it
    is the beginning. *)
Lemma like_char_exact x a : no_letter a = true -> Py.like_char x = a -> x = a.
Proof.
  intros Ha Hx. subst a. revert Ha.
  destruct x as [[] [] [] [] [] [] [] []]; vm_compute; intros Ha;
    first [reflexivity | discriminate Ha].
Qed.

Lemma like_char_no_letter a : no_letter a = true -> Py.like_char a = a.
Proof.
  destruct a as [[] [] [] [] [] [] [] []]; vm_compute; intros Ha;
    first [reflexivity | discriminate Ha].
Qed.

Lemma like_fold_no_letters t : no_letters t = true -> Py.like_fold t = t.
Proof.
  induction t as [|a t IH]; cbn [no_letters Py.like_fold]; [reflexivity |].
  intros Ht. apply andb_true_iff in Ht as [Ha Ht].
  now rewrite (like_char_no_letter a Ha), (IH Ht).
Qed.

Lemma startswith_like t v :
  no_letters t = true ->
  Py.startswith (Py.like_fold t) (Py.like_fold v) = true ->
  Py.startswith t v = true.
Proof.
  intros Ht. rewrite (like_fold_no_letters t Ht). revert t Ht.
  induction v as [|x v IH]; intros t Ht; [now destruct t |].
  destruct t as [|a t]; [intros Hs; discriminate Hs |].
  cbn [no_letters] in Ht. apply andb_true_iff in Ht as [Ha Ht].
  cbn [Py.like_fold Py.startswith]. intros Hs.
  apply andb_true_iff in Hs as [Hc Hs]. apply Ascii.eqb_eq in Hc.
  symmetry in Hc. apply (like_char_exact x a Ha) in Hc. subst x.
  rewrite Ascii.eqb_refl. exact (IH t Ht Hs).
Qed.

Lemma isdigit_no_letter c : Py.isdigit c = true -> no_letter c = true.
Proof.
  destruct c as [[] [] [] [] [] [] [] []]; vm_compute; intros Hc;
    first [reflexivity | discriminate Hc].
Qed.

Lemma all_digits_no_letters s : all_digits s = true -> no_letters s = true.
Proof.
  induction s as [|c s IH]; cbn [all_digits no_letters]; [reflexivity |].
  intros Hs. apply andb_true_iff in Hs as [Hc Hs].
  now rewrite (isdigit_no_letter c Hc), (IH Hs).
Qed.

Lemma digits_no_letters k s rest :
  digits k s = Some rest -> no_letters rest = true -> no_letters s = true.
Proof.
  revert s. induction k as [|k IH]; intros s; [now intros [= ->] |].
  destruct s as [|c s]; [discriminate |]. rewrite digits_cons.
  destruct (Py.isdigit c) eqn:Ec; [| discriminate].
  intros Hd Hrest. cbn [no_letters].
  now rewrite (isdigit_no_letter c Ec), (IH s Hd Hrest).
Qed.

Lemma phone_format_no_letters t : phone_format t = true -> no_letters t = true.
Proof.
  unfold phone_format. intros Hf. apply orb_true_iff in Hf as [Hi | Hd].
  - destruct t as [|c ds]; [discriminate Hi |].
    pose proof (international_head c ds Hi) as ->.
    cbn [international_format] in Hi.
    apply andb_true_iff in Hi as [Hi _]. apply andb_true_iff in Hi as [Hi _].
    cbn [no_letters]. now rewrite (all_digits_no_letters ds Hi).
  - unfold dashed_format in Hd.
    destruct (digits 3 t) as [[|a s1]|] eqn:E1; try discriminate Hd.
    destruct (Ascii.eqb a "-") eqn:Ea;
      [apply Ascii.eqb_eq in Ea; subst a
      | destruct a as [[] [] [] [] [] [] [] []]; discriminate].
    destruct (digits 3 s1) as [[|b s2]|] eqn:E2; try discriminate Hd.
    destruct (Ascii.eqb b "-") eqn:Eb;
      [apply Ascii.eqb_eq in Eb; subst b
      | destruct b as [[] [] [] [] [] [] [] []]; discriminate].
    destruct (digits 4 s2) as [[|? ?]|] eqn:E3; try discriminate Hd.
    apply (digits_no_letters 3 t _ E1). cbn [no_letters]. rewrite andb_true_iff.
    split; [reflexivity |].
    apply (digits_no_letters 3 s1 _ E2). cbn [no_letters]. rewrite andb_true_iff.
    split; [reflexivity |].
    now apply (digits_no_letters 4 s2 _ E3).
Qed.

Lemma phone_format_head t :
  phone_format t = true ->
  exists c s, t = String c s /\ (c = "+"%char \/ Py.isdigit c = true).
Proof.
  unfold phone_format. intros Hf. destruct t as [|c s]; [discriminate Hf |].
  exists c, s. split; [reflexivity |].
  apply orb_true_iff in Hf as [Hi | Hd];
    [left; now apply international_head in Hi | right; now apply dashed_head in Hd].
Qed.

End Querysets.

(** X22. What the low-stock filter returns. When it returns, the result
    is the queryset with some products left out, in the same order, and
    filtering it again changes nothing; a value [int] turns into a
    threshold selects exactly the products with a stock below it; a
    value [int] refuses with [TypeError] or [ValueError] leaves the
    queryset as it is. The filter raises on an infinite value only, the
    [OverflowError] of [int]. *)
Theorem low_stock_filter_outcome queryset name v :
  match Filters.filter_low_stock queryset name v with
  | Return r =>
      r `sublist_of` queryset
      /\ Filters.filter_low_stock r name v = Return r
      /\ (forall threshold, Filters.int v = Return threshold ->
            forall p, p ∈ r <-> p ∈ queryset /\ (Product.stock p < threshold)%Z)
      /\ ((forall threshold, Filters.int v <> Return threshold) -> r = queryset)
  | Raise exc =>
      exc = OverflowError /\ exists negative, v = Filters.PyDecimal (Dec.Inf negative)
  end.
Proof.
  assert (forall threshold,
            Filters.stock__lt threshold queryset `sublist_of` queryset
            /\ Return (Filters.stock__lt threshold (Filters.stock__lt threshold queryset))
               = Return (Filters.stock__lt threshold queryset) :> outcome _
            /\ forall p, p ∈ Filters.stock__lt threshold queryset
                         <-> p ∈ queryset /\ (Product.stock p < threshold)%Z) as Hsel.
  { intros threshold. unfold Filters.stock__lt. split; [apply filter_sublist |].
    split; [now rewrite filter_twice |].
    intros p. now rewrite elem_of_filter, Z.ltb_lt. }
  unfold Filters.filter_low_stock.
  destruct v as [|s|n|[d|negative|]]; cbn [Filters.int];
    try destruct (Py.int_of_str s) as [k|];
    try (split; [reflexivity | now eexists]);
    try (split; [reflexivity |]; split; [reflexivity |];
         split; [discriminate | reflexivity]);
    match goal with
    | |- Filters.stock__lt ?k _ `sublist_of` _ /\ _ =>
        destruct (Hsel k) as (H1 & H2 & H3);
        split; [exact H1 |]; split; [exact H2 |]; split;
        [intros ? [= <-]; exact H3 | intros Hno; now destruct (Hno k)]
    end.
Qed.

(** X23. Low-stock filters compose to the smaller threshold: filtering
    with the threshold [m] and then with [n] is filtering once with the
    smaller of the two. *)
Theorem low_stock_thresholds_compose queryset name n m :
  exists r,
    Filters.filter_low_stock queryset name (Filters.PyInt m) = Return r
    /\ Filters.filter_low_stock r name (Filters.PyInt n)
       = Filters.filter_low_stock queryset name (Filters.PyInt (Z.min n m)).
Proof.
  eexists. split; [reflexivity |].
  unfold Filters.filter_low_stock, Filters.int, Filters.stock__lt. f_equal.
  rewrite filter_both. apply filter_same. intros p.
  destruct (Z.ltb_spec (Product.stock p) n), (Z.ltb_spec (Product.stock p) m),
    (Z.ltb_spec (Product.stock p) (Z.min n m)); cbn [andb]; try reflexivity; lia.
Qed.

(** X24. What the phone-pattern filter returns: the queryset with some
    customers left out, in the same order; filtering the result again
    with the same pattern changes nothing; without a pattern, or with
    the empty one, nothing is left out; with any other pattern every
    customer without a phone is. *)
Theorem phone_pattern_filter_outcome queryset name v :
  let r := Filters.filter_phone_pattern queryset name v in
  r `sublist_of` queryset
  /\ Filters.filter_phone_pattern r name v = r
  /\ (v = None \/ v = Some "" -> r = queryset)
  /\ (v <> None /\ v <> Some "" -> Forall (fun c => Customer.phone c <> None) r).
Proof.
  intros r. subst r. destruct v as [[|c s]|].
  - split; [reflexivity |]. split; [reflexivity |]. split; [reflexivity |].
    now intros [_ Hv].
  - unfold Filters.filter_phone_pattern.
    destruct (Py.startswith (String c s) "+" || Py.str_isdigit c);
      (split; [apply filter_sublist |]);
      (split; [unfold Filters.phone__startswith, Filters.phone__icontains;
               now rewrite filter_twice |]);
      (split; [intros [Hv | Hv]; discriminate Hv |]);
      intros _; apply Forall_forall; intros x Hx;
      unfold Filters.phone__startswith, Filters.phone__icontains in Hx;
      apply elem_of_filter in Hx as [_ Hx]; now destruct (Customer.phone x).
  - split; [reflexivity |]. split; [reflexivity |]. split; [reflexivity |].
    now intros [Hv _].
Qed.

(** X25. The phone-pattern filter on phones as the mutations store
    them: a pattern that begins with a plus sign selects customers with
    an international phone only, a pattern that begins with a digit
    customers with a dashed phone only, and in both cases the phone
    begins with the pattern: digits that occur further inside a phone
    do not select it. *)
Theorem phone_pattern_separates_formats queryset name c s :
  phones_stored_ok queryset ->
  let r := Filters.filter_phone_pattern queryset name (Some (String c s)) in
  (c = "+"%char -> Forall (international_from (String c s)) r)
  /\ (Py.isdigit c = true -> Forall (dashed_from (String c s)) r).
Proof.
  intros Hok r. subst r.
  assert (forall x, x ∈ Filters.phone__startswith (String c s) queryset ->
            exists t, Customer.phone x = Some t /\ phone_format t = true
                      /\ Py.startswith t (String c s) = true) as Hsel.
  { intros x Hx. unfold Filters.phone__startswith in Hx.
    apply elem_of_filter in Hx as [Hin Hx].
    unfold phones_stored_ok in Hok. rewrite Forall_forall in Hok. specialize (Hok x Hin).
    destruct (Customer.phone x) as [t|]; [| discriminate Hx].
    exists t. split; [reflexivity |].
    destruct Hok as [Hnone | [Hempty | (t' & [= <-] & Hf)]];
      [discriminate Hnone | injection Hempty as ->; discriminate Hx |].
    split; [exact Hf |].
    exact (startswith_like t _ (phone_format_no_letters t Hf) Hx). }
  split; intros Hc; rewrite filter_phone_pattern_prefix by auto;
    apply Forall_forall; intros x Hx;
    destruct (Hsel x Hx) as (t & Hphone & Hformat & Hstart);
    exists t; (split; [exact Hphone |]); (split; [| exact Hstart]);
    destruct t as [|c' t']; try discriminate Hformat;
    apply startswith_head in Hstart as Hhead; subst c';
    unfold phone_format in Hformat; apply orb_true_iff in Hformat as [Hi | Hd];
    try assumption.
  - subst c. apply dashed_head in Hd. discriminate Hd.
  - apply international_head in Hi. subst c. discriminate Hc.
Qed.

Lemma phone_pattern_separates_formats_witness :
  phones_stored_ok three_customers
  /\ Forall (international_from "+12")
       (Filters.filter_phone_pattern three_customers "phone_pattern" (Some "+12"))
  /\ Forall (dashed_from "123")
       (Filters.filter_phone_pattern three_customers "phone_pattern" (Some "123"))
  /\ Filters.filter_phone_pattern three_customers "phone_pattern" (Some "456") = [].
Proof.
  assert (phones_stored_ok three_customers) as Hok.
  { unfold phones_stored_ok, three_customers.
    apply Forall_cons; split; [now left |].
    apply Forall_cons; split; [right; right; eexists; split; reflexivity |].
    apply Forall_cons; split; [right; right; eexists; split; reflexivity | constructor]. }
  split; [exact Hok |].
  split; [| split; [| reflexivity]].
  - apply (phone_pattern_separates_formats three_customers "phone_pattern" "+" "12" Hok).
    reflexivity.
  - apply (phone_pattern_separates_formats three_customers "phone_pattern" "1" "23" Hok).
    reflexivity.
Defined.

(** X26. A customer a creation hands back with a phone, in either
    variant, is selected by the phone-pattern filter, over the customers
    the creation leaves, for the pattern that is its phone. *)
Theorem created_customer_found_by_phone `{Backend} input st st' c p3 p1 name t :
  (OldSchema3.CreateCustomer_mutate input st = (Return p3, st')
   /\ CreateCustomerPayload.customer p3 = Some c)
  \/ (OldSchema.CreateCustomer_mutate input st = (Return p1, st')
      /\ OldSchema.CreateCustomerPayload.customer p1 = Some c) ->
  Customer.phone c = Some t ->
  t <> "" ->
  c ∈ Filters.filter_phone_pattern (crm_customer st') name (Some t).
Proof.
  intros Hrun Hphone Ht.
  apply CreateCustomer_mutate_created in Hrun as (Hc & -> & _ & Hok).
  apply accepted_phone_ok in Hok.
  assert (Customer.phone c = clean_phone (CreateCustomerInput.phone input)) as Hrow
    by now rewrite Hc.
  rewrite <- Hrow, Hphone in Hok.
  destruct Hok as [Hnone | [Hempty | (t' & [= <-] & Hf)]];
    [discriminate Hnone | injection Hempty as ->; now destruct Ht |].
  destruct (phone_format_head t Hf) as (a & s & -> & Ha).
  rewrite filter_phone_pattern_prefix by exact Ha.
  unfold Filters.phone__startswith. apply elem_of_filter. split.
  - cbn [apply_op crm_customer]. apply elem_of_app. right. now apply list_elem_of_singleton.
  - rewrite Hphone. apply startswith_refl.
Qed.

Lemma created_customer_found_by_phone_witness :
  ((@OldSchema3.CreateCustomer_mutate example_backend new_customer_input example_store
    = (Return {| CreateCustomerPayload.customer := Some customer_Bob;
                 CreateCustomerPayload.success := true;
                 CreateCustomerPayload.message := "Customer created.";
                 CreateCustomerPayload.errors := [] |},
       apply_op (InsertCustomer customer_Bob) example_store)
    /\ Some customer_Bob = Some customer_Bob)
   \/ (@OldSchema.CreateCustomer_mutate example_backend new_customer_input example_store
       = (Return {| OldSchema.CreateCustomerPayload.customer := Some customer_Bob;
                    OldSchema.CreateCustomerPayload.success := true;
                    OldSchema.CreateCustomerPayload.message := "Customer created." |},
          apply_op (InsertCustomer customer_Bob) example_store)
       /\ Some customer_Bob = Some customer_Bob))
  /\ Customer.phone customer_Bob = Some "123-456-7890"
  /\ "123-456-7890" <> ""
  /\ customer_Bob
     ∈ Filters.filter_phone_pattern
         (crm_customer (apply_op (InsertCustomer customer_Bob) example_store))
         "phone_pattern" (Some "123-456-7890").
Proof.
  split; [right; split; reflexivity |]. split; [reflexivity |]. split; [discriminate |].
  apply (@created_customer_found_by_phone example_backend new_customer_input example_store
           (apply_op (InsertCustomer customer_Bob) example_store) customer_Bob
           {| CreateCustomerPayload.customer := Some customer_Bob;
              CreateCustomerPayload.success := true;
              CreateCustomerPayload.message := "Customer created.";
              CreateCustomerPayload.errors := [] |}
           {| OldSchema.CreateCustomerPayload.customer := Some customer_Bob;
              OldSchema.CreateCustomerPayload.success := true;
              OldSchema.CreateCustomerPayload.message := "Customer created." |}
           "phone_pattern" "123-456-7890");
    [right; split; reflexivity | reflexivity | discriminate].
Defined.

(** X27. What the product filter of orders returns. Without a value the
    queryset is left as it is. With a value [int] turns into a key, the
    result holds each order of the queryset that is associated with the
    product of that key, and no other order, once; when no order is
    listed twice, they come in the order of the queryset; filtering the
    result again changes nothing. What [int] raises on the value is let
    out. *)
Theorem product_id_filter_outcome queryset name v :
  match Filters.filter_by_product_id queryset name v with
  | Return r =>
      (v = Filters.PyNone /\ r = queryset)
      \/ (exists k,
            Filters.int v = Return k
            /\ NoDup r
            /\ (forall o, o ∈ r <-> o ∈ queryset /\ k ∈ Order.products o)
            /\ (NoDup queryset -> r `sublist_of` queryset)
            /\ Filters.filter_by_product_id r name v = Return r)
  | Raise exc => v <> Filters.PyNone /\ Filters.int v = Raise exc
  end.
Proof.
  assert (forall k,
            NoDup (Filters.distinct (Filters.products__id k queryset))
            /\ (forall o, o ∈ Filters.distinct (Filters.products__id k queryset)
                          <-> o ∈ queryset /\ k ∈ Order.products o)
            /\ (NoDup queryset ->
                Filters.distinct (Filters.products__id k queryset) `sublist_of` queryset)
            /\ Filters.distinct (Filters.products__id k
                 (Filters.distinct (Filters.products__id k queryset)))
               = Filters.distinct (Filters.products__id k queryset)) as Hsel.
  { intros k. unfold Filters.distinct. split; [apply NoDup_remove_dups |].
    assert (forall o, o ∈ remove_dups (Filters.products__id k queryset)
                      <-> o ∈ queryset /\ k ∈ Order.products o) as Hmem.
    { intros o. rewrite elem_of_remove_dups. unfold Filters.products__id.
      now rewrite elem_of_filter, bool_decide_eq_true. }
    split; [exact Hmem |]. split.
    - intros Hnodup. rewrite remove_dups_NoDup; [apply filter_sublist |].
      unfold Filters.products__id.
      now apply NoDup_ListNoDup, List.NoDup_filter, NoDup_ListNoDup.
    - rewrite (remove_dups_NoDup (Filters.products__id k _)).
      + f_equal.
        assert (forall l : list Order.t,
                  (forall o, o ∈ l -> k ∈ Order.products o) ->
                  Filters.products__id k l = l) as Hall.
        { induction l as [|o l IH]; intros Hl; [reflexivity |].
          unfold Filters.products__id in *. cbn [List.filter].
          rewrite bool_decide_true by (apply Hl; left).
          f_equal. apply IH. intros o' Ho'. apply Hl. now right. }
        apply Hall. intros o Ho. now apply Hmem in Ho as [_ Hk].
      + unfold Filters.products__id at 1.
        apply NoDup_ListNoDup, List.NoDup_filter, NoDup_ListNoDup, NoDup_remove_dups. }
  unfold Filters.filter_by_product_id.
  destruct v as [|s|n|d]; [left; now split | | |];
    (destruct (Filters.int _) as [k|exc] eqn:Eint; [| now split]);
    right; exists k; destruct (Hsel k) as (H1 & H2 & H3 & H4);
    (split; [reflexivity |]); (split; [exact H1 |]); (split; [exact H2 |]);
    (split; [exact H3 |]); now rewrite H4.
Qed.

(** X28. An order a create-order hands back, in either variant, is
    found through each of its products: for every product reference of
    the input, the product filter, over the orders the creation leaves
    and for the key of the product the reference resolved to, selects
    the order. *)
Theorem created_order_found_by_product `{Backend} input st st' order p3 p1 name pid :
  (OldSchema3.CreateOrder_mutate input st = (Return p3, st')
   /\ CreateOrderPayload.order p3 = Some order)
  \/ (OldSchema.CreateOrder_mutate input st = (Return p1, st')
      /\ CreateOrderPayload.order p1 = Some order) ->
  pid ∈ CreateOrderInput.product_ids input ->
  exists product r,
    lookup_product st pid = Some product
    /\ Filters.filter_by_product_id (crm_order st') name
         (Filters.PyInt (Product.id product)) = Return r
    /\ order ∈ r.
Proof.
  intros Hrun Hpid.
  destruct (CreateOrder_mutate_outcome input st) as [C3 C1].
  assert (exists customer date,
            unresolved st (CreateOrderInput.product_ids input) = []
            /\ order = new_order st customer date
                         (resolved st (CreateOrderInput.product_ids input))
            /\ st' = apply_op (InsertOrder order) st)
    as (customer & date & Hun & Horder & ->).
  { destruct Hrun as [[Hrun Hp] | [Hrun Hp]].
    - destruct C3 as [C3 | (q3 & s3 & H3 & C3)]; [congruence |].
      rewrite Hrun in H3. inversion H3; subst q3 s3.
      destruct C3 as [(_ & Hnone & _) | (c & d & _ & _ & Hun & -> & ->)]; [congruence |].
      cbn in Hp. inversion Hp. now exists c, d.
    - destruct C1 as [C1 | (q1 & s1 & H1 & C1)]; [congruence |].
      rewrite Hrun in H1. inversion H1; subst q1 s1.
      destruct C1 as [(_ & Hnone & _) | (c & d & _ & _ & Hun & -> & ->)]; [congruence |].
      cbn in Hp. inversion Hp. now exists c, d. }
  destruct (lookup_product st pid) as [product|] eqn:Elookup.
  - exists product. eexists. split; [reflexivity |]. split; [reflexivity |].
    unfold Filters.distinct. rewrite elem_of_remove_dups. unfold Filters.products__id.
    apply elem_of_filter. split.
    + cbn [apply_op crm_order]. apply elem_of_app. right. now apply list_elem_of_singleton.
    + apply bool_decide_eq_true. rewrite Horder. cbn [new_order Order.products].
      apply elem_of_list_to_set, list_elem_of_fmap_2. unfold resolved.
      apply list_elem_of_omap. now exists pid.
  - assert (pid ∈ unresolved st (CreateOrderInput.product_ids input)) as Hin.
    { unfold unresolved. apply elem_of_filter. split; [exact Hpid |].
      unfold is_unresolved. now rewrite Elookup. }
    rewrite Hun in Hin. now apply elem_of_nil in Hin.
Qed.

Lemma created_order_found_by_product_witness :
  ((@OldSchema3.CreateOrder_mutate example_backend example_order_input example_store
    = (Return (order_created example_order),
       apply_op (InsertOrder example_order) example_store)
    /\ CreateOrderPayload.order (order_created example_order) = Some example_order)
   \/ (@OldSchema.CreateOrder_mutate example_backend example_order_input example_store
       = (Return (order_created example_order),
          apply_op (InsertOrder example_order) example_store)
       /\ CreateOrderPayload.order (order_created example_order) = Some example_order))
  /\ "2" ∈ CreateOrderInput.product_ids example_order_input
  /\ exists product r,
       @lookup_product example_backend example_store "2" = Some product
       /\ Filters.filter_by_product_id
            (crm_order (apply_op (InsertOrder example_order) example_store))
            "product_id" (Filters.PyInt (Product.id product)) = Return r
       /\ example_order ∈ r.
Proof.
  assert (@OldSchema3.CreateOrder_mutate example_backend example_order_input example_store
          = (Return (order_created example_order),
             apply_op (InsertOrder example_order) example_store)) as Hrun
    by (vm_compute; reflexivity).
  assert ("2" ∈ CreateOrderInput.product_ids example_order_input) as Hpid
    by (right; left).
  split; [left; split; [exact Hrun | reflexivity] |]. split; [exact Hpid |].
  apply (@created_order_found_by_product example_backend example_order_input
           example_store (apply_op (InsertOrder example_order) example_store)
           example_order (order_created example_order) (order_created example_order)
           "product_id" "2" (or_introl (conj Hrun eq_refl)) Hpid).
Defined.
